(** * zeroconf._services.info: the ServiceInfo record state

    A shallow embedding of [src/zeroconf/_services/info.py] and the
    properties of its record reconciler, TXT codec, record emitters and
    resolution loop.

    Conventions of the embedding:
    - Python [bytes] is [list byte]; Python [str] is a Rocq [string]
      holding the UTF-8 text, so that [s.encode('utf-8')] is
      [list_byte_of_string];
    - times ([now], [created], [timeout]) are integer milliseconds;
    - an object attribute is a record field of the same name; a method
      is a computation in the monad [M] below, which threads the
      [ServiceInfo] object, may raise a Python exception, and records
      the calls made to collaborators (cache, logger, engine);
    - a Python [dict] is an insertion-ordered association list. *)

From Stdlib Require Import ZArith List Strings.Byte Ascii String Lia.
From stdpp Require Import base list option strings.
From Equations Require Import Equations.

Local Open Scope Z_scope.

(** ** Python built-ins used by the module *)

Abbreviation bytes := (list byte).

#[global] Instance byte_eq_dec : EqDecision byte := Byte.byte_eq_dec.

(** [b'='] *)
Definition EQUALS : byte := "="%byte.

(** [s.encode('utf-8')] *)
Definition encode_utf8 (s : string) : bytes := list_byte_of_string s.

(** Exceptions raised (or caught) by the code under study. *)
Inductive exn :=
| TypeError
| ValueError
| IndexError
| AssertionError
| BadTypeInNameException
| OSError.

Inductive outcome (A : Type) :=
| Return (a : A)
| Raise (e : exn).
Arguments Return {A} a.
Arguments Raise {A} e.

(** [bytes((n,))]: one byte, [ValueError] unless [0 <= n < 256]. *)
Definition bytes_of_len (n : nat) : outcome bytes :=
  match Byte.of_nat n with
  | Some b => Return [b]
  | None => Raise ValueError
  end.

(** [pair.partition(b'=')]: split at the first separator. *)
Fixpoint partition (sep : byte) (b : bytes) : bytes * bytes * bytes :=
  match b with
  | [] => ([], [], [])
  | c :: rest =>
      if decide (c = sep) then ([], [sep], rest)
      else let '(h, s, t) := partition sep rest in (c :: h, s, t)
  end.

(** [text[i:j]] for [0 <= i <= j]. *)
Definition slice (text : bytes) (i j : nat) : bytes :=
  take (j - i)%nat (drop i text).

(** [x in l] *)
Definition contains `{EqDecision A} (x : A) (l : list A) : bool :=
  bool_decide (x ∈ l).

(** [l.remove(x)]: drops the first occurrence, [ValueError] if absent. *)
Fixpoint list_remove `{EqDecision A} (x : A) (l : list A) : outcome (list A) :=
  match l with
  | [] => Raise ValueError
  | y :: l' =>
      if decide (x = y) then Return l'
      else match list_remove x l' with
           | Return r => Return (y :: r)
           | Raise e => Raise e
           end
  end.

(** [l[0]] *)
Definition index0 {A} (l : list A) : outcome A :=
  match l with
  | [] => Raise IndexError
  | x :: _ => Return x
  end.

(** Truthiness of a sequence: [bool(l)]. *)
Definition truthy {A} (l : list A) : bool :=
  match l with [] => false | _ => true end.

(** [s.endswith(suffix)] *)
Definition endswith (s suffix : string) : bool :=
  let ls := list_byte_of_string s in
  let lx := list_byte_of_string suffix in
  bool_decide (drop (List.length ls - List.length lx)%nat ls = lx).

(** *** [ipaddress]

    An address object is identified by its version and its packed
    bytes; [ip_address] accepts exactly 4 or 16 packed bytes. *)
Inductive ip_addr :=
| IPv4Address (packed : bytes)
| IPv6Address (packed : bytes).

#[global] Instance ip_addr_eq_dec : EqDecision ip_addr.
Proof. solve_decision. Defined.

Definition packed (a : ip_addr) : bytes :=
  match a with IPv4Address p | IPv6Address p => p end.

Definition version (a : ip_addr) : Z :=
  match a with IPv4Address _ => 4 | IPv6Address _ => 6 end.

(** [type(ip_addr) is IPv4Address] *)
Definition is_IPv4Address (a : ip_addr) : bool :=
  match a with IPv4Address _ => true | IPv6Address _ => false end.

(** [type(ip_addr) is IPv6Address] *)
Definition is_IPv6Address (a : ip_addr) : bool :=
  match a with IPv4Address _ => false | IPv6Address _ => true end.

(** [_cached_ip_addresses = lru_cache(maxsize=256)(ip_address)]; the
    cache does not change the result. *)
Definition ip_address (address : bytes) : outcome ip_addr :=
  if decide (length address = 4%nat) then Return (IPv4Address address)
  else if decide (length address = 16%nat) then Return (IPv6Address address)
  else Raise ValueError.

Definition _cached_ip_addresses := ip_address.

(** *** [dict]

    Insertion-ordered, keys unique: assigning to a key that is present
    replaces the value in place, a new key goes to the end. *)
Section Dict.
Context {K V : Type} `{EqDecision K}.

Fixpoint dict_set (k : K) (v : V) (d : list (K * V)) : list (K * V) :=
  match d with
  | [] => [(k, v)]
  | (k', v') :: d' =>
      if decide (k = k') then (k', v) :: d' else (k', v') :: dict_set k v d'
  end.

Fixpoint dict_get (k : K) (d : list (K * V)) : option V :=
  match d with
  | [] => None
  | (k', v') :: d' => if decide (k = k') then Some v' else dict_get k d'
  end.

(** [{k: v for k, v in items}] *)
Definition dict_of_items (items : list (K * V)) : list (K * V) :=
  foldl (fun d kv => dict_set kv.1 kv.2 d) [] items.
End Dict.

(** ** Collaborators: DNS records, cache, outgoing message *)

(** Modelled from the spec: the constants of [zeroconf.const], which is
    not part of this file; the values are those of RFC 1035 and RFC 6762. *)
Definition _TYPE_A : Z := 1.
Definition _TYPE_PTR : Z := 12.
Definition _TYPE_TXT : Z := 16.
Definition _TYPE_AAAA : Z := 28.
Definition _TYPE_SRV : Z := 33.
Definition _TYPE_NSEC : Z := 47.
Definition _CLASS_IN : Z := 1.
Definition _CLASS_IN_UNIQUE : Z := 32769.
Definition _DNS_HOST_TTL : Z := 120.
Definition _DNS_OTHER_TTL : Z := 4500.
Definition _FLAGS_QR_QUERY : Z := 0.
Definition _LISTENER_TIME : Z := 200.
Definition _MDNS_PORT : Z := 5353.
Definition _ADDRESS_RECORD_TYPES : list Z := [_TYPE_A; _TYPE_AAAA].

Definition _AVOID_SYNC_DELAY_RANDOM_INTERVAL : Z * Z := (20, 120).

Module Dns.

(** Modelled from the spec: the record value types of [zeroconf._dns]
    ("an address record (name, record kind A/AAAA, class, TTL, raw packed
    address bytes, creation time), a pointer record, a service (SRV)
    record (name, priority, weight, port, target host, TTL), a text record
    (name, raw bytes, TTL)"), with the attributes this file reads:
    [name], [key], [type], [ttl], [created] and the payload of each class.
    [created] is [None] for a record built without a creation time.
    An object of class [DNSAddress] is [Address a]; the other
    constructors are the classes of the same name. *)
Record header := {
  name : string;
  key : string;
  type : Z;
  class_ : Z;
  ttl : Z;
  created : option Z;
}.

Record DNSAddress := {
  address_hd : header;
  address : bytes;
}.

Inductive DNSRecord :=
| Address (a : DNSAddress)
| DNSPointer (hd : header) (alias : string)
| DNSText (hd : header) (text : bytes)
| DNSService (hd : header) (priority weight port : Z) (server server_key : string)
| DNSNsec (hd : header) (next_name : string) (rdtypes : list Z).

Definition hd (r : DNSRecord) : header :=
  match r with
  | Address a => address_hd a
  | DNSPointer h _ | DNSText h _
  | DNSService h _ _ _ _ _ | DNSNsec h _ _ => h
  end.

#[global] Instance header_eq_dec : EqDecision header.
Proof. solve_decision. Defined.

#[global] Instance DNSAddress_eq_dec : EqDecision DNSAddress.
Proof. solve_decision. Defined.

#[global] Instance DNSRecord_eq_dec : EqDecision DNSRecord.
Proof. solve_decision. Defined.

(** Modelled from the spec: [DNSQuestionType] of [zeroconf._dns], an
    enumeration of the two reply modes a question can ask for, unicast
    (QU) and multicast (QM). Its members are all truthy. *)
Inductive DNSQuestionType := QU | QM.

#[global] Instance DNSQuestionType_eq_dec : EqDecision DNSQuestionType.
Proof. solve_decision. Defined.

Record DNSQuestion := {
  q_name : string;
  q_type : Z;
  q_class : Z;
  unicast : bool;
}.

(** Modelled from the spec: [DNSOutgoing] of
    [zeroconf._protocol.outgoing], reduced to its flags, questions and
    the known answers attached with the time they were added at. *)
Record DNSOutgoing := {
  flags : Z;
  questions : list DNSQuestion;
  answers : list (DNSRecord * Z);
}.

(** Modelled from the spec: the cache collaborator, "getOne(name, type,
    class) -> record|null, getAll(name, type, class) -> list<record>".
    This file calls [get_all_by_details] for the address types only and
    casts its result to [List[DNSAddress]]. *)
Record DNSCache := {
  get_by_details : string -> Z -> Z -> option DNSRecord;
  get_all_by_details : string -> Z -> Z -> list DNSAddress;
}.

(** Modelled from the spec: "ask SRV and TXT only if the cache cannot
    already answer them": the question is added unless the cache holds
    an answer, which is attached instead. *)
Definition add_question_or_one_cache
    (out : DNSOutgoing) (cache : DNSCache) (now : Z) (name : string) (type_ class_ : Z)
    : DNSOutgoing :=
  match get_by_details cache name type_ class_ with
  | None =>
      {| flags := flags out;
         questions := questions out ++
           [{| q_name := name; q_type := type_; q_class := class_; unicast := false |}];
         answers := answers out |}
  | Some cached_entry =>
      {| flags := flags out;
         questions := questions out;
         answers := answers out ++ [(cached_entry, now)] |}
  end.

(** Modelled from the spec: "ask A and AAAA ... only if the cache cannot
    answer all matching entries": the question is added when the cache
    has no entry, otherwise every cached entry is attached. *)
Definition add_question_or_all_cache
    (out : DNSOutgoing) (cache : DNSCache) (now : Z) (name : string) (type_ class_ : Z)
    : DNSOutgoing :=
  match get_all_by_details cache name type_ class_ with
  | [] =>
      {| flags := flags out;
         questions := questions out ++
           [{| q_name := name; q_type := type_; q_class := class_; unicast := false |}];
         answers := answers out |}
  | cached_entries =>
      {| flags := flags out;
         questions := questions out;
         answers := answers out ++ map (fun r => (Address r, now)) cached_entries |}
  end.

End Dns.

(** The engine object [zc]: its cache and whether it has started. *)
Record Zeroconf := {
  cache : Dns.DNSCache;
  started : bool;
}.

(** Functions of other modules that this file calls and whose code is
    not part of it. *)
Class Externals := {
  (** [str.lower] *)
  str_lower : string -> string;
  (** [DNSRecord.is_expired(now)] *)
  is_expired : Dns.DNSRecord -> Z -> bool;
  (** [service_type_name(name, strict=...)] of [zeroconf._utils.name];
      it raises [BadTypeInNameException] on a malformed name. *)
  service_type_name : string -> bool -> outcome string;
  (** [_encode_address] of [zeroconf._utils.net] *)
  _encode_address : string -> outcome bytes;
}.

(** ** The ServiceInfo object *)

(** A key or a value of the [properties] dictionary. *)
Inductive pyval :=
| PyBytes (b : bytes)
| PyStr (s : string).

#[global] Instance pyval_eq_dec : EqDecision pyval.
Proof. solve_decision. Defined.

Abbreviation properties_dict := (list (pyval * option pyval)).

(** The slots of the class. [text] is typed [bytes] in the source and
    is never [None] in an object built by [__init__]; it is an option
    here because [_is_complete] tests [self.text is not None]. *)
Record ServiceInfo := {
  text : option bytes;
  type : string;
  _name : string;
  key : string;
  _ipv4_addresses : list ip_addr;
  _ipv6_addresses : list ip_addr;
  port : option Z;
  weight : Z;
  priority : Z;
  server : option string;
  server_key : option string;
  _properties : option properties_dict;
  host_ttl : Z;
  other_ttl : Z;
  interface_index : option Z;
  _new_records_futures : list nat;
}.

(** What a method does to its collaborators, in program order. *)
Inductive event :=
| CacheGetByDetails (name : string) (type_ class_ : Z)
| CacheGetAllByDetails (name : string) (type_ class_ : Z)
| LogWarning (record : Dns.DNSRecord)
| ResolveAllFuturesToNone (futures : list nat)
| AsyncAddListener
| AsyncRemoveListener
| AsyncSend (out : Dns.DNSOutgoing) (addr : option string) (port : Z).

(** A method call: from the object before the call to the outcome, the
    object after the call and the collaborator calls it made. A raised
    exception keeps the mutations made before it. *)
Definition M (A : Type) : Type :=
  ServiceInfo -> outcome A * ServiceInfo * list event.

Definition ret {A} (a : A) : M A := fun self => (Return a, self, []).

Definition bind {A B} (m : M A) (k : A -> M B) : M B := fun self =>
  match m self with
  | (Return a, self1, ev1) =>
      let '(r, self2, ev2) := k a self1 in (r, self2, ev1 ++ ev2)
  | (Raise e, self1, ev1) => (Raise e, self1, ev1)
  end.

Definition raise {A} (e : exn) : M A := fun self => (Raise e, self, []).

Definition lift {A} (o : outcome A) : M A := fun self => (o, self, []).

Definition read {A} (f : ServiceInfo -> A) : M A := fun self => (Return (f self), self, []).

Definition modify (f : ServiceInfo -> ServiceInfo) : M unit :=
  fun self => (Return tt, f self, []).

Definition emit (e : event) : M unit := fun self => (Return tt, self, [e]).

Notation "x <- m ;; k" := (bind m (fun x => k))
  (at level 100, m at next level, right associativity).
Notation "m ;;; k" := (bind m (fun _ => k))
  (at level 100, right associativity).

Definition when (b : bool) (m : M unit) : M unit := if b then m else ret tt.

(** [for x in l: body x] *)
Fixpoint for_each {A} (l : list A) (body : A -> M unit) : M unit :=
  match l with
  | [] => ret tt
  | x :: l' => body x ;;; for_each l' body
  end.

(** Attribute assignment [self.f = v]. *)
Definition set_text (v : option bytes) (s : ServiceInfo) : ServiceInfo :=
  {| text := v; type := type s; _name := _name s; key := key s;
     _ipv4_addresses := _ipv4_addresses s; _ipv6_addresses := _ipv6_addresses s;
     port := port s; weight := weight s; priority := priority s;
     server := server s; server_key := server_key s;
     _properties := _properties s; host_ttl := host_ttl s; other_ttl := other_ttl s;
     interface_index := interface_index s;
     _new_records_futures := _new_records_futures s |}.

Definition set__name (v : string) (s : ServiceInfo) : ServiceInfo :=
  {| text := text s; type := type s; _name := v; key := key s;
     _ipv4_addresses := _ipv4_addresses s; _ipv6_addresses := _ipv6_addresses s;
     port := port s; weight := weight s; priority := priority s;
     server := server s; server_key := server_key s;
     _properties := _properties s; host_ttl := host_ttl s; other_ttl := other_ttl s;
     interface_index := interface_index s;
     _new_records_futures := _new_records_futures s |}.

Definition set_key (v : string) (s : ServiceInfo) : ServiceInfo :=
  {| text := text s; type := type s; _name := _name s; key := v;
     _ipv4_addresses := _ipv4_addresses s; _ipv6_addresses := _ipv6_addresses s;
     port := port s; weight := weight s; priority := priority s;
     server := server s; server_key := server_key s;
     _properties := _properties s; host_ttl := host_ttl s; other_ttl := other_ttl s;
     interface_index := interface_index s;
     _new_records_futures := _new_records_futures s |}.

Definition set__ipv4_addresses (v : list ip_addr) (s : ServiceInfo) : ServiceInfo :=
  {| text := text s; type := type s; _name := _name s; key := key s;
     _ipv4_addresses := v; _ipv6_addresses := _ipv6_addresses s;
     port := port s; weight := weight s; priority := priority s;
     server := server s; server_key := server_key s;
     _properties := _properties s; host_ttl := host_ttl s; other_ttl := other_ttl s;
     interface_index := interface_index s;
     _new_records_futures := _new_records_futures s |}.

Definition set__ipv6_addresses (v : list ip_addr) (s : ServiceInfo) : ServiceInfo :=
  {| text := text s; type := type s; _name := _name s; key := key s;
     _ipv4_addresses := _ipv4_addresses s; _ipv6_addresses := v;
     port := port s; weight := weight s; priority := priority s;
     server := server s; server_key := server_key s;
     _properties := _properties s; host_ttl := host_ttl s; other_ttl := other_ttl s;
     interface_index := interface_index s;
     _new_records_futures := _new_records_futures s |}.

Definition set_port (v : option Z) (s : ServiceInfo) : ServiceInfo :=
  {| text := text s; type := type s; _name := _name s; key := key s;
     _ipv4_addresses := _ipv4_addresses s; _ipv6_addresses := _ipv6_addresses s;
     port := v; weight := weight s; priority := priority s;
     server := server s; server_key := server_key s;
     _properties := _properties s; host_ttl := host_ttl s; other_ttl := other_ttl s;
     interface_index := interface_index s;
     _new_records_futures := _new_records_futures s |}.

Definition set_weight (v : Z) (s : ServiceInfo) : ServiceInfo :=
  {| text := text s; type := type s; _name := _name s; key := key s;
     _ipv4_addresses := _ipv4_addresses s; _ipv6_addresses := _ipv6_addresses s;
     port := port s; weight := v; priority := priority s;
     server := server s; server_key := server_key s;
     _properties := _properties s; host_ttl := host_ttl s; other_ttl := other_ttl s;
     interface_index := interface_index s;
     _new_records_futures := _new_records_futures s |}.

Definition set_priority (v : Z) (s : ServiceInfo) : ServiceInfo :=
  {| text := text s; type := type s; _name := _name s; key := key s;
     _ipv4_addresses := _ipv4_addresses s; _ipv6_addresses := _ipv6_addresses s;
     port := port s; weight := weight s; priority := v;
     server := server s; server_key := server_key s;
     _properties := _properties s; host_ttl := host_ttl s; other_ttl := other_ttl s;
     interface_index := interface_index s;
     _new_records_futures := _new_records_futures s |}.

Definition set_server (v : option string) (s : ServiceInfo) : ServiceInfo :=
  {| text := text s; type := type s; _name := _name s; key := key s;
     _ipv4_addresses := _ipv4_addresses s; _ipv6_addresses := _ipv6_addresses s;
     port := port s; weight := weight s; priority := priority s;
     server := v; server_key := server_key s;
     _properties := _properties s; host_ttl := host_ttl s; other_ttl := other_ttl s;
     interface_index := interface_index s;
     _new_records_futures := _new_records_futures s |}.

Definition set_server_key (v : option string) (s : ServiceInfo) : ServiceInfo :=
  {| text := text s; type := type s; _name := _name s; key := key s;
     _ipv4_addresses := _ipv4_addresses s; _ipv6_addresses := _ipv6_addresses s;
     port := port s; weight := weight s; priority := priority s;
     server := server s; server_key := v;
     _properties := _properties s; host_ttl := host_ttl s; other_ttl := other_ttl s;
     interface_index := interface_index s;
     _new_records_futures := _new_records_futures s |}.

Definition set__properties (v : option properties_dict) (s : ServiceInfo) : ServiceInfo :=
  {| text := text s; type := type s; _name := _name s; key := key s;
     _ipv4_addresses := _ipv4_addresses s; _ipv6_addresses := _ipv6_addresses s;
     port := port s; weight := weight s; priority := priority s;
     server := server s; server_key := server_key s;
     _properties := v; host_ttl := host_ttl s; other_ttl := other_ttl s;
     interface_index := interface_index s;
     _new_records_futures := _new_records_futures s |}.

Definition set_type (v : string) (s : ServiceInfo) : ServiceInfo :=
  {| text := text s; type := v; _name := _name s; key := key s;
     _ipv4_addresses := _ipv4_addresses s; _ipv6_addresses := _ipv6_addresses s;
     port := port s; weight := weight s; priority := priority s;
     server := server s; server_key := server_key s;
     _properties := _properties s; host_ttl := host_ttl s; other_ttl := other_ttl s;
     interface_index := interface_index s;
     _new_records_futures := _new_records_futures s |}.

Definition set_host_ttl (v : Z) (s : ServiceInfo) : ServiceInfo :=
  {| text := text s; type := type s; _name := _name s; key := key s;
     _ipv4_addresses := _ipv4_addresses s; _ipv6_addresses := _ipv6_addresses s;
     port := port s; weight := weight s; priority := priority s;
     server := server s; server_key := server_key s;
     _properties := _properties s; host_ttl := v; other_ttl := other_ttl s;
     interface_index := interface_index s;
     _new_records_futures := _new_records_futures s |}.

Definition set_other_ttl (v : Z) (s : ServiceInfo) : ServiceInfo :=
  {| text := text s; type := type s; _name := _name s; key := key s;
     _ipv4_addresses := _ipv4_addresses s; _ipv6_addresses := _ipv6_addresses s;
     port := port s; weight := weight s; priority := priority s;
     server := server s; server_key := server_key s;
     _properties := _properties s; host_ttl := host_ttl s; other_ttl := v;
     interface_index := interface_index s;
     _new_records_futures := _new_records_futures s |}.

Definition set_interface_index (v : option Z) (s : ServiceInfo) : ServiceInfo :=
  {| text := text s; type := type s; _name := _name s; key := key s;
     _ipv4_addresses := _ipv4_addresses s; _ipv6_addresses := _ipv6_addresses s;
     port := port s; weight := weight s; priority := priority s;
     server := server s; server_key := server_key s;
     _properties := _properties s; host_ttl := host_ttl s; other_ttl := other_ttl s;
     interface_index := v;
     _new_records_futures := _new_records_futures s |}.

Definition set__new_records_futures (v : list nat) (s : ServiceInfo) : ServiceInfo :=
  {| text := text s; type := type s; _name := _name s; key := key s;
     _ipv4_addresses := _ipv4_addresses s; _ipv6_addresses := _ipv6_addresses s;
     port := port s; weight := weight s; priority := priority s;
     server := server s; server_key := server_key s;
     _properties := _properties s; host_ttl := host_ttl s; other_ttl := other_ttl s;
     interface_index := interface_index s;
     _new_records_futures := v |}.

(** ** The TXT codec *)

(** The second loop of [_set_properties]:
    [result = b''.join((result, bytes((len(item),)), item))]. *)
Fixpoint join_items (list_ : list bytes) (result : bytes) : outcome bytes :=
  match list_ with
  | [] => Return result
  | item :: rest =>
      match bytes_of_len (length item) with
      | Return b => join_items rest (result ++ b ++ item)
      | Raise e => Raise e
      end
  end.

(** The first loop of [_set_properties]: one [key] or [key=value]
    entry per item of the dictionary, in iteration order. *)
Definition property_record (kv : pyval * option pyval) : bytes :=
  let '(key, value) := kv in
  let key := match key with PyStr s => encode_utf8 s | PyBytes b => b end in
  let record := key in
  match value with
  | Some value =>
      let value := match value with PyBytes b => b | PyStr s => encode_utf8 s end in
      record ++ [EQUALS] ++ value
  | None => record
  end.

Definition _set_properties (properties : properties_dict) : M unit :=
  modify (set__properties (Some properties)) ;;;
  let list_ := map property_record properties in
  result <- lift (join_items list_ []) ;;
  modify (set_text (Some result)).

Definition _set_text (text_ : bytes) : M unit :=
  current <- read text ;;
  if decide (Some text_ = current) then ret tt
  else
    modify (set_text (Some text_)) ;;;
    (* Clear the properties cache *)
    modify (set__properties None).

(** The [while index < end] loop of [_unpack_text_into_properties]. *)
Equations? unpack_loop (text_ : bytes) (index : nat) (pairs : list bytes)
  : list bytes by wf (length text_ - index)%nat lt :=
unpack_loop text_ index pairs with decide (index < length text_)%nat := {
  | left _ =>
      let length_ := Byte.to_nat (nth index text_ "000"%byte) in
      unpack_loop text_ (index + 1 + length_)
        (pairs ++ [slice text_ (index + 1) (index + 1 + length_)])
  | right _ => pairs }.
Proof. lia. Qed.

(** [key: value or None for key, _, value in (pair.partition(b'='))] *)
Definition property_item (pair : bytes) : pyval * option pyval :=
  let '(key, _, value) := partition EQUALS pair in
  (PyBytes key, if truthy value then Some (PyBytes value) else None).

Definition _unpack_text_into_properties : M unit :=
  text_ <- read text ;;
  match text_ with
  | None | Some [] =>
      modify (set__properties (Some []))
  | Some text_ =>
      let pairs := unpack_loop text_ 0 [] in
      let pairs := rev pairs in
      modify (set__properties (Some (dict_of_items (map property_item pairs))))
  end.

(** The [properties] accessor. *)
Definition properties : M (option properties_dict) :=
  cached <- read _properties ;;
  match cached with
  | None => _unpack_text_into_properties
  | Some _ => ret tt
  end ;;;
  read _properties.

(** ** Methods that need the other modules *)

Section Methods.
Context `{Externals}.

(** [name.setter] *)
Definition set_name (name : string) : M unit :=
  modify (set__name name) ;;;
  modify (set_key (str_lower name)).

(** [addresses.setter] *)
Definition set_addresses (value : list bytes) : M unit :=
  modify (set__ipv4_addresses []) ;;;
  modify (set__ipv6_addresses []) ;;;
  for_each value (fun address =>
    match _cached_ip_addresses address with
    | Raise _ => raise TypeError
    | Return addr =>
        if decide (version addr = 4) then
          l <- read _ipv4_addresses ;; modify (set__ipv4_addresses (l ++ [addr]))
        else
          l <- read _ipv6_addresses ;; modify (set__ipv6_addresses (l ++ [addr]))
    end).

Definition _get_address_records_from_cache_by_type (zc : Zeroconf) (_type : Z)
  : M (list Dns.DNSAddress) :=
  sk <- read server_key ;;
  match sk with
  | None => ret []
  | Some sk =>
      emit (CacheGetAllByDetails sk _type _CLASS_IN) ;;;
      ret (Dns.get_all_by_details (cache zc) sk _type _CLASS_IN)
  end.

(** The body of the loop of [_get_ip_addresses_from_cache_lifo]. *)
Definition append_cached_address (now : Z) (address_list : list ip_addr)
    (record : Dns.DNSAddress) : list ip_addr :=
  if is_expired (Dns.Address record) now then address_list
  else match _cached_ip_addresses (Dns.address record) with
       | Raise _ => address_list
       | Return ip_addr => address_list ++ [ip_addr]
       end.

Definition _get_ip_addresses_from_cache_lifo (zc : Zeroconf) (now : Z) (type_ : Z)
  : M (list ip_addr) :=
  records <- _get_address_records_from_cache_by_type zc type_ ;;
  let address_list := foldl (append_cached_address now) [] records in
  ret (rev address_list).

Definition _set_ipv6_addresses_from_cache (zc : Zeroconf) (now : Z) : M unit :=
  l <- _get_ip_addresses_from_cache_lifo zc now _TYPE_AAAA ;;
  modify (set__ipv6_addresses l).

Definition _set_ipv4_addresses_from_cache (zc : Zeroconf) (now : Z) : M unit :=
  l <- _get_ip_addresses_from_cache_lifo zc now _TYPE_A ;;
  modify (set__ipv4_addresses l).

(** Lines 437-449: the IPv4 branch of the address case. *)
Definition process_ipv4_address (zc : Zeroconf) (now : Z) (ip_addr : ip_addr) : M bool :=
  nonempty <- read (fun self => truthy (_ipv4_addresses self)) ;;
  when nonempty (_set_ipv4_addresses_from_cache zc now) ;;;
  ipv4_addresses <- read _ipv4_addresses ;;
  if negb (contains ip_addr ipv4_addresses) then
    modify (set__ipv4_addresses (ip_addr :: ipv4_addresses)) ;;;
    ret true
  else
    first <- lift (index0 ipv4_addresses) ;;
    (if decide (ip_addr <> first) then
       removed <- lift (list_remove ip_addr ipv4_addresses) ;;
       modify (set__ipv4_addresses (ip_addr :: removed))
     else ret tt) ;;;
    ret false.

(** Lines 451-462: the IPv6 branch of the address case. *)
Definition process_ipv6_address (zc : Zeroconf) (now : Z) (ip_addr : ip_addr) : M bool :=
  nonempty <- read (fun self => truthy (_ipv6_addresses self)) ;;
  when (negb nonempty) (_set_ipv6_addresses_from_cache zc now) ;;;
  ipv6_addresses <- read _ipv6_addresses ;;
  if negb (contains ip_addr ipv6_addresses) then
    modify (set__ipv6_addresses (ip_addr :: ipv6_addresses)) ;;;
    ret true
  else
    first <- lift (index0 ipv6_addresses) ;;
    (if decide (ip_addr <> first) then
       removed <- lift (list_remove ip_addr ipv6_addresses) ;;
       modify (set__ipv6_addresses (ip_addr :: removed))
     else ret tt) ;;;
    ret false.

(** Lines 464-484: the cases after the address case. *)
Definition process_keyed_record (zc : Zeroconf) (record : Dns.DNSRecord) (now : Z) : M bool :=
  self_key <- read key ;;
  if decide (Dns.key (Dns.hd record) <> self_key) then ret false
  else
    match record with
    | Dns.DNSText h text_ =>
        if decide (Dns.type h = _TYPE_TXT) then
          _set_text text_ ;;;
          ret true
        else ret false
    | Dns.DNSService h priority_ weight_ port_ server_ server_key_ =>
        if decide (Dns.type h = _TYPE_SRV) then
          old_server_key <- read server_key ;;
          set_name (Dns.name h) ;;;
          modify (set_server (Some server_)) ;;;
          modify (set_server_key (Some server_key_)) ;;;
          modify (set_port (Some port_)) ;;;
          modify (set_weight weight_) ;;;
          modify (set_priority priority_) ;;;
          new_server_key <- read server_key ;;
          when (bool_decide (old_server_key <> new_server_key))
            (_set_ipv4_addresses_from_cache zc now ;;;
             _set_ipv6_addresses_from_cache zc now) ;;;
          ret true
        else ret false
    | _ => ret false
    end.

Definition _process_record_threadsafe (zc : Zeroconf) (record : Dns.DNSRecord) (now : Z)
  : M bool :=
  if is_expired record now then ret false
  else
    let record_key := Dns.key (Dns.hd record) in
    self_server_key <- read server_key ;;
    match record with
    | Dns.Address a =>
        if decide (Some record_key = self_server_key) then
          match _cached_ip_addresses (Dns.address a) with
          | Raise _ =>
              emit (LogWarning record) ;;;
              ret false
          | Return ip_addr =>
              if is_IPv4Address ip_addr then process_ipv4_address zc now ip_addr
              else process_ipv6_address zc now ip_addr
          end
        else process_keyed_record zc record now
    | _ => process_keyed_record zc record now
    end.

End Methods.

(** ** Completeness, cache loading and update batches *)

(** The [_is_complete] property. *)
Definition _is_complete : M bool :=
  read (fun self =>
    bool_decide (text self <> None)
    && (truthy (_ipv4_addresses self) || truthy (_ipv6_addresses self))).

Definition set_server_if_missing : M unit :=
  srv <- read server ;;
  match srv with
  | None =>
      name <- read _name ;;
      modify (set_server (Some name)) ;;;
      k <- read key ;;
      modify (set_server_key (Some k))
  | Some _ => ret tt
  end.

(** A record-update event: the previous and the new record value. *)
Record RecordUpdate := {
  new : Dns.DNSRecord;
  old : option Dns.DNSRecord;
}.

Section Resolution.
Context `{Externals}.

(** Modelled from the spec: [_resolve_all_futures_to_none] of
    [zeroconf._utils.asyncio], "notify resolves every pending handle";
    the registry is empty afterwards. *)
Definition _resolve_all_futures_to_none : M unit :=
  futures <- read _new_records_futures ;;
  emit (ResolveAllFuturesToNone futures) ;;;
  modify (set__new_records_futures []).

Definition async_update_records (zc : Zeroconf) (now : Z) (records : list RecordUpdate)
  : M unit :=
  new_records_futures <- read _new_records_futures ;;
  updated <-
    (fix loop (records : list RecordUpdate) (updated : bool) : M bool :=
       match records with
       | [] => ret updated
       | record_update :: rest =>
           r <- _process_record_threadsafe zc (new record_update) now ;;
           loop rest (updated || r)
       end) records false ;;
  when (updated && truthy new_records_futures) _resolve_all_futures_to_none.

(** [load_from_cache(zc, now)]; [current_time_millis] is the reading of
    the clock, used when [now] is not given (or is zero). *)
Definition load_from_cache (zc : Zeroconf) (now : option Z) (current_time_millis : Z)
  : M bool :=
  let now := match now with
             | Some n => if decide (n = 0) then current_time_millis else n
             | None => current_time_millis
             end in
  original_server_key <- read server_key ;;
  name <- read _name ;;
  emit (CacheGetByDetails name _TYPE_SRV _CLASS_IN) ;;;
  match Dns.get_by_details (cache zc) name _TYPE_SRV _CLASS_IN with
  | Some cached_srv_record =>
      _process_record_threadsafe zc cached_srv_record now ;;; ret tt
  | None => ret tt
  end ;;;
  name <- read _name ;;
  emit (CacheGetByDetails name _TYPE_TXT _CLASS_IN) ;;;
  match Dns.get_by_details (cache zc) name _TYPE_TXT _CLASS_IN with
  | Some cached_txt_record =>
      _process_record_threadsafe zc cached_txt_record now ;;; ret tt
  | None => ret tt
  end ;;;
  new_server_key <- read server_key ;;
  when (bool_decide (original_server_key = new_server_key))
    (a <- _get_address_records_from_cache_by_type zc _TYPE_A ;;
     aaaa <- _get_address_records_from_cache_by_type zc _TYPE_AAAA ;;
     for_each (a ++ aaaa) (fun record =>
       _process_record_threadsafe zc (Dns.Address record) now ;;; ret tt)) ;;;
  _is_complete.

(** ** Record emitters *)

Inductive IPVersion := All | V4Only | V6Only.

Definition _ip_addresses_by_version_value (version_value : IPVersion) : M (list ip_addr) :=
  match version_value with
  | All =>
      v4 <- read _ipv4_addresses ;;
      v6 <- read _ipv6_addresses ;;
      ret (v4 ++ v6)
  | V4Only => read _ipv4_addresses
  | V6Only => read _ipv6_addresses
  end.

(** [a or b] on strings, [a] possibly [None]. *)
Definition or_name (a : option string) (b : string) : string :=
  match a with
  | Some s => if decide (s = EmptyString) then b else s
  | None => b
  end.

(** [override_ttl if override_ttl is not None else ttl] *)
Definition ttl_or (override_ttl : option Z) (ttl : Z) : Z :=
  match override_ttl with Some t => t | None => ttl end.

(** Modelled from the spec: the constructor of the record classes, which
    keeps its arguments and derives [key] from [name] by lowercasing. *)
Definition new_header (name : string) (type_ class_ ttl : Z) (created : option Z)
  : Dns.header :=
  {| Dns.name := name; Dns.key := str_lower name; Dns.type := type_;
     Dns.class_ := class_; Dns.ttl := ttl; Dns.created := created |}.

Definition dns_addresses (override_ttl : option Z) (version : IPVersion)
    (created : option Z) : M (list Dns.DNSRecord) :=
  srv <- read server ;;
  self_name <- read _name ;;
  let name := or_name srv self_name in
  httl <- read host_ttl ;;
  let ttl := ttl_or override_ttl httl in
  let class_ := _CLASS_IN_UNIQUE in
  addrs <- _ip_addresses_by_version_value version ;;
  ret (map (fun ip_addr =>
         Dns.Address
           {| Dns.address_hd :=
                new_header name
                  (if is_IPv6Address ip_addr then _TYPE_AAAA else _TYPE_A)
                  class_ ttl created;
              Dns.address := packed ip_addr |}) addrs).

Definition dns_nsec (missing_types : list Z) (override_ttl : option Z)
    (created : option Z) : M Dns.DNSRecord :=
  name <- read _name ;;
  httl <- read host_ttl ;;
  ret (Dns.DNSNsec
         (new_header name _TYPE_NSEC _CLASS_IN_UNIQUE (ttl_or override_ttl httl) created)
         name missing_types).

(** [s.discard(x)] and [s.add(x)] on a set kept as a duplicate-free list. *)
Definition discard `{EqDecision A} (x : A) (s : list A) : list A :=
  filter (fun y => y <> x) s.

Definition set_add `{EqDecision A} (x : A) (s : list A) : list A :=
  if contains x s then s else s ++ [x].

Definition get_address_and_nsec_records (override_ttl : option Z) (created : option Z)
  : M (list Dns.DNSRecord) :=
  let missing_types := _ADDRESS_RECORD_TYPES in
  let records := [] in
  addresses <- dns_addresses override_ttl All created ;;
  let '(missing_types, records) :=
    foldl (fun '(missing_types, records) dns_address =>
             (discard (Dns.type (Dns.hd dns_address)) missing_types,
              set_add dns_address records))
          (missing_types, records) addresses in
  if truthy missing_types then
    srv <- read server ;;
    match srv with
    | None => raise AssertionError
    | Some _ =>
        nsec <- dns_nsec missing_types override_ttl created ;;
        ret (set_add nsec records)
    end
  else ret records.

(** ** The resolution driver *)

Definition generate_request_query (zc : Zeroconf) (now : Z)
    (question_type : option Dns.DNSQuestionType) : M Dns.DNSOutgoing :=
  let out := {| Dns.flags := _FLAGS_QR_QUERY; Dns.questions := []; Dns.answers := [] |} in
  name <- read _name ;;
  srv <- read server ;;
  let server_or_name := or_name srv name in
  let cache_ := cache zc in
  let out := Dns.add_question_or_one_cache out cache_ now name _TYPE_SRV _CLASS_IN in
  let out := Dns.add_question_or_one_cache out cache_ now name _TYPE_TXT _CLASS_IN in
  let out := Dns.add_question_or_all_cache out cache_ now server_or_name _TYPE_A _CLASS_IN in
  let out := Dns.add_question_or_all_cache out cache_ now server_or_name _TYPE_AAAA _CLASS_IN in
  if decide (question_type = Some Dns.QU) then
    ret {| Dns.flags := Dns.flags out;
           Dns.questions :=
             map (fun question =>
                    {| Dns.q_name := Dns.q_name question;
                       Dns.q_type := Dns.q_type question;
                       Dns.q_class := Dns.q_class question;
                       Dns.unicast := true |}) (Dns.questions out);
           Dns.answers := Dns.answers out |}
  else ret out.

(** The argument of [generate_request_query] in the loop of
    [async_request]:
    [question_type or DNSQuestionType.QU if first_request else DNSQuestionType.QM].
    A conditional expression binds weaker than [or]; the members of the
    enumeration are truthy. *)
Definition request_question_type (question_type : option Dns.DNSQuestionType)
    (first_request : bool) : option Dns.DNSQuestionType :=
  if first_request then
    match question_type with
    | Some q => Some q
    | None => Some Dns.QU
    end
  else Some Dns.QM.

(** What happens while [async_request] is suspended in [async_wait]:
    the engine delivers update batches, the cache moves on, and the
    clock reads [clock] on resumption. [running_loop] is whether
    [get_running_loop()] finds a loop when the wait begins; [jitter] is
    the value of [random.randint( *_AVOID_SYNC_DELAY_RANDOM_INTERVAL)]
    drawn if a query is sent before suspending. *)
Record wakeup := {
  running_loop : bool;
  jitter : Z;
  updates : list (Z * list RecordUpdate);
  zc_after : Zeroconf;
  clock : Z;
}.

(** Modelled from the spec: [wait_for_future_set_or_timeout] of
    [zeroconf._utils.asyncio], "suspend until either the Waiter Registry
    is notified (new record applied) or min(nextSendTime, deadline) - now
    elapses": the waiter registers a handle, the engine applies the
    batches of the wake-up, the handle is removed. *)
Definition wait_for_future_set_or_timeout (zc : Zeroconf) (w : wakeup) (timeout : Z)
  : M unit :=
  futures <- read _new_records_futures ;;
  modify (set__new_records_futures (futures ++ [length futures])) ;;;
  for_each (updates w) (fun '(now, records) => async_update_records zc now records) ;;;
  modify (set__new_records_futures futures).

(** [async_wait(timeout)], woken as [w] says: the running loop is
    looked up and asserted to be there before the wait begins. *)
Definition async_wait (zc : Zeroconf) (w : wakeup) (timeout : Z) : M unit :=
  let loop := running_loop w in
  if loop then wait_for_future_set_or_timeout zc w timeout
  else raise AssertionError.

(** The [while not self._is_complete] loop of [async_request], run
    against a schedule of wake-ups, one for each [await]. The result is
    [None] when the schedule ends while the loop is still suspended. *)
Fixpoint request_loop (schedule : list wakeup) (zc : Zeroconf)
    (question_type : option Dns.DNSQuestionType) (addr : option string) (port_ : Z)
    (first_request : bool) (delay next_ last now : Z) : M (option bool) :=
  complete <- _is_complete ;;
  if complete then ret (Some true)
  else if decide (last <= now) then ret (Some false)
  else
    if decide (next_ <= now) then
      out <- generate_request_query zc now
               (request_question_type question_type first_request) ;;
      let first_request := false in
      if negb (truthy (Dns.questions out)) then
        r <- load_from_cache zc (Some now) now ;;
        ret (Some r)
      else
        emit (AsyncSend out addr port_) ;;;
        match schedule with
        | [] => ret None
        | w :: schedule' =>
            let next_ := now + delay in
            let delay := delay * 2 in
            let next_ := next_ + jitter w in
            async_wait zc w (Z.min next_ last - now) ;;;
            request_loop schedule' (zc_after w) question_type addr port_
              first_request delay next_ last (clock w)
        end
    else
      match schedule with
      | [] => ret None
      | w :: schedule' =>
          async_wait zc w (Z.min next_ last - now) ;;;
          request_loop schedule' (zc_after w) question_type addr port_
            first_request delay next_ last (clock w)
      end.

(** [try: body finally: handler]: the handler runs when the body
    returns or raises, not while it is still suspended ([None]). *)
Definition try_finally {A} (body : M (option A)) (handler : M unit) : M (option A) :=
  fun self =>
    match body self with
    | (Return None, self1, ev1) => (Return None, self1, ev1)
    | (r, self1, ev1) =>
        let '(_, self2, ev2) := handler self1 in (r, self2, ev1 ++ ev2)
    end.

(** [async_request]; [now] is the reading of the clock at entry, once
    the engine has started (the wait for the start touches nothing of
    the object). *)
Definition async_request (schedule : list wakeup) (zc : Zeroconf) (timeout : Z)
    (question_type : option Dns.DNSQuestionType) (addr : option string) (port_ : Z)
    (now : Z) : M (option bool) :=
  loaded <- load_from_cache zc (Some now) now ;;
  if loaded then ret (Some true)
  else
    let first_request := true in
    let delay := _LISTENER_TIME in
    let next_ := now in
    let last := now + timeout in
    try_finally
      (emit AsyncAddListener ;;;
       request_loop schedule zc question_type addr port_ first_request delay next_ last now)
      (emit AsyncRemoveListener).

End Resolution.

(** ** Construction and equality *)

(** The object before [__init__] has run: no slot holds a value yet. *)
Definition unset : ServiceInfo :=
  {| text := None; type := EmptyString; _name := EmptyString; key := EmptyString;
     _ipv4_addresses := []; _ipv6_addresses := [];
     port := None; weight := 0; priority := 0;
     server := None; server_key := None;
     _properties := None; host_ttl := 0; other_ttl := 0;
     interface_index := None; _new_records_futures := [] |}.

(** Truthiness of an optional string: [None] and [''] are falsy. *)
Definition truthy_str (s : option string) : bool :=
  match s with
  | Some s => negb (bool_decide (s = EmptyString))
  | None => false
  end.

Section Construction.
Context `{Externals}.

Definition __init__ (type_ name : string) (port_ : option Z) (weight_ priority_ : Z)
    (properties_ : bytes + properties_dict) (server_ : option string)
    (host_ttl_ other_ttl_ : Z) (addresses : option (list bytes))
    (parsed_addresses : option (list string)) (interface_index_ : option Z) : M unit :=
  if bool_decide (addresses <> None) && bool_decide (parsed_addresses <> None) then
    raise TypeError
  else
    suffix <- lift (service_type_name name false) ;;
    if negb (endswith type_ suffix) then raise BadTypeInNameException
    else
      modify (set_text (Some [])) ;;;
      modify (set_type type_) ;;;
      modify (set__name name) ;;;
      modify (set_key (str_lower name)) ;;;
      modify (set__ipv4_addresses []) ;;;
      modify (set__ipv6_addresses []) ;;;
      match addresses, parsed_addresses with
      | Some addresses, _ => set_addresses addresses
      | None, Some parsed_addresses =>
          encoded <-
            (fix encode_all (l : list string) : M (list bytes) :=
               match l with
               | [] => ret []
               | a :: l' =>
                   b <- lift (_encode_address a) ;;
                   bs <- encode_all l' ;;
                   ret (b :: bs)
               end) parsed_addresses ;;
          set_addresses encoded
      | None, None => ret tt
      end ;;;
      modify (set_port port_) ;;;
      modify (set_weight weight_) ;;;
      modify (set_priority priority_) ;;;
      modify (set_server (if truthy_str server_ then server_ else None)) ;;;
      modify (set_server_key
                (if truthy_str server_ then option_map str_lower server_ else None)) ;;;
      modify (set__properties None) ;;;
      match properties_ with
      | inl text_ => _set_text text_
      | inr dict_ => _set_properties dict_
      end ;;;
      modify (set_host_ttl host_ttl_) ;;;
      modify (set_other_ttl other_ttl_) ;;;
      modify (set_interface_index interface_index_) ;;;
      modify (set__new_records_futures []).

(** [ServiceInfo(...)]: the object when [__init__] returns. *)
Definition new_ServiceInfo (type_ name : string) (port_ : option Z) (weight_ priority_ : Z)
    (properties_ : bytes + properties_dict) (server_ : option string)
    (host_ttl_ other_ttl_ : Z) (addresses : option (list bytes))
    (parsed_addresses : option (list string)) (interface_index_ : option Z)
  : outcome ServiceInfo :=
  match __init__ type_ name port_ weight_ priority_ properties_ server_
          host_ttl_ other_ttl_ addresses parsed_addresses interface_index_ unset with
  | (Return _, self, _) => Return self
  | (Raise e, _, _) => Raise e
  end.

End Construction.

(** The argument [other : object] of [__eq__]. *)
Inductive pyobject :=
| ObjServiceInfo (info : ServiceInfo)
| ObjNone
| ObjStr (s : string)
| ObjBytes (b : bytes)
| ObjInt (z : Z).

(** [isinstance(other, ServiceInfo)] *)
Definition isinstance_ServiceInfo (other : pyobject) : bool :=
  match other with ObjServiceInfo _ => true | _ => false end.

Definition __eq__ (other : pyobject) : M bool :=
  match other with
  | ObjServiceInfo o =>
      name <- read _name ;;
      ret (bool_decide (_name o = name))
  | _ => ret false
  end.

(** ** Reading a call *)

Definition result_of {A} (r : outcome A * ServiceInfo * list event) : outcome A := r.1.1.
Definition object_of {A} (r : outcome A * ServiceInfo * list event) : ServiceInfo := r.1.2.
Definition events_of {A} (r : outcome A * ServiceInfo * list event) : list event := r.2.

(** ** The address ledger, as the specification words it *)

(** [remove] of an element known to be present. *)
Fixpoint remove_first `{EqDecision A} (x : A) (l : list A) : list A :=
  match l with
  | [] => []
  | y :: l' => if decide (x = y) then l' else y :: remove_first x l'
  end.

(** "insertOrPromote(address): if absent, insert at head; if present but
    not at head, move to head; if already at head, no-op. Returns
    whether the list changed in a way that constitutes new information
    (insertion counts, promotion does not)." *)
Definition insertOrPromote (address : ip_addr) (ledger : list ip_addr)
  : bool * list ip_addr :=
  if contains address ledger then
    match ledger with
    | first :: _ =>
        if decide (address = first) then (false, ledger)
        else (false, address :: remove_first address ledger)
    | [] => (false, ledger)
    end
  else (true, address :: ledger).

Section Ledger.
Context `{Externals}.

(** The address that a cache record stands for at [now]: none when the
    record has expired or its address is not well formed. *)
Definition live_address (now : Z) (record : Dns.DNSAddress) : option ip_addr :=
  if is_expired (Dns.Address record) now then None
  else match _cached_ip_addresses (Dns.address record) with
       | Return ip_addr => Some ip_addr
       | Raise _ => None
       end.

(** "reload ... wholesale from the external cache": the addresses of the
    records that the cache holds for the host and the record type, those
    that are live at [now], the last cached first. *)
Definition cached_ledger (zc : Zeroconf) (now : Z) (host_key : string) (type_ : Z)
  : list ip_addr :=
  rev (omap (live_address now)
         (Dns.get_all_by_details (cache zc) host_key type_ _CLASS_IN)).

(** The IPv4 ledger that the insertion of lines 441-449 works on. *)
Definition ipv4_ledger_before_insert (zc : Zeroconf) (now : Z) (self : ServiceInfo)
  : list ip_addr :=
  match _ipv4_addresses self, server_key self with
  | _ :: _, Some host_key => cached_ledger zc now host_key _TYPE_A
  | _ :: _, None => []
  | [], _ => []
  end.

(** The IPv6 ledger that the insertion of lines 454-462 works on. *)
Definition ipv6_ledger_before_insert (zc : Zeroconf) (now : Z) (self : ServiceInfo)
  : list ip_addr :=
  match _ipv6_addresses self, server_key self with
  | [], Some host_key => cached_ledger zc now host_key _TYPE_AAAA
  | [], None => []
  | l, _ => l
  end.

End Ledger.

(** ** A reference instance of the other modules, and sample objects *)

Definition ascii_lower (c : Ascii.ascii) : Ascii.ascii :=
  let n := Ascii.nat_of_ascii c in
  if bool_decide (65 <= n <= 90)%nat then Ascii.ascii_of_nat (n + 32) else c.

Fixpoint lower (s : string) : string :=
  match s with
  | EmptyString => EmptyString
  | String c s' => String (ascii_lower c) (lower s')
  end.

(** Modelled from the spec: "Expired records
    (record.creation + ttl*1000 <= now ...)". *)
Definition expired (record : Dns.DNSRecord) (now : Z) : bool :=
  match Dns.created (Dns.hd record) with
  | Some created_ => bool_decide (created_ + Dns.ttl (Dns.hd record) * 1000 <= now)
  | None => false
  end.

(** Modelled from the spec: "the name-syntax validator used to split a
    fully-qualified service instance name into subtype/service/domain
    components", reduced to dropping the instance label. *)
Fixpoint after_first_dot (s : string) : outcome string :=
  match s with
  | EmptyString => Raise BadTypeInNameException
  | String c s' => if decide (c = "."%char) then Return s' else after_first_dot s'
  end.

(** The samples give their addresses packed, so [_encode_address] is
    never reached. *)
#[local] Instance reference_externals : Externals := {|
  str_lower := lower;
  is_expired := expired;
  service_type_name := fun name _ => after_first_dot name;
  _encode_address := fun _ => Raise OSError;
|}.

Definition b (s : string) : bytes := list_byte_of_string s.

Definition empty_cache : Dns.DNSCache :=
  {| Dns.get_by_details := fun _ _ _ => None;
     Dns.get_all_by_details := fun _ _ _ => [] |}.

Definition zc_empty : Zeroconf := {| cache := empty_cache; started := true |}.

(** A resolver for ["Printer._http._tcp.local."] on host
    ["host-a.local."], with nothing learned yet. *)
Definition printer : ServiceInfo :=
  {| text := Some []; type := "_http._tcp.local.";
     _name := "Printer._http._tcp.local."; key := "printer._http._tcp.local.";
     _ipv4_addresses := []; _ipv6_addresses := [];
     port := None; weight := 0; priority := 0;
     server := Some "host-a.local."; server_key := Some "host-a.local.";
     _properties := None; host_ttl := _DNS_HOST_TTL; other_ttl := _DNS_OTHER_TTL;
     interface_index := None; _new_records_futures := [] |}.

Definition ip1 : ip_addr := IPv4Address (b "abcd").
Definition ip2 : ip_addr := IPv4Address (b "efgh").
Definition ip6 : ip_addr := IPv6Address (b "0123456789abcdef").
Definition ip6_other : ip_addr := IPv6Address (b "fedcba9876543210").

Definition host_a_header (type_ : Z) : Dns.header :=
  {| Dns.name := "host-a.local."; Dns.key := "host-a.local."; Dns.type := type_;
     Dns.class_ := _CLASS_IN; Dns.ttl := 120; Dns.created := Some 0 |}.

Definition a_record (address : bytes) : Dns.DNSAddress :=
  {| Dns.address_hd := host_a_header _TYPE_A; Dns.address := address |}.

Definition aaaa_record (address : bytes) : Dns.DNSAddress :=
  {| Dns.address_hd := host_a_header _TYPE_AAAA; Dns.address := address |}.

Definition printer_header (type_ : Z) : Dns.header :=
  {| Dns.name := "Printer._http._tcp.local."; Dns.key := "printer._http._tcp.local.";
     Dns.type := type_; Dns.class_ := _CLASS_IN; Dns.ttl := 4500; Dns.created := Some 0 |}.

(** A cache that holds one A record ([ip2]) and one AAAA record ([ip6])
    for ["host-a.local."]. *)
Definition host_a_cache : Dns.DNSCache :=
  {| Dns.get_by_details := fun _ _ _ => None;
     Dns.get_all_by_details := fun name type_ class_ =>
       if bool_decide (name = "host-a.local."%string) then
         if bool_decide (type_ = _TYPE_A) then [a_record (packed ip2)]
         else if bool_decide (type_ = _TYPE_AAAA) then [aaaa_record (packed ip6)]
         else []
       else [] |}.

Definition zc_host_a : Zeroconf := {| cache := host_a_cache; started := true |}.

Definition host_a_service : Dns.DNSRecord :=
  Dns.DNSService (printer_header _TYPE_SRV) 0 0 631 "Host-A.local." "host-a.local.".

Definition host_b_service : Dns.DNSRecord :=
  Dns.DNSService (printer_header _TYPE_SRV) 0 0 631 "Host-B.local." "host-b.local.".

(** The sample resolver while it believes the service to be on
    ["host-b.local."], with one address learned for that host. *)
Definition printer_at_host_b : ServiceInfo :=
  set__ipv4_addresses [ip1]
    (set_server_key (Some "host-b.local.") (set_server (Some "Host-B.local.") printer)).

(** The ledger of the family of [ip]. *)
Definition ledger_of (ip : ip_addr) (self : ServiceInfo) : list ip_addr :=
  if is_IPv4Address ip then _ipv4_addresses self else _ipv6_addresses self.

(** A resolver built with the same IPv6 address given twice. *)
Definition printer_with_duplicate : ServiceInfo :=
  set__ipv6_addresses [ip6; ip6] printer.

(** The sample resolver before it knows its host. *)
Definition printer_without_server : ServiceInfo :=
  set_server_key None (set_server None printer).

(** The sample resolver once resolved: same name, other data. *)
Definition printer_resolved : ServiceInfo :=
  set_port (Some 631) (set_text (Some (b "a=1")) (set__ipv4_addresses [ip1] printer)).

(** The record kind that [dns_addresses] gives an address. *)
Definition address_record_type (ip_addr : ip_addr) : Z :=
  if is_IPv6Address ip_addr then _TYPE_AAAA else _TYPE_A.

(** The record kinds that no address of the object has. *)
Definition absent_kinds (self : ServiceInfo) : list Z :=
  filter (fun t =>
            t ∉ map address_record_type (_ipv4_addresses self ++ _ipv6_addresses self))
         _ADDRESS_RECORD_TYPES.

(** ** The TXT wire format *)

(** The length byte of an entry of at most 255 bytes. *)
Definition length_byte (item : bytes) : byte :=
  default "000"%byte (Byte.of_nat (length item)).

(** "sequence of (1-byte length, length bytes payload)" *)
Fixpoint wire (items : list bytes) : bytes :=
  match items with
  | [] => []
  | item :: rest => length_byte item :: item ++ wire rest
  end.

(** An entry of a well-formed attribute mapping: the key is bytes
    without [=], the value is absent or non-empty bytes, and the
    encoded entry has at most 255 bytes. *)
Definition well_formed_entry (kv : pyval * option pyval) : Prop :=
  (exists key_,
     kv.1 = PyBytes key_ /\ (EQUALS ∉ key_) /\
     (kv.2 = None \/ exists value_, kv.2 = Some (PyBytes value_) /\ value_ <> [])) /\
  (length (property_record kv) <= 255)%nat.

(** The sample TXT payload: [a=1], [b=2], then [a=9] again. *)
Definition sample_txt : bytes :=
  wire [b "a=1"; b "b=2"; b "a=9"].

Definition sample_properties : properties_dict :=
  [(PyBytes (b "a"), Some (PyBytes (b "1"))); (PyBytes (b "flag"), None)].

(** ** Observing the queries of a resolution attempt *)

(** The unicast bits of the questions of each query sent, in order. *)
Definition sent_unicast_flags (events : list event) : list (list bool) :=
  omap (fun e =>
          match e with
          | AsyncSend out _ _ => Some (map Dns.unicast (Dns.questions out))
          | _ => None
          end) events.

(** A wake-up on which nothing arrived: the wait timed out at [clock]. *)
Definition quiet_wakeup (clock_ : Z) : wakeup :=
  {| running_loop := true; jitter := 50; updates := []; zc_after := zc_empty;
     clock := clock_ |}.

(** A wake-up for which no running loop is found. *)
Definition no_loop_wakeup : wakeup :=
  {| running_loop := false; jitter := 50; updates := []; zc_after := zc_empty;
     clock := 1250 |}.

(** Three queries go out at 1000, 1250 and 1700 ms when nothing answers:
    the delay starts at [_LISTENER_TIME] and doubles, the jitter is 50. *)
Definition silent_network : list wakeup := [quiet_wakeup 1250; quiet_wakeup 1700].

(** Every question of every query sent asks for a multicast reply. *)
Definition multicast_only (events : list event) : Prop :=
  Forall (Forall (fun unicast_ => unicast_ = false)) (sent_unicast_flags events).

(** A method that sends no query. *)
Definition sends_nothing {A} (m : M A) : Prop :=
  forall self, sent_unicast_flags (events_of (m self)) = [].

(** A method that sends multicast queries only. *)
Definition sends_multicast_only {A} (m : M A) : Prop :=
  forall self, multicast_only (events_of (m self)).

(** The queries of an attempt, as the loop of [async_request] types
    them: the first one asks for the caller's reply mode, unicast when
    the caller gave none; every later one asks for multicast replies. *)
Definition first_query_then_multicast (question_type : option Dns.DNSQuestionType)
    (flags : list (list bool)) : Prop :=
  match flags with
  | [] => True
  | first :: retransmissions =>
      Forall (fun unicast_ =>
                unicast_ = bool_decide (default Dns.QU question_type = Dns.QU)) first /\
      Forall (Forall (fun unicast_ => unicast_ = false)) retransmissions
  end.

(** ** Address accessors *)

(** [addresses_by_version]: the packed addresses, IPv4 before IPv6. *)
Definition addresses_by_version (version_ : IPVersion) : M (list bytes) :=
  match version_ with
  | All =>
      v4 <- read _ipv4_addresses ;;
      v6 <- read _ipv6_addresses ;;
      ret (map packed v4 ++ map packed v6)
  | V4Only =>
      v4 <- read _ipv4_addresses ;;
      ret (map packed v4)
  | V6Only =>
      v6 <- read _ipv6_addresses ;;
      ret (map packed v6)
  end.

(** The [addresses] getter: IPv4 only. *)
Definition addresses : M (list bytes) := addresses_by_version V4Only.

(** [ip_addresses_by_version] *)
Definition ip_addresses_by_version (version_ : IPVersion) : M (list ip_addr) :=
  _ip_addresses_by_version_value version_.

(** The packed addresses of a list that [ip_address] reads as IPv4,
    and those it reads as IPv6, in the order of the list. *)
Definition ipv4_of (value : list bytes) : list bytes :=
  filter (fun address => length address = 4%nat) value.

Definition ipv6_of (value : list bytes) : list bytes :=
  filter (fun address => length address = 16%nat) value.

(** ** What a method may do *)

(** A method that returns on every object. *)
Definition never_raises {A} (m : M A) : Prop :=
  forall self, exists a, result_of (m self) = Return a.

(** A method that keeps a property of the object, however it ends. *)
Definition keeps {A} (I : ServiceInfo -> Prop) (m : M A) : Prop :=
  forall self, I self -> I (object_of (m self)).

(** A method that raises nothing but exceptions that satisfy [P]. *)
Definition raises_only {A} (P : exn -> Prop) (m : M A) : Prop :=
  forall self e, result_of (m self) = Raise e -> P e.

(** A method all of whose collaborator calls satisfy [P]. *)
Definition emits_only {A} (P : event -> Prop) (m : M A) : Prop :=
  forall self, Forall P (events_of (m self)).

(** A method whose value, when it returns, satisfies [Q] together with
    the object it leaves. *)
Definition ensures {A} (Q : A -> ServiceInfo -> Prop) (m : M A) : Prop :=
  forall self a self1 ev, m self = (Return a, self1, ev) -> Q a self1.

(** The slots that no record, cache load or update batch assigns. *)
Definition configuration (self : ServiceInfo) : string * Z * Z * option Z :=
  (type self, host_ttl self, other_ttl self, interface_index self).

(** [key] and [server_key] are the lowercased [name] and [server]. *)
Definition keys_in_sync `{Externals} (self : ServiceInfo) : Prop :=
  key self = str_lower (_name self) /\
  server_key self = option_map str_lower (server self).

(** A record as its constructor builds it: [key] is the lowercased
    name, and the [server_key] of a service record the lowercased
    server. *)
Definition record_keys_in_sync `{Externals} (record : Dns.DNSRecord) : Prop :=
  Dns.key (Dns.hd record) = str_lower (Dns.name (Dns.hd record)) /\
  match record with
  | Dns.DNSService _ _ _ _ server_ server_key_ => server_key_ = str_lower server_
  | _ => True
  end.

(** The events that concern the listener registration. *)
Definition is_listener_event (e : event) : bool :=
  match e with
  | AsyncAddListener | AsyncRemoveListener => true
  | _ => false
  end.

Definition listener_events (events : list event) : list event :=
  List.filter is_listener_event events.

(** A notification of the waiters. *)
Definition is_notification (e : event) : Prop :=
  match e with ResolveAllFuturesToNone _ => True | _ => False end.

(** A read of the cache or a line of the log. *)
Definition is_cache_read_or_log (e : event) : Prop :=
  match e with
  | CacheGetByDetails _ _ _ | CacheGetAllByDetails _ _ _ | LogWarning _ => True
  | _ => False
  end.

(** ** The TXT codec on any mapping *)

(** The bytes that [_set_properties] writes for a key or a value. *)
Definition as_bytes (v : pyval) : bytes :=
  match v with PyStr s => encode_utf8 s | PyBytes b => b end.

(** What an entry of a mapping reads back as: bytes for the key, bytes
    for a non-empty value, [None] for an empty or absent one. *)
Definition decoded_entry (kv : pyval * option pyval) : pyval * option pyval :=
  (PyBytes (as_bytes kv.1),
   match kv.2 with
   | Some v => if truthy (as_bytes v) then Some (PyBytes (as_bytes v)) else None
   | None => None
   end).

(** The mapping that a text decodes to. *)
Definition decoded (text_ : bytes) : properties_dict :=
  dict_of_items (rev (map property_item (unpack_loop text_ 0 []))).

(** ** More sample objects *)

(** A mapping with a text key, a text value and an empty value. *)
Definition mixed_properties : properties_dict :=
  [(PyStr "path", Some (PyStr "/")); (PyBytes (b "empty"), Some (PyBytes []))].

(** A mapping with an entry of 256 bytes. *)
Definition oversize_properties : properties_dict :=
  [(PyBytes (repeat "k"%byte 256), None)].

(** A TXT record for the sample resolver. *)
Definition printer_text (text_ : bytes) : Dns.DNSRecord :=
  Dns.DNSText (printer_header _TYPE_TXT) text_.

(** An address record for the sample host that expired long ago. *)
Definition stale_a_record : Dns.DNSAddress :=
  {| Dns.address_hd :=
       {| Dns.name := "host-a.local."; Dns.key := "host-a.local."; Dns.type := _TYPE_A;
          Dns.class_ := _CLASS_IN; Dns.ttl := 1; Dns.created := Some 0 |};
     Dns.address := packed ip1 |}.

(** A cache that holds a stale and a fresh A record for the sample host. *)
Definition mixed_cache : Dns.DNSCache :=
  {| Dns.get_by_details := fun _ _ _ => None;
     Dns.get_all_by_details := fun name type_ class_ =>
       if bool_decide (name = "host-a.local."%string) && bool_decide (type_ = _TYPE_A)
       then [stale_a_record; a_record (packed ip2)]
       else [] |}.

Definition zc_mixed : Zeroconf := {| cache := mixed_cache; started := true |}.

(** The sample resolver with one waiter registered. *)
Definition printer_waiting : ServiceInfo := set__new_records_futures [0%nat] printer.

(** * Properties *)

(** ** Attribute assignment *)

Lemma set__ipv4_addresses_same (s : ServiceInfo) :
  set__ipv4_addresses (_ipv4_addresses s) s = s.
Proof. by destruct s. Qed.

Lemma set__ipv6_addresses_same (s : ServiceInfo) :
  set__ipv6_addresses (_ipv6_addresses s) s = s.
Proof. by destruct s. Qed.

(** ** Running a method step by step *)

Section MonadLaws.
Context {A B : Type}.

Lemma bind_ret (a : A) (k : A -> M B) (s : ServiceInfo) :
  bind (ret a) k s = k a s.
Proof. unfold bind, ret. by destruct (k a s) as [[? ?] ?]. Qed.

Lemma bind_read (f : ServiceInfo -> A) (k : A -> M B) (s : ServiceInfo) :
  bind (read f) k s = k (f s) s.
Proof. unfold bind, read. by destruct (k (f s) s) as [[? ?] ?]. Qed.

Lemma bind_modify (f : ServiceInfo -> ServiceInfo) (k : unit -> M B) (s : ServiceInfo) :
  bind (modify f) k s = k tt (f s).
Proof. unfold bind, modify. by destruct (k tt (f s)) as [[? ?] ?]. Qed.

Lemma bind_emit (e : event) (k : unit -> M B) (s : ServiceInfo) :
  bind (emit e) k s = (result_of (k tt s), object_of (k tt s), e :: events_of (k tt s)).
Proof. unfold bind, emit. by destruct (k tt s) as [[? ?] ?]. Qed.

Lemma bind_lift_Return (a : A) (k : A -> M B) (s : ServiceInfo) :
  bind (lift (Return a)) k s = k a s.
Proof. unfold bind, lift. by destruct (k a s) as [[? ?] ?]. Qed.

Lemma bind_lift_Raise (e : exn) (k : A -> M B) (s : ServiceInfo) :
  bind (lift (Raise e)) k s = (Raise e, s, []).
Proof. reflexivity. Qed.

Lemma bind_raise (e : exn) (k : A -> M B) (s : ServiceInfo) :
  bind (raise e) k s = (Raise e, s, []).
Proof. reflexivity. Qed.

Lemma bind_run (m : M A) (k : A -> M B) (s s1 : ServiceInfo) (a : A) (ev : list event) :
  m s = (Return a, s1, ev) ->
  bind m k s = (result_of (k a s1), object_of (k a s1), ev ++ events_of (k a s1)).
Proof. intros Hm. unfold bind. rewrite Hm. by destruct (k a s1) as [[? ?] ?]. Qed.

Lemma bind_run_pure (m : M A) (k : A -> M B) (s s1 : ServiceInfo) (a : A) :
  m s = (Return a, s1, []) ->
  bind m k s = k a s1.
Proof. intros Hm. unfold bind. rewrite Hm. by destruct (k a s1) as [[? ?] ?]. Qed.

Lemma bind_run_Raise (m : M A) (k : A -> M B) (s s1 : ServiceInfo) (e : exn) (ev : list event) :
  m s = (Raise e, s1, ev) ->
  bind m k s = (Raise e, s1, ev).
Proof. intros Hm. unfold bind. by rewrite Hm. Qed.

End MonadLaws.

Lemma bind_assoc {A B C} (m : M A) (k : A -> M B) (k' : B -> M C) (s : ServiceInfo) :
  bind (bind m k) k' s = bind m (fun a => bind (k a) k') s.
Proof.
  unfold bind. destruct (m s) as [[[a|e] s1] ev1]; [|done].
  destruct (k a s1) as [[[b0|e] s2] ev2]; [|done].
  destruct (k' b0 s2) as [[r s3] ev3]. by rewrite app_assoc.
Qed.

Lemma run_eta {A} (r : outcome A * ServiceInfo * list event) :
  (result_of r, object_of r, events_of r) = r.
Proof. by destruct r as [[? ?] ?]. Qed.

Ltac mstep :=
  repeat first
    [ rewrite bind_ret | rewrite bind_read | rewrite bind_modify
    | rewrite bind_lift_Return | rewrite bind_lift_Raise | rewrite bind_raise
    | rewrite bind_assoc ];
  cbn beta iota.

(** ** The text record case *)

Section TextRecord.
Context `{Externals}.

Lemma _set_text_run (text_ : bytes) (s : ServiceInfo) :
  _set_text text_ s =
    (Return tt,
     if decide (Some text_ = text s) then s
     else set__properties None (set_text (Some text_) s),
     []).
Proof.
  unfold _set_text. mstep.
  destruct (decide (Some text_ = text s)); [done|]. by mstep.
Qed.

(** C1, as the code has it: a live TXT record for this service is
    always reported as new information ([True]), whether or not its
    bytes differ from the stored text. The stored text becomes the
    record's bytes; when they are identical the object is left as it
    was, otherwise the decoded-properties cache is cleared. No
    collaborator is called. *)
Theorem C1_text_record_reports_true
    (zc : Zeroconf) (s : ServiceInfo) (h : Dns.header) (text_ : bytes) (now : Z) :
  is_expired (Dns.DNSText h text_) now = false ->
  Dns.key h = key s ->
  Dns.type h = _TYPE_TXT ->
  _process_record_threadsafe zc (Dns.DNSText h text_) now s =
    (Return true,
     if decide (Some text_ = text s) then s
     else set__properties None (set_text (Some text_) s),
     []).
Proof.
  intros Hlive Hkey Htype.
  unfold _process_record_threadsafe. rewrite Hlive. mstep.
  unfold process_keyed_record. mstep. cbn [Dns.hd].
  destruct (decide (Dns.key h <> key s)) as [Hne|_]; [by destruct Hne|].
  destruct (decide (Dns.type h = _TYPE_TXT)) as [_|Hne]; [|by destruct Hne].
  by rewrite (bind_run_pure _ _ _ _ _ (_set_text_run text_ s)).
Qed.

End TextRecord.

(** C1 witness: a TXT record with new bytes for the sample resolver. *)
Lemma C1_text_record_reports_true_witness :
  _process_record_threadsafe zc_empty
    (Dns.DNSText (printer_header _TYPE_TXT) (b "a=1")) 5 printer =
    (Return true, set__properties None (set_text (Some (b "a=1")) printer), []).
Proof.
  exact (C1_text_record_reports_true zc_empty printer (printer_header _TYPE_TXT)
           (b "a=1") 5 eq_refl eq_refl eq_refl).
Defined.

(** C1 counterexample: the record carries exactly the stored bytes, it
    is live and keyed for this service, and the call does not return
    [False]. *)
Lemma C1_identical_text_not_false :
  let record := Dns.DNSText (printer_header _TYPE_TXT) [] in
  is_expired record 5 = false /\
  Dns.key (Dns.hd record) = key printer /\
  text printer = Some [] /\
  result_of (_process_record_threadsafe zc_empty record 5 printer) <> Return false.
Proof. repeat split; try reflexivity. vm_compute. discriminate. Qed.

(** ** Reloading a ledger from the cache *)

Section CacheReload.
Context `{Externals}.

(** An address is in a reloaded ledger exactly when a live cached
    record of the host carries it. *)
Lemma cached_ledger_elem_of
    (zc : Zeroconf) (now : Z) (host_key : string) (type_ : Z) (ip : ip_addr) :
  ip ∈ cached_ledger zc now host_key type_ <->
  exists record : Dns.DNSAddress,
    record ∈ Dns.get_all_by_details (cache zc) host_key type_ _CLASS_IN /\
    is_expired (Dns.Address record) now = false /\
    _cached_ip_addresses (Dns.address record) = Return ip.
Proof.
  unfold cached_ledger.
  rewrite list_elem_of_In, <- in_rev, <- list_elem_of_In, list_elem_of_omap.
  unfold live_address.
  split; intros (record & Hin & Hlive); exists record; (split; [done|]).
  - destruct (is_expired (Dns.Address record) now); [done|].
    destruct (_cached_ip_addresses (Dns.address record)); [|done].
    split; [done|]. congruence.
  - destruct Hlive as [-> ->]. done.
Qed.

(** The loop of [_get_ip_addresses_from_cache_lifo] collects the live
    addresses of the records, in the order of the records. *)
Lemma append_cached_addresses (now : Z) (records : list Dns.DNSAddress) :
  forall address_list : list ip_addr,
    foldl (append_cached_address now) address_list records =
    address_list ++ omap (live_address now) records.
Proof.
  induction records as [|record records IH]; intros address_list; cbn [foldl].
  - by rewrite app_nil_r.
  - rewrite IH. unfold append_cached_address. simpl omap. unfold live_address at 2.
    destruct (is_expired (Dns.Address record) now); [done|].
    destruct (_cached_ip_addresses (Dns.address record)); [|done].
    by rewrite <- app_assoc.
Qed.

Lemma _get_ip_addresses_from_cache_lifo_run
    (zc : Zeroconf) (now type_ : Z) (s : ServiceInfo) (host_key : string) :
  server_key s = Some host_key ->
  _get_ip_addresses_from_cache_lifo zc now type_ s =
    (Return (cached_ledger zc now host_key type_), s,
     [CacheGetAllByDetails host_key type_ _CLASS_IN]).
Proof.
  intros Hkey. unfold _get_ip_addresses_from_cache_lifo,
    _get_address_records_from_cache_by_type.
  mstep. rewrite Hkey. rewrite bind_assoc, bind_emit. mstep.
  unfold cached_ledger. by rewrite append_cached_addresses.
Qed.

Lemma _set_ipv4_addresses_from_cache_run
    (zc : Zeroconf) (now : Z) (s : ServiceInfo) (host_key : string) :
  server_key s = Some host_key ->
  _set_ipv4_addresses_from_cache zc now s =
    (Return tt, set__ipv4_addresses (cached_ledger zc now host_key _TYPE_A) s,
     [CacheGetAllByDetails host_key _TYPE_A _CLASS_IN]).
Proof.
  intros Hkey. unfold _set_ipv4_addresses_from_cache.
  by rewrite (bind_run _ _ _ _ _ _ (_get_ip_addresses_from_cache_lifo_run _ _ _ _ _ Hkey)).
Qed.

Lemma _set_ipv6_addresses_from_cache_run
    (zc : Zeroconf) (now : Z) (s : ServiceInfo) (host_key : string) :
  server_key s = Some host_key ->
  _set_ipv6_addresses_from_cache zc now s =
    (Return tt, set__ipv6_addresses (cached_ledger zc now host_key _TYPE_AAAA) s,
     [CacheGetAllByDetails host_key _TYPE_AAAA _CLASS_IN]).
Proof.
  intros Hkey. unfold _set_ipv6_addresses_from_cache.
  by rewrite (bind_run _ _ _ _ _ _ (_get_ip_addresses_from_cache_lifo_run _ _ _ _ _ Hkey)).
Qed.

End CacheReload.

(** ** The service record case *)

Section ServiceRecord.
Context `{Externals}.

(** C6: a live SRV record for this service is adopted field by field
    ([name] and with it [key], [server], [server_key], [port], [weight],
    [priority]) and the call returns [True]. When the server key
    changed, both ledgers are replaced by what the cache holds for the
    new host (two cache reads, A then AAAA): each ledger is the list of
    the addresses of the cached records of its type that are live, the
    last cached first, so an address is in a ledger exactly when a live
    cached record of the new host carries it and nothing learned for
    the old host survives. When the server key did not change, the
    ledgers are kept and the cache is not read. Text and decoded
    properties are untouched. *)
Theorem C6_service_record_adopted
    (zc : Zeroconf) (s : ServiceInfo) (h : Dns.header)
    (priority_ weight_ port_ : Z) (server_ server_key_ : string) (now : Z) :
  let record := Dns.DNSService h priority_ weight_ port_ server_ server_key_ in
  is_expired record now = false ->
  Dns.key h = key s ->
  Dns.type h = _TYPE_SRV ->
  let r := _process_record_threadsafe zc record now s in
  let s' := object_of r in
  result_of r = Return true /\
  _name s' = Dns.name h /\
  key s' = str_lower (Dns.name h) /\
  server s' = Some server_ /\
  server_key s' = Some server_key_ /\
  port s' = Some port_ /\
  weight s' = weight_ /\
  priority s' = priority_ /\
  text s' = text s /\
  _properties s' = _properties s /\
  (server_key s <> Some server_key_ ->
     _ipv4_addresses s' =
       rev (omap (live_address now)
              (Dns.get_all_by_details (cache zc) server_key_ _TYPE_A _CLASS_IN)) /\
     _ipv6_addresses s' =
       rev (omap (live_address now)
              (Dns.get_all_by_details (cache zc) server_key_ _TYPE_AAAA _CLASS_IN)) /\
     (forall ip : ip_addr,
        ip ∈ _ipv4_addresses s' ++ _ipv6_addresses s' <->
        exists record : Dns.DNSAddress,
          (record ∈ Dns.get_all_by_details (cache zc) server_key_ _TYPE_A _CLASS_IN \/
           record ∈ Dns.get_all_by_details (cache zc) server_key_ _TYPE_AAAA _CLASS_IN) /\
          is_expired (Dns.Address record) now = false /\
          _cached_ip_addresses (Dns.address record) = Return ip) /\
     events_of r = [CacheGetAllByDetails server_key_ _TYPE_A _CLASS_IN;
                    CacheGetAllByDetails server_key_ _TYPE_AAAA _CLASS_IN]) /\
  (server_key s = Some server_key_ ->
     _ipv4_addresses s' = _ipv4_addresses s /\
     _ipv6_addresses s' = _ipv6_addresses s /\
     events_of r = []).
Proof.
  intros record Hlive Hkey Htype r s'. subst r s' record.
  unfold _process_record_threadsafe. rewrite Hlive. mstep.
  unfold process_keyed_record. mstep. cbn [Dns.hd].
  destruct (decide (Dns.key h <> key s)) as [Hne|_]; [by destruct Hne|].
  destruct (decide (Dns.type h = _TYPE_SRV)) as [_|Hne]; [|by destruct Hne].
  unfold set_name. mstep. cbn [server_key set_priority set_weight set_port set_server_key].
  unfold when. case_bool_decide as Hchanged.
  - rewrite bind_assoc.
    erewrite bind_run by (apply _set_ipv4_addresses_from_cache_run; reflexivity).
    cbn [result_of object_of events_of fst snd].
    erewrite bind_run by (apply _set_ipv6_addresses_from_cache_run; reflexivity).
    mstep. cbn.
    repeat split; try done.
    + intros Hin. apply elem_of_app in Hin as [Hin|Hin];
        apply cached_ledger_elem_of in Hin as (record & Hrecord & Hlive' & Hip);
        exists record; (split; [|done]); [by left|by right].
    + intros (record & [Hrecord|Hrecord] & Hlive' & Hip); apply elem_of_app;
        [left|right]; apply cached_ledger_elem_of; by exists record.
  - mstep. cbn. repeat split; try done; intros Hsame; congruence.
Qed.

End ServiceRecord.

(** C6 witness: the sample resolver believes the service to be on
    host-b, for which it has learned [ip1], and is told that it is on
    host-a, for which the cache holds [ip2] and [ip6]. *)
Lemma C6_service_record_adopted_witness :
  let r := _process_record_threadsafe zc_host_a host_a_service 5 printer_at_host_b in
  result_of r = Return true /\
  server_key (object_of r) = Some "host-a.local."%string /\
  _ipv4_addresses (object_of r) = [ip2] /\
  _ipv6_addresses (object_of r) = [ip6].
Proof.
  destruct (@C6_service_record_adopted reference_externals zc_host_a printer_at_host_b (printer_header _TYPE_SRV)
              0 0 631 "Host-A.local." "host-a.local." 5 eq_refl eq_refl eq_refl)
    as (Hresult & _ & _ & _ & Hkey & _ & _ & _ & _ & _ & Hchanged & _).
  destruct Hchanged as (H4 & H6 & _); [discriminate|].
  intros r. split; [exact Hresult|]. split; [exact Hkey|]. split; [exact H4|exact H6].
Defined.

(** ** The address ledger *)

Section LedgerLists.
Context `{EqDecision A}.
Implicit Types (x y : A) (l : list A).

Lemma contains_true x l : contains x l = true <-> x ∈ l.
Proof. unfold contains. by rewrite bool_decide_eq_true. Qed.

Lemma contains_false x l : contains x l = false <-> x ∉ l.
Proof. unfold contains. by rewrite bool_decide_eq_false. Qed.

Lemma list_remove_present x l :
  x ∈ l -> list_remove x l = Return (remove_first x l).
Proof.
  induction l as [|y l IH]; intros Hin; [by apply elem_of_nil in Hin|].
  simpl. destruct (decide (x = y)) as [->|Hne]; [done|].
  apply elem_of_cons in Hin as [?|Hin]; [done|]. by rewrite IH.
Qed.

Lemma remove_first_perm x l : x ∈ l -> x :: remove_first x l ≡ₚ l.
Proof.
  induction l as [|y l IH]; intros Hin; [by apply elem_of_nil in Hin|].
  simpl. destruct (decide (x = y)) as [->|Hne]; [done|].
  apply elem_of_cons in Hin as [?|Hin]; [done|].
  rewrite Permutation_swap. by rewrite IH.
Qed.

Lemma remove_first_subseteq x y l : y ∈ remove_first x l -> y ∈ l.
Proof.
  induction l as [|z l IH]; [done|]. simpl.
  destruct (decide (x = z)) as [->|Hne]; intros Hin.
  - by apply list_elem_of_further.
  - apply elem_of_cons in Hin as [->|Hin]; [by left|].
    apply list_elem_of_further. by apply IH.
Qed.

Lemma remove_first_NoDup x l : NoDup l -> NoDup (x :: remove_first x l).
Proof.
  intros Hnd. destruct (decide (x ∈ l)) as [Hin|Hout].
  - by rewrite remove_first_perm.
  - apply NoDup_cons. split.
    + intros Hin. by apply remove_first_subseteq in Hin.
    + induction Hnd as [|y l Hy Hnd IH]; [constructor|]. simpl.
      destruct (decide (x = y)); [done|].
      apply NoDup_cons. split.
      * intros Hin. by apply remove_first_subseteq in Hin.
      * apply IH. intros Hin. apply Hout. by apply list_elem_of_further.
Qed.

End LedgerLists.

Lemma insertOrPromote_absent (address : ip_addr) (ledger : list ip_addr) :
  address ∉ ledger -> insertOrPromote address ledger = (true, address :: ledger).
Proof. intros Hout. unfold insertOrPromote. by rewrite (proj2 (contains_false _ _) Hout). Qed.

Lemma insertOrPromote_present (address : ip_addr) (ledger : list ip_addr) :
  address ∈ ledger ->
  (insertOrPromote address ledger).1 = false /\
  head (insertOrPromote address ledger).2 = Some address /\
  (insertOrPromote address ledger).2 ≡ₚ ledger.
Proof.
  intros Hin. unfold insertOrPromote. rewrite (proj2 (contains_true _ _) Hin).
  destruct ledger as [|first rest]; [by apply elem_of_nil in Hin|].
  destruct (decide (address = first)) as [->|Hne]; [done|].
  cbn [fst snd head]. repeat split. by apply remove_first_perm.
Qed.

Lemma insertOrPromote_NoDup (address : ip_addr) (ledger : list ip_addr) :
  NoDup ledger -> NoDup (insertOrPromote address ledger).2.
Proof.
  intros Hnd. unfold insertOrPromote.
  destruct (contains address ledger) eqn:Hc.
  - destruct ledger as [|first rest]; [done|].
    destruct (decide (address = first)); [done|]. by apply remove_first_NoDup.
  - apply contains_false in Hc. by apply NoDup_cons.
Qed.

Section LedgerCode.
Context `{Externals}.

(** Lines 441-449 do what [insertOrPromote] says, on the ledger that
    the refresh step left. *)
Lemma process_ipv4_address_run
    (zc : Zeroconf) (now : Z) (ip : ip_addr) (s : ServiceInfo) (host_key : string) :
  server_key s = Some host_key ->
  process_ipv4_address zc now ip s =
    (Return (insertOrPromote ip (ipv4_ledger_before_insert zc now s)).1,
     set__ipv4_addresses (insertOrPromote ip (ipv4_ledger_before_insert zc now s)).2 s,
     if truthy (_ipv4_addresses s)
     then [CacheGetAllByDetails host_key _TYPE_A _CLASS_IN] else []).
Proof.
  intros Hkey. unfold process_ipv4_address, ipv4_ledger_before_insert. mstep.
  rewrite Hkey.
  assert (Htail : forall s0 : ServiceInfo,
    (ipv4_addresses <- read _ipv4_addresses ;;
     if negb (contains ip ipv4_addresses) then
       modify (set__ipv4_addresses (ip :: ipv4_addresses)) ;;; ret true
     else
       first <- lift (index0 ipv4_addresses) ;;
       (if decide (ip <> first) then
          removed <- lift (list_remove ip ipv4_addresses) ;;
          modify (set__ipv4_addresses (ip :: removed))
        else ret tt) ;;; ret false) s0 =
    (Return (insertOrPromote ip (_ipv4_addresses s0)).1,
     set__ipv4_addresses (insertOrPromote ip (_ipv4_addresses s0)).2 s0, [])).
  { intros s0. mstep. set (mid := _ipv4_addresses s0).
    unfold insertOrPromote. destruct (contains ip mid) eqn:Hc; cbn [negb].
    - apply contains_true in Hc.
      destruct mid as [|first rest] eqn:Hmid; [by apply elem_of_nil in Hc|].
      cbn [index0]. mstep.
      destruct (decide (ip <> first)) as [Hne|Heq].
      + rewrite decide_False by done.
        rewrite (list_remove_present _ _ Hc). by mstep.
      + apply dec_stable in Heq. rewrite decide_True by done. mstep.
        subst mid. cbn [fst snd]. by rewrite <- Hmid, set__ipv4_addresses_same.
    - by mstep. }
  destruct (_ipv4_addresses s) as [|old olds] eqn:Hold; cbn [truthy]; unfold when; cbv iota.
  - rewrite bind_ret, Htail. rewrite Hold. by cbn.
  - erewrite bind_run by (by apply _set_ipv4_addresses_from_cache_run).
    rewrite Htail. by cbn.
Qed.

(** Lines 454-462, likewise for IPv6. *)
Lemma process_ipv6_address_run
    (zc : Zeroconf) (now : Z) (ip : ip_addr) (s : ServiceInfo) (host_key : string) :
  server_key s = Some host_key ->
  process_ipv6_address zc now ip s =
    (Return (insertOrPromote ip (ipv6_ledger_before_insert zc now s)).1,
     set__ipv6_addresses (insertOrPromote ip (ipv6_ledger_before_insert zc now s)).2 s,
     if truthy (_ipv6_addresses s)
     then [] else [CacheGetAllByDetails host_key _TYPE_AAAA _CLASS_IN]).
Proof.
  intros Hkey. unfold process_ipv6_address, ipv6_ledger_before_insert. mstep.
  rewrite Hkey.
  assert (Htail : forall s0 : ServiceInfo,
    (ipv6_addresses <- read _ipv6_addresses ;;
     if negb (contains ip ipv6_addresses) then
       modify (set__ipv6_addresses (ip :: ipv6_addresses)) ;;; ret true
     else
       first <- lift (index0 ipv6_addresses) ;;
       (if decide (ip <> first) then
          removed <- lift (list_remove ip ipv6_addresses) ;;
          modify (set__ipv6_addresses (ip :: removed))
        else ret tt) ;;; ret false) s0 =
    (Return (insertOrPromote ip (_ipv6_addresses s0)).1,
     set__ipv6_addresses (insertOrPromote ip (_ipv6_addresses s0)).2 s0, [])).
  { intros s0. mstep. set (mid := _ipv6_addresses s0).
    unfold insertOrPromote. destruct (contains ip mid) eqn:Hc; cbn [negb].
    - apply contains_true in Hc.
      destruct mid as [|first rest] eqn:Hmid; [by apply elem_of_nil in Hc|].
      cbn [index0]. mstep.
      destruct (decide (ip <> first)) as [Hne|Heq].
      + rewrite decide_False by done.
        rewrite (list_remove_present _ _ Hc). by mstep.
      + apply dec_stable in Heq. rewrite decide_True by done. mstep.
        subst mid. cbn [fst snd]. by rewrite <- Hmid, set__ipv6_addresses_same.
    - by mstep. }
  destruct (_ipv6_addresses s) as [|old olds] eqn:Hold; cbn [truthy negb]; unfold when; cbv iota.
  - erewrite bind_run by (by apply _set_ipv6_addresses_from_cache_run).
    rewrite Htail. by cbn.
  - rewrite bind_ret, Htail. rewrite Hold. by cbn.
Qed.

End LedgerCode.

(** ** The address record case *)

Section AddressRecord.
Context `{Externals}.

Lemma address_record_run
    (zc : Zeroconf) (s : ServiceInfo) (a : Dns.DNSAddress) (now : Z) (ip : ip_addr) :
  is_expired (Dns.Address a) now = false ->
  Some (Dns.key (Dns.address_hd a)) = server_key s ->
  _cached_ip_addresses (Dns.address a) = Return ip ->
  _process_record_threadsafe zc (Dns.Address a) now s =
    if is_IPv4Address ip then process_ipv4_address zc now ip s
    else process_ipv6_address zc now ip s.
Proof.
  intros Hlive Hkey Hip. unfold _process_record_threadsafe.
  rewrite Hlive. cbv zeta. mstep. cbn [Dns.hd].
  destruct (decide (Some (Dns.key (Dns.address_hd a)) = server_key s)) as [_|Hne];
    [|by destruct Hne].
  rewrite Hip. by destruct (is_IPv4Address ip).
Qed.

(** The IPv6 branch (lines 451-462) on every input: an empty in-memory
    ledger is first replaced by what the cache holds for the host (one
    cache read) and insert-or-promote then works on that; a non-empty
    ledger is not reloaded. *)
Lemma ipv6_refresh_before_insert
    (zc : Zeroconf) (s : ServiceInfo) (a : Dns.DNSAddress) (now : Z) (ip : ip_addr) :
  let host_key := Dns.key (Dns.address_hd a) in
  is_expired (Dns.Address a) now = false ->
  Some host_key = server_key s ->
  _cached_ip_addresses (Dns.address a) = Return ip ->
  is_IPv4Address ip = false ->
  let r := _process_record_threadsafe zc (Dns.Address a) now s in
  (_ipv6_addresses s = [] ->
     events_of r = [CacheGetAllByDetails host_key _TYPE_AAAA _CLASS_IN] /\
     result_of r = Return (insertOrPromote ip (cached_ledger zc now host_key _TYPE_AAAA)).1 /\
     _ipv6_addresses (object_of r) =
       (insertOrPromote ip (cached_ledger zc now host_key _TYPE_AAAA)).2) /\
  (_ipv6_addresses s <> [] ->
     events_of r = [] /\
     result_of r = Return (insertOrPromote ip (_ipv6_addresses s)).1 /\
     _ipv6_addresses (object_of r) = (insertOrPromote ip (_ipv6_addresses s)).2).
Proof.
  intros host_key Hlive Hkey Hip Hfam r. subst r.
  rewrite (address_record_run _ _ _ _ _ Hlive Hkey Hip), Hfam.
  symmetry in Hkey. rewrite (process_ipv6_address_run _ _ _ _ _ Hkey).
  unfold ipv6_ledger_before_insert. rewrite Hkey.
  split; intros Hl.
  - by rewrite Hl.
  - by destruct (_ipv6_addresses s).
Qed.

(** The ledger that insert-or-promote works on. For IPv6 it is the
    in-memory ledger, or the cache contents when that is empty; for
    IPv4 it is the in-memory ledger or the cache contents. *)
Lemma ledger_after_refresh
    (zc : Zeroconf) (s : ServiceInfo) (a : Dns.DNSAddress) (now : Z) (ip : ip_addr) :
  let host_key := Dns.key (Dns.address_hd a) in
  is_expired (Dns.Address a) now = false ->
  Some host_key = server_key s ->
  _cached_ip_addresses (Dns.address a) = Return ip ->
  let r := _process_record_threadsafe zc (Dns.Address a) now s in
  exists before : list ip_addr,
    result_of r = Return (insertOrPromote ip before).1 /\
    ledger_of ip (object_of r) = (insertOrPromote ip before).2 /\
    (is_IPv4Address ip = false ->
       before = match _ipv6_addresses s with
                | [] => cached_ledger zc now host_key _TYPE_AAAA
                | _ :: _ => _ipv6_addresses s
                end) /\
    (is_IPv4Address ip = true ->
       before = _ipv4_addresses s \/ before = cached_ledger zc now host_key _TYPE_A).
Proof.
  intros host_key Hlive Hkey Hip r. subst r.
  rewrite (address_record_run _ _ _ _ _ Hlive Hkey Hip).
  symmetry in Hkey. unfold ledger_of.
  destruct (is_IPv4Address ip).
  - rewrite (process_ipv4_address_run _ _ _ _ _ Hkey).
    exists (ipv4_ledger_before_insert zc now s).
    split; [done|]. split; [done|]. split; [done|]. intros _.
    unfold ipv4_ledger_before_insert. rewrite Hkey.
    destruct (_ipv4_addresses s); [by left|by right].
  - rewrite (process_ipv6_address_run _ _ _ _ _ Hkey).
    exists (ipv6_ledger_before_insert zc now s).
    split; [done|]. split; [done|]. split; [|done]. intros _.
    unfold ipv6_ledger_before_insert. rewrite Hkey.
    by destruct (_ipv6_addresses s).
Qed.

(** C7, as the code has it: insert-or-promote works on the ledger that
    the refresh step of the same call left. For an IPv6 address that is
    the in-memory ledger, or the cache contents when the in-memory
    ledger is empty; for an IPv4 address it is the in-memory ledger or
    the cache contents. An address absent from it goes to the head, the
    ledger grows by one and the call returns [True]; an address present
    in it ends at the head, the ledger keeps its length and its elements
    and the call returns [False]; a ledger without duplicates stays
    without duplicates. *)
Theorem C7_insert_or_promote
    (zc : Zeroconf) (s : ServiceInfo) (a : Dns.DNSAddress) (now : Z) (ip : ip_addr) :
  let host_key := Dns.key (Dns.address_hd a) in
  is_expired (Dns.Address a) now = false ->
  Some host_key = server_key s ->
  _cached_ip_addresses (Dns.address a) = Return ip ->
  let r := _process_record_threadsafe zc (Dns.Address a) now s in
  let after := ledger_of ip (object_of r) in
  exists before : list ip_addr,
    (is_IPv4Address ip = false ->
       before = match _ipv6_addresses s with
                | [] => cached_ledger zc now host_key _TYPE_AAAA
                | _ :: _ => _ipv6_addresses s
                end) /\
    (is_IPv4Address ip = true ->
       before = _ipv4_addresses s \/ before = cached_ledger zc now host_key _TYPE_A) /\
    (ip ∉ before ->
       after = ip :: before /\ length after = S (length before) /\
       result_of r = Return true) /\
    (ip ∈ before ->
       length after = length before /\ head after = Some ip /\ after ≡ₚ before /\
       result_of r = Return false) /\
    (NoDup before -> NoDup after).
Proof.
  intros host_key Hlive Hkey Hip r after.
  destruct (ledger_after_refresh zc s a now ip Hlive Hkey Hip)
    as (before & Hres & Hafter & H6 & H4).
  exists before. split; [exact H6|]. split; [exact H4|].
  subst r after. rewrite Hres, Hafter. clear.
  split; [|split].
  - intros Hout. by rewrite (insertOrPromote_absent _ _ Hout).
  - intros Hin. destruct (insertOrPromote_present _ _ Hin) as (-> & Hhead & Hperm).
    repeat split; [by apply Permutation_length|done|done].
  - apply insertOrPromote_NoDup.
Qed.

End AddressRecord.

(** C3: the rule "before the first insertion into an empty in-memory
    ledger, refresh it from the cache" evaluated on the IPv4 branch and
    on the IPv6 branch, each with an empty ledger, a live record for the
    host that carries a new address, and a cache that holds another
    address of that family for the host. The IPv6 branch reads the
    cache and leaves the new address before the cached one. The IPv4
    branch reads no cache and leaves the new address alone, where a
    refresh followed by insert-or-promote gives both. *)
Theorem C3_empty_ipv4_ledger_not_refreshed :
  let record := Dns.Address (a_record (packed ip1)) in
  let record6 := Dns.Address (aaaa_record (packed ip6_other)) in
  (is_expired record 5 = false /\
   Some (Dns.key (Dns.hd record)) = server_key printer /\
   _ipv4_addresses printer = [] /\
   cached_ledger zc_host_a 5 "host-a.local." _TYPE_A = [ip2] /\
   _process_record_threadsafe zc_host_a record 5 printer =
     (Return true, set__ipv4_addresses [ip1] printer, []) /\
   (insertOrPromote ip1 (cached_ledger zc_host_a 5 "host-a.local." _TYPE_A)).2 = [ip1; ip2]) /\
  (is_expired record6 5 = false /\
   Some (Dns.key (Dns.hd record6)) = server_key printer /\
   _ipv6_addresses printer = [] /\
   cached_ledger zc_host_a 5 "host-a.local." _TYPE_AAAA = [ip6] /\
   _process_record_threadsafe zc_host_a record6 5 printer =
     (Return true, set__ipv6_addresses [ip6_other; ip6] printer,
      [CacheGetAllByDetails "host-a.local." _TYPE_AAAA _CLASS_IN])).
Proof. repeat split; vm_compute; reflexivity. Qed.

(** C7 witness: a second address reaches the IPv6 ledger of a resolver
    that already holds one. *)
Lemma C7_insert_or_promote_witness :
  NoDup (ledger_of ip6
           (object_of (_process_record_threadsafe zc_empty
                         (Dns.Address (aaaa_record (packed ip6))) 5
                         (set__ipv6_addresses [ip6_other] printer)))).
Proof.
  destruct (@C7_insert_or_promote reference_externals zc_empty
              (set__ipv6_addresses [ip6_other] printer)
              (aaaa_record (packed ip6)) 5 ip6 eq_refl eq_refl eq_refl)
    as (before & H6 & _ & _ & _ & Hnd).
  apply Hnd. rewrite (H6 eq_refl). apply NoDup_singleton.
Defined.

(** C7 counterexample. First, an IPv6 address that the empty in-memory
    ledger does not hold but the cache does: the ledger is refreshed
    from the cache before the insertion, the address is found there,
    and the call does not return [True]. Second, a resolver built with
    one address given twice: the ledger holds it twice, and still does
    after another address has been inserted. *)
Lemma C7_cached_address_is_not_new :
  let record := Dns.Address (aaaa_record (packed ip6)) in
  let other := Dns.Address (aaaa_record (packed ip6_other)) in
  (is_expired record 5 = false /\
   Some (Dns.key (Dns.hd record)) = server_key printer /\
   (ip6 ∉ _ipv6_addresses printer) /\
   _process_record_threadsafe zc_host_a record 5 printer =
     (Return false, set__ipv6_addresses [ip6] printer,
      [CacheGetAllByDetails "host-a.local." _TYPE_AAAA _CLASS_IN])) /\
  (set_addresses [packed ip6; packed ip6] printer =
     (Return tt, printer_with_duplicate, []) /\
   _process_record_threadsafe zc_empty other 5 printer_with_duplicate =
     (Return true, set__ipv6_addresses [ip6_other; ip6; ip6] printer, []) /\
   ~ NoDup [ip6_other; ip6; ip6]).
Proof.
  split; [split; [|split; [|split]]|split; [|split]]; try (vm_compute; reflexivity).
  - intros Hin. by apply elem_of_nil in Hin.
  - intros Hnd. apply NoDup_cons in Hnd as [_ Hnd]. apply NoDup_cons in Hnd as [Hout _].
    apply Hout. by left.
Qed.

(** ** Completeness *)

Lemma _set_properties_run (d : properties_dict) (s : ServiceInfo) :
  _set_properties d s =
    match join_items (map property_record d) [] with
    | Return t => (Return tt, set_text (Some t) (set__properties (Some d) s), [])
    | Raise e => (Raise e, set__properties (Some d) s, [])
    end.
Proof.
  unfold _set_properties. mstep.
  destruct (join_items (map property_record d) []); by mstep.
Qed.

Ltac mstep_in H :=
  repeat first
    [ rewrite bind_ret in H | rewrite bind_read in H | rewrite bind_modify in H
    | rewrite bind_lift_Return in H | rewrite bind_lift_Raise in H
    | rewrite bind_raise in H | rewrite bind_assoc in H ];
  cbn beta iota in H.

Section Completeness.
Context `{Externals}.

Lemma _is_complete_run (s : ServiceInfo) :
  _is_complete s =
    (Return (bool_decide (text s <> None)
             && (truthy (_ipv4_addresses s) || truthy (_ipv6_addresses s))), s, []).
Proof. reflexivity. Qed.

Lemma truthy_true {A} (l : list A) : truthy l = true <-> l <> [].
Proof. by destruct l. Qed.

Lemma new_ServiceInfo_no_addresses
    (type_ name : string) (port_ : option Z) (weight_ priority_ : Z)
    (properties_ : bytes + properties_dict) (server_ : option string)
    (host_ttl_ other_ttl_ : Z) (addresses : option (list bytes))
    (parsed_addresses : option (list string)) (interface_index_ : option Z)
    (s : ServiceInfo) :
  addresses = None \/ addresses = Some [] ->
  parsed_addresses = None \/ parsed_addresses = Some [] ->
  new_ServiceInfo type_ name port_ weight_ priority_ properties_ server_
    host_ttl_ other_ttl_ addresses parsed_addresses interface_index_ = Return s ->
  text s <> None /\ _ipv4_addresses s = [] /\ _ipv6_addresses s = [].
Proof.
  intros Ha Hp Hnew. unfold new_ServiceInfo, __init__ in Hnew.
  destruct (bool_decide (addresses <> None) && bool_decide (parsed_addresses <> None));
    [discriminate|].
  destruct (service_type_name name false) as [suffix|e]; [|discriminate].
  mstep_in Hnew.
  destruct (negb (endswith type_ suffix)); [discriminate|].
  mstep_in Hnew.
  assert (Haddr : forall (k : unit -> M unit) (s0 : ServiceInfo),
    bind (match addresses, parsed_addresses with
          | Some addresses, _ => set_addresses addresses
          | None, Some parsed_addresses =>
              encoded <-
                (fix encode_all (l : list string) : M (list bytes) :=
                   match l with
                   | [] => ret []
                   | a :: l' =>
                       b <- lift (_encode_address a) ;;
                       bs <- encode_all l' ;;
                       ret (b :: bs)
                   end) parsed_addresses ;;
              set_addresses encoded
          | None, None => ret tt
          end) k s0 =
    k tt (match addresses, parsed_addresses with
          | None, None => s0
          | _, _ => set__ipv6_addresses [] (set__ipv4_addresses [] s0)
          end)).
  { intros k s0. destruct Ha as [-> | ->]; destruct Hp as [-> | ->];
      unfold set_addresses; repeat (progress (mstep; cbn [for_each])); done. }
  rewrite Haddr in Hnew. clear Haddr.
  set (s1 := match addresses, parsed_addresses with
             | None, None => _
             | _, _ => _
             end) in Hnew.
  assert (Hs1 : text s1 = Some [] /\ _ipv4_addresses s1 = [] /\ _ipv6_addresses s1 = []).
  { subst s1. by destruct Ha as [-> | ->]; destruct Hp as [-> | ->]. }
  clearbody s1. destruct Hs1 as (Ht & H4 & H6).
  mstep_in Hnew.
  destruct properties_ as [text_|dict_].
  - rewrite (bind_run_pure _ _ _ _ _ (_set_text_run text_ _)) in Hnew.
    mstep_in Hnew. unfold modify in Hnew. injection Hnew as <-.
    cbn. destruct (decide _); cbn; rewrite ?Ht, ?H4, ?H6; done.
  - unfold bind at 1 in Hnew. rewrite _set_properties_run in Hnew.
    destruct (join_items (map property_record dict_) []) as [t|e]; [|discriminate].
    mstep_in Hnew. unfold modify in Hnew. injection Hnew as <-.
    cbn. rewrite ?H4, ?H6; done.
Qed.

(** C8: [_is_complete] returns [True] exactly when the text is not
    [None] and one of the two ledgers is not empty, on every object.
    An object just built without addresses has a text and is not
    complete; an object with a text is complete as soon as a live,
    well-formed address record for its host has been applied. *)
Theorem C8_completeness :
  (forall s : ServiceInfo,
     exists v : bool,
       _is_complete s = (Return v, s, []) /\
       (v = true <->
        text s <> None /\ (_ipv4_addresses s <> [] \/ _ipv6_addresses s <> []))) /\
  (forall (type_ name : string) (port_ : option Z) (weight_ priority_ : Z)
          (properties_ : bytes + properties_dict) (server_ : option string)
          (host_ttl_ other_ttl_ : Z) (addresses : option (list bytes))
          (parsed_addresses : option (list string)) (interface_index_ : option Z)
          (s : ServiceInfo),
     addresses = None \/ addresses = Some [] ->
     parsed_addresses = None \/ parsed_addresses = Some [] ->
     new_ServiceInfo type_ name port_ weight_ priority_ properties_ server_
       host_ttl_ other_ttl_ addresses parsed_addresses interface_index_ = Return s ->
     text s <> None /\ result_of (_is_complete s) = Return false) /\
  (forall (zc : Zeroconf) (s : ServiceInfo) (a : Dns.DNSAddress) (now : Z) (ip : ip_addr),
     text s <> None ->
     is_expired (Dns.Address a) now = false ->
     Some (Dns.key (Dns.address_hd a)) = server_key s ->
     _cached_ip_addresses (Dns.address a) = Return ip ->
     result_of (_is_complete (object_of (_process_record_threadsafe zc (Dns.Address a) now s)))
       = Return true).
Proof.
  split; [|split].
  - intros s. eexists. split; [apply _is_complete_run|].
    rewrite andb_true_iff, orb_true_iff, bool_decide_eq_true, !truthy_true. done.
  - intros * Ha Hp Hnew.
    destruct (new_ServiceInfo_no_addresses _ _ _ _ _ _ _ _ _ _ _ _ _ Ha Hp Hnew)
      as (Ht & H4 & H6).
    split; [done|]. rewrite _is_complete_run, H4, H6. cbn.
    by rewrite andb_false_r.
  - intros zc s a now ip Ht Hlive Hkey Hip.
    rewrite (address_record_run _ _ _ _ _ Hlive Hkey Hip). symmetry in Hkey.
    rewrite _is_complete_run. cbn [result_of fst]. f_equal.
    destruct (is_IPv4Address ip).
    + rewrite (process_ipv4_address_run _ _ _ _ _ Hkey). cbn.
      rewrite bool_decide_eq_true_2 by done. cbn.
      unfold insertOrPromote.
      destruct (contains ip _) eqn:Hc; [|done].
      apply contains_true in Hc.
      destruct (ipv4_ledger_before_insert zc now s); [by apply elem_of_nil in Hc|].
      by destruct (decide _).
    + rewrite (process_ipv6_address_run _ _ _ _ _ Hkey). cbn.
      rewrite bool_decide_eq_true_2 by done. cbn.
      unfold insertOrPromote.
      destruct (contains ip _) eqn:Hc; [|by rewrite orb_true_r].
      apply contains_true in Hc.
      destruct (ipv6_ledger_before_insert zc now s); [by apply elem_of_nil in Hc|].
      rewrite orb_true_iff. right. by destruct (decide _).
Qed.

End Completeness.

(** C8 witness: the sample resolver is complete after its first address
    record. *)
Lemma C8_completeness_witness :
  result_of (_is_complete
               (object_of (_process_record_threadsafe zc_empty
                             (Dns.Address (a_record (packed ip1))) 5 printer)))
    = Return true.
Proof.
  apply (proj2 (proj2 C8_completeness) zc_empty printer (a_record (packed ip1)) 5 ip1);
    [discriminate | reflexivity | reflexivity | reflexivity].
Defined.

(** ** Record emitters *)

Section Emitters.
Context `{Externals}.

Lemma dns_addresses_run (override_ttl created : option Z) (s : ServiceInfo) :
  exists records,
    dns_addresses override_ttl All created s = (Return records, s, []) /\
    map (fun r => Dns.type (Dns.hd r)) records =
      map address_record_type (_ipv4_addresses s ++ _ipv6_addresses s).
Proof.
  unfold dns_addresses. eexists. split.
  - mstep. cbn [_ip_addresses_by_version_value]. mstep. reflexivity.
  - rewrite map_map. apply map_ext. intros ip. unfold address_record_type.
    by destruct (is_IPv6Address ip).
Qed.

Lemma missing_types_fold (records : list Dns.DNSRecord) (missing acc : list Z)
    (seen : list Dns.DNSRecord) :
  (foldl (fun '(missing_types, records) dns_address =>
            (discard (Dns.type (Dns.hd dns_address)) missing_types,
             set_add dns_address records))
     (missing, seen) records).1 =
  filter (fun t => t ∉ map (fun r => Dns.type (Dns.hd r)) records) missing.
Proof.
  revert missing seen. induction records as [|r records IH]; intros missing seen.
  - cbn. induction missing as [|t missing IHm]; [done|].
    rewrite filter_cons_True; [by rewrite <- IHm|]. apply not_elem_of_nil.
  - cbn [foldl]. rewrite IH. unfold discard. clear.
    induction missing as [|t missing IHm]; [done|].
    cbn [map]. destruct (decide (t = Dns.type (Dns.hd r))) as [->|Hne].
    + rewrite (filter_cons_False _ _ missing) by (intros Hn; by apply Hn).
      rewrite (filter_cons_False _ _ missing); [done|].
      intros Hn. apply Hn. by left.
    + rewrite (filter_cons_True (fun y => y <> _)) by done.
      destruct (decide (t ∈ map (fun r => Dns.type (Dns.hd r)) records)) as [Hin|Hout].
      * rewrite filter_cons_False by (intros Hn; by apply Hn).
        rewrite filter_cons_False; [done|].
        intros Hn. apply Hn. by right.
      * rewrite filter_cons_True by done.
        rewrite filter_cons_True; [by rewrite IHm|].
        intros Hin. apply elem_of_cons in Hin as [?|?]; done.
Qed.

Lemma get_address_and_nsec_records_run (override_ttl created : option Z) (s : ServiceInfo) :
  match absent_kinds s, server s with
  | _ :: _, None =>
      get_address_and_nsec_records override_ttl created s = (Raise AssertionError, s, [])
  | _, _ =>
      exists records,
        get_address_and_nsec_records override_ttl created s = (Return records, s, [])
  end.
Proof.
  unfold get_address_and_nsec_records.
  destruct (dns_addresses_run override_ttl created s) as (records & Hrun & Htypes).
  rewrite (bind_run_pure _ _ _ _ _ Hrun).
  pose proof (missing_types_fold records _ADDRESS_RECORD_TYPES [] []) as Hfold.
  destruct (foldl _ _ records) as [missing seen]. cbn [fst] in Hfold.
  rewrite Htypes in Hfold. unfold absent_kinds. rewrite <- Hfold. clear Hfold.
  destruct missing as [|t missing]; cbn [truthy].
  - destruct (server s); eexists; by mstep.
  - mstep. destruct (server s).
    + eexists. by mstep.
    + by mstep.
Qed.

(** C9, as the code has it. [dns_nsec] never fails: it names the record
    after the instance, not after the server, and returns it whether or
    not [server] is set. [get_address_and_nsec_records] fails, on its
    assertion, when [server] is [None] and some address kind has no
    address; it returns a set of records when [server] is set, and
    also when both kinds have an address. Neither touches the object or
    calls a collaborator. *)
Theorem C9_absent_types_record
    (s : ServiceInfo) (override_ttl created : option Z) :
  (forall missing_types : list Z,
     dns_nsec missing_types override_ttl created s =
       (Return (Dns.DNSNsec
                  (new_header (_name s) _TYPE_NSEC _CLASS_IN_UNIQUE
                     (ttl_or override_ttl (host_ttl s)) created)
                  (_name s) missing_types), s, [])) /\
  (server s = None -> absent_kinds s <> [] ->
     get_address_and_nsec_records override_ttl created s = (Raise AssertionError, s, [])) /\
  (server s <> None \/ absent_kinds s = [] ->
     exists records,
       get_address_and_nsec_records override_ttl created s = (Return records, s, [])).
Proof.
  split; [|split].
  - intros missing_types. unfold dns_nsec. by mstep.
  - intros Hsrv Habs.
    pose proof (get_address_and_nsec_records_run override_ttl created s) as Hrun.
    rewrite Hsrv in Hrun. by destruct (absent_kinds s).
  - intros Hor.
    pose proof (get_address_and_nsec_records_run override_ttl created s) as Hrun.
    destruct Hor as [Hsrv | Habs].
    + destruct (server s); [|done]. by destruct (absent_kinds s).
    + rewrite Habs in Hrun. by destruct (server s).
Qed.

End Emitters.

(** C9 witness: the full answer set of a resolver without a server and
    without addresses fails on the assertion. *)
Lemma C9_absent_types_record_witness :
  get_address_and_nsec_records None None printer_without_server =
    (Raise AssertionError, printer_without_server, []).
Proof.
  apply (proj1 (proj2 (C9_absent_types_record printer_without_server None None)));
    [reflexivity | vm_compute; discriminate].
Defined.

(** C9 counterexample: [server] is [None] and [dns_nsec] returns a
    record. *)
Lemma C9_dns_nsec_without_server :
  server printer_without_server = None /\
  result_of (dns_nsec [_TYPE_A; _TYPE_AAAA] None None printer_without_server) =
    Return (Dns.DNSNsec
              {| Dns.name := "Printer._http._tcp.local.";
                 Dns.key := "printer._http._tcp.local.";
                 Dns.type := _TYPE_NSEC; Dns.class_ := _CLASS_IN_UNIQUE;
                 Dns.ttl := _DNS_HOST_TTL; Dns.created := None |}
              "Printer._http._tcp.local." [_TYPE_A; _TYPE_AAAA]).
Proof. split; reflexivity. Qed.

(** ** Equality *)

(** C10: [a == other] is [True] exactly when [other] is a ServiceInfo
    with the name of [a]; the call changes nothing. Hence the answer
    depends on the two names only: objects with these names compare the
    same whatever their port, addresses, text, properties or server. *)
Theorem C10_eq_compares_names_only (a : ServiceInfo) (other : pyobject) :
  (exists v : bool,
     __eq__ other a = (Return v, a, []) /\
     (v = true <-> exists o, other = ObjServiceInfo o /\ _name o = _name a)) /\
  (forall a' o o' : ServiceInfo,
     other = ObjServiceInfo o -> _name a' = _name a -> _name o' = _name o ->
     result_of (__eq__ (ObjServiceInfo o') a') = result_of (__eq__ other a)).
Proof.
  split.
  - destruct other as [o| | | |]; cbn.
    2-5: (eexists; split; [reflexivity|]; split; [discriminate|]; by intros (? & ? & _)).
    eexists. split; [reflexivity|]. rewrite bool_decide_eq_true. split.
    + intros Hn. by exists o.
    + by intros (o' & [= <-] & Hn).
  - intros a' o o' -> Ha Ho. cbn. by rewrite Ha, Ho.
Qed.

(** C10 witness: the sample resolver equals its resolved self, which
    has another port, text and address list. *)
Lemma C10_eq_compares_names_only_witness :
  result_of (__eq__ (ObjServiceInfo printer_resolved) printer) =
  result_of (__eq__ (ObjServiceInfo printer) printer).
Proof.
  exact (proj2 (C10_eq_compares_names_only printer (ObjServiceInfo printer))
           printer printer printer_resolved eq_refl eq_refl eq_refl).
Defined.

(** ** The TXT codec *)

Section Dictionaries.
Context {K V : Type} `{EqDecision K}.
Implicit Types (k : K) (v : V) (d l : list (K * V)).

Lemma dict_get_set k k' v d :
  dict_get k (dict_set k' v d) = if decide (k = k') then Some v else dict_get k d.
Proof.
  induction d as [|[k0 v0] d IH]; simpl.
  - by destruct (decide (k = k')).
  - destruct (decide (k' = k0)) as [->|Hne]; simpl.
    + by destruct (decide (k = k0)).
    + destruct (decide (k = k0)) as [->|Hne'].
      * by rewrite decide_False by done.
      * done.
Qed.

(** Building a dictionary from the reversed items makes the first
    item of a key win. *)
Lemma dict_get_of_reversed_items k l :
  dict_get k (dict_of_items (rev l)) = dict_get k l.
Proof.
  unfold dict_of_items. induction l as [|[k0 v0] l IH]; [done|].
  simpl rev. rewrite foldl_app. simpl. by rewrite dict_get_set, IH.
Qed.

Lemma dict_get_first k v pre post :
  k ∉ map fst pre -> dict_get k (pre ++ (k, v) :: post) = Some v.
Proof.
  induction pre as [|[k0 v0] pre IH]; simpl; intros Hout.
  - by rewrite decide_True.
  - apply not_elem_of_cons in Hout as [Hne Hout]. simpl in Hne.
    rewrite decide_False by done. by apply IH.
Qed.

Lemma dict_set_fresh k v d : k ∉ map fst d -> dict_set k v d = d ++ [(k, v)].
Proof.
  induction d as [|[k0 v0] d IH]; simpl; intros Hout; [done|].
  apply not_elem_of_cons in Hout as [Hne Hout].
  rewrite decide_False by done. by rewrite IH.
Qed.

Lemma dict_of_items_NoDup l : NoDup (map fst l) -> dict_of_items l = l.
Proof.
  unfold dict_of_items. intros Hnd.
  enough (Hgen : forall acc, NoDup (map fst (acc ++ l)) ->
            foldl (fun d kv => dict_set kv.1 kv.2 d) acc l = acc ++ l)
    by exact (Hgen [] Hnd).
  clear Hnd. induction l as [|[k v] l IH]; intros acc Hnd; simpl.
  - by rewrite app_nil_r.
  - rewrite dict_set_fresh.
    + rewrite IH; rewrite <- app_assoc; done.
    + rewrite map_app in Hnd. apply NoDup_app in Hnd as (_ & Hdisj & _).
      intros Hin. apply (Hdisj _ Hin). by left.
Qed.

End Dictionaries.

Lemma partition_no_separator (sep : byte) (payload : bytes) :
  sep ∉ payload -> partition sep payload = (payload, [], []).
Proof.
  induction payload as [|c payload IH]; intros Hout; [done|].
  apply not_elem_of_cons in Hout as [Hne Hout]. simpl.
  rewrite decide_False by done. by rewrite IH.
Qed.

Lemma partition_first_separator (sep : byte) (head_ tail_ : bytes) :
  sep ∉ head_ -> partition sep (head_ ++ sep :: tail_) = (head_, [sep], tail_).
Proof.
  induction head_ as [|c head_ IH]; intros Hout; simpl.
  - by rewrite decide_True.
  - apply not_elem_of_cons in Hout as [Hne Hout].
    rewrite decide_False by done. by rewrite IH.
Qed.

Lemma unpack_loop_step (text_ : bytes) (index : nat) (pairs : list bytes) :
  unpack_loop text_ index pairs =
    if decide (index < length text_)%nat then
      let length_ := Byte.to_nat (nth index text_ "000"%byte) in
      unpack_loop text_ (index + 1 + length_)
        (pairs ++ [slice text_ (index + 1) (index + 1 + length_)])
    else pairs.
Proof.
  rewrite unpack_loop_equation_1.
  destruct (decide (index < length text_)%nat) as [Hlt|Hge].
  - by rewrite unpack_loop_clause_1_equation_1.
  - by rewrite unpack_loop_clause_1_equation_2.
Qed.

Lemma unpack_loop_end (text_ : bytes) (index : nat) (pairs : list bytes) :
  (length text_ <= index)%nat -> unpack_loop text_ index pairs = pairs.
Proof. intros Hle. rewrite unpack_loop_step. rewrite decide_False; [done|lia]. Qed.

(** One turn of the loop on a whole entry. *)
Lemma unpack_loop_entry (prefix item rest : bytes) (lb : byte) (pairs : list bytes) :
  Byte.to_nat lb = length item ->
  unpack_loop (prefix ++ lb :: item ++ rest) (length prefix) pairs =
  unpack_loop ((prefix ++ lb :: item) ++ rest) (length (prefix ++ lb :: item))
    (pairs ++ [item]).
Proof.
  intros Hlb. rewrite unpack_loop_step.
  rewrite decide_True by (rewrite length_app; simpl; lia).
  cbv zeta.
  assert (Hnth : nth (length prefix) (prefix ++ lb :: item ++ rest) "000"%byte = lb).
  { rewrite app_nth2 by lia. by rewrite Nat.sub_diag. }
  rewrite Hnth, Hlb.
  assert (Hslice : slice (prefix ++ lb :: item ++ rest) (length prefix + 1)
                     (length prefix + 1 + length item) = item).
  { unfold slice.
    replace (length prefix + 1 + length item - (length prefix + 1))%nat
      with (length item) by lia.
    replace (prefix ++ lb :: item ++ rest) with ((prefix ++ [lb]) ++ item ++ rest)
      by (by rewrite <- app_assoc).
    rewrite drop_app_length'; [|rewrite length_app; simpl; lia].
    by rewrite take_app_length. }
  rewrite Hslice. f_equal.
  - by rewrite <- app_assoc.
  - rewrite length_app. simpl. lia.
Qed.

Lemma length_byte_to_nat (item : bytes) :
  (length item <= 255)%nat -> Byte.to_nat (length_byte item) = length item.
Proof.
  intros Hle. unfold length_byte.
  pose proof (Byte.to_of_nat_option_map (length item)) as Hmap.
  destruct (Byte.of_nat (length item)) as [lb|] eqn:Hof; simpl in *.
  - destruct (Nat.leb_spec (length item) 255); [congruence|lia].
  - destruct (Nat.leb_spec (length item) 255); [discriminate|lia].
Qed.

Lemma bytes_of_len_length_byte (item : bytes) :
  (length item <= 255)%nat -> bytes_of_len (length item) = Return [length_byte item].
Proof.
  intros Hle. unfold bytes_of_len, length_byte.
  pose proof (Byte.to_of_nat_option_map (length item)) as Hmap.
  destruct (Byte.of_nat (length item)) as [lb|] eqn:Hof; simpl in *; [done|].
  destruct (Nat.leb_spec (length item) 255); [discriminate|lia].
Qed.

(** The loop reads back the entries of a wire-format payload, in wire
    order. *)
Lemma unpack_loop_wire (items : list bytes) (prefix : bytes) (pairs : list bytes) :
  Forall (fun item => (length item <= 255)%nat) items ->
  unpack_loop (prefix ++ wire items) (length prefix) pairs = pairs ++ items.
Proof.
  intros Hall. revert prefix pairs.
  induction Hall as [|item items Hle Hall IH]; intros prefix pairs; simpl.
  - rewrite unpack_loop_end; rewrite app_nil_r; done.
  - rewrite unpack_loop_entry by (by apply length_byte_to_nat).
    rewrite IH. by rewrite <- app_assoc.
Qed.

(** [_set_properties] writes the wire format of its entries. *)
Lemma join_items_wire (items : list bytes) (result : bytes) :
  Forall (fun item => (length item <= 255)%nat) items ->
  join_items items result = Return (result ++ wire items).
Proof.
  intros Hall. revert result.
  induction Hall as [|item items Hle Hall IH]; intros result; simpl.
  - by rewrite app_nil_r.
  - rewrite bytes_of_len_length_byte by done. rewrite IH.
    by rewrite <- !app_assoc.
Qed.

Lemma _unpack_text_into_properties_run (s : ServiceInfo) (text_ : bytes) :
  text s = Some text_ ->
  _unpack_text_into_properties s =
    (Return tt,
     set__properties
       (Some (dict_of_items (rev (map property_item (unpack_loop text_ 0 []))))) s,
     []).
Proof.
  intros Ht. unfold _unpack_text_into_properties. mstep. rewrite Ht.
  destruct text_ as [|c text_].
  - by rewrite unpack_loop_end.
  - by rewrite map_rev.
Qed.

Lemma properties_run (s : ServiceInfo) (text_ : bytes) :
  text s = Some text_ ->
  _properties s = None ->
  properties s =
    (Return (Some (dict_of_items (rev (map property_item (unpack_loop text_ 0 []))))),
     set__properties
       (Some (dict_of_items (rev (map property_item (unpack_loop text_ 0 []))))) s,
     []).
Proof.
  intros Ht Hp. unfold properties. mstep. rewrite Hp.
  by rewrite (bind_run_pure _ _ _ _ _ (_unpack_text_into_properties_run _ _ Ht)).
Qed.



Lemma property_item_record (kv : pyval * option pyval) :
  well_formed_entry kv -> property_item (property_record kv) = kv.
Proof.
  destruct kv as [k v]. intros [(key_ & Hk & Hout & Hv) _]. simpl in Hk, Hv. subst k.
  unfold property_item, property_record.
  destruct Hv as [-> | (value_ & -> & Hne)].
  - by rewrite partition_no_separator.
  - cbn [app]. rewrite partition_first_separator by done.
    by destruct value_.
Qed.

(** C5: for a mapping with distinct keys whose entries are well formed
    (bytes keys without [=], values absent or non-empty bytes, encoded
    entries of at most 255 bytes), [_set_properties] succeeds and
    writes a text from which [_unpack_text_into_properties], on any
    object holding that text, decodes a mapping with exactly the pairs
    of the original: the same items up to order, the same value for
    every key. *)
Theorem C5_round_trip (m : properties_dict) (s : ServiceInfo) :
  NoDup (map fst m) ->
  Forall well_formed_entry m ->
  exists (text_ : bytes) (d : properties_dict),
    _set_properties m s =
      (Return tt, set_text (Some text_) (set__properties (Some m) s), []) /\
    (forall s1 : ServiceInfo,
       text s1 = Some text_ ->
       _unpack_text_into_properties s1 = (Return tt, set__properties (Some d) s1, [])) /\
    d ≡ₚ m /\
    (forall k : pyval, dict_get k d = dict_get k m).
Proof.
  intros Hnd Hwf.
  assert (Hlen : Forall (fun item => (length item <= 255)%nat) (map property_record m)).
  { apply Forall_map. eapply Forall_impl; [exact Hwf|]. by intros kv [_ Hle]. }
  assert (Hback : map property_item (map property_record m) = m).
  { rewrite map_map. rewrite <- (map_id m) at 2.
    apply map_ext_Forall. eapply Forall_impl; [exact Hwf|].
    intros kv Hkv. by apply property_item_record. }
  exists (wire (map property_record m)), (dict_of_items (rev m)).
  split; [|split; [|split]].
  - rewrite _set_properties_run. by rewrite join_items_wire.
  - intros s1 Ht. rewrite (_unpack_text_into_properties_run _ _ Ht).
    pose proof (unpack_loop_wire _ [] [] Hlen) as Hread. cbn [app length] in Hread.
    by rewrite Hread, Hback.
  - rewrite dict_of_items_NoDup.
    + symmetry. apply Permutation_rev.
    + rewrite map_rev. by rewrite <- Permutation_rev.
  - intros k. apply dict_get_of_reversed_items.
Qed.

(** C5 witness: the sample mapping [{a: 1, flag: None}]. *)
Lemma C5_round_trip_witness :
  exists (text_ : bytes) (d : properties_dict),
    result_of (_set_properties sample_properties printer) = Return tt /\
    text (object_of (_set_properties sample_properties printer)) = Some text_ /\
    _properties (object_of (_unpack_text_into_properties
                              (object_of (_set_properties sample_properties printer))))
      = Some d /\
    dict_get (PyBytes (b "flag")) d = Some None.
Proof.
  assert (Hnd : NoDup (map fst sample_properties)).
  { apply (bool_decide_unpack _). vm_compute. exact I. }
  assert (Hwf : Forall well_formed_entry sample_properties).
  { constructor; [|constructor; [|constructor]]; (split; [|vm_compute; lia]).
    - exists (b "a"). split; [reflexivity|]. split.
      + apply (bool_decide_unpack _). vm_compute. exact I.
      + right. exists (b "1"). split; [reflexivity|discriminate].
    - exists (b "flag"). split; [reflexivity|]. split.
      + apply (bool_decide_unpack _). vm_compute. exact I.
      + by left. }
  destruct (C5_round_trip sample_properties printer Hnd Hwf)
    as (text_ & d & Hset & Hunpack & _ & Hget).
  exists text_, d. rewrite Hset. cbn [result_of object_of fst snd].
  rewrite (Hunpack (set_text (Some text_) (set__properties (Some sample_properties) printer))
             eq_refl).
  cbn [object_of fst snd _properties set__properties].
  repeat split. rewrite Hget. reflexivity.
Defined.

(** ** The question type of the queries *)

Lemma request_question_type_first (question_type : option Dns.DNSQuestionType) :
  request_question_type question_type true =
    Some (default Dns.QU question_type).
Proof. by destruct question_type. Qed.

(** After the first query the caller's question type is not consulted. *)
Lemma request_question_type_retransmission (question_type : option Dns.DNSQuestionType) :
  request_question_type question_type false = Some Dns.QM.
Proof. reflexivity. Qed.

(** *** Every retransmission is multicast *)

Lemma sent_unicast_flags_app (ev1 ev2 : list event) :
  sent_unicast_flags (ev1 ++ ev2) = sent_unicast_flags ev1 ++ sent_unicast_flags ev2.
Proof. unfold sent_unicast_flags. apply omap_app. Qed.

Section Quiet.
Context {A B : Type}.

Lemma sends_nothing_bind (m : M A) (k : A -> M B) :
  sends_nothing m -> (forall a, sends_nothing (k a)) -> sends_nothing (bind m k).
Proof.
  intros Hm Hk s. unfold bind. specialize (Hm s).
  destruct (m s) as [[[a|e] s1] ev1]; [|done].
  specialize (Hk a s1). destruct (k a s1) as [[r s2] ev2].
  unfold events_of in *. cbn [fst snd] in *.
  by rewrite sent_unicast_flags_app, Hm, Hk.
Qed.

Lemma sends_multicast_only_bind (m : M A) (k : A -> M B) (Q : A -> Prop) :
  sends_multicast_only m ->
  (forall s a s1 ev, m s = (Return a, s1, ev) -> Q a) ->
  (forall a, Q a -> sends_multicast_only (k a)) ->
  sends_multicast_only (bind m k).
Proof.
  intros Hm Hpost Hk s. unfold bind. specialize (Hm s). specialize (Hpost s).
  destruct (m s) as [[[a|e] s1] ev1]; [|done].
  specialize (Hk a (Hpost _ _ _ eq_refl) s1). destruct (k a s1) as [[r s2] ev2].
  unfold multicast_only, events_of in *. cbn [fst snd] in *.
  rewrite sent_unicast_flags_app. by apply Forall_app.
Qed.

Lemma sends_nothing_multicast_only (m : M A) :
  sends_nothing m -> sends_multicast_only m.
Proof. intros Hm s. unfold multicast_only. rewrite Hm. constructor. Qed.

End Quiet.

Lemma sends_nothing_for_each {A} (l : list A) (body : A -> M unit) :
  (forall a, sends_nothing (body a)) -> sends_nothing (for_each l body).
Proof.
  intros Hbody. induction l as [|a l IH]; [done|].
  cbn [for_each]. by apply sends_nothing_bind.
Qed.

Lemma sends_nothing_when (c : bool) (m : M unit) :
  sends_nothing m -> sends_nothing (when c m).
Proof. by destruct c. Qed.

Create HintDb quiet.

Ltac quiet :=
  repeat first
    [ solve [trivial with quiet]
    | match goal with
      | |- sends_nothing (bind _ _) => apply sends_nothing_bind; [|intros ?]
      | |- sends_nothing (when _ _) => apply sends_nothing_when
      | |- sends_nothing (for_each _ _) => apply sends_nothing_for_each; intros ?
      | |- sends_nothing (if ?c then _ else _) => destruct c
      | |- sends_nothing (match ?x with _ => _ end) => destruct x
      | |- sends_nothing (ret _) => done
      | |- sends_nothing (read _) => done
      | |- sends_nothing (modify _) => done
      | |- sends_nothing (lift _) => done
      | |- sends_nothing (raise _) => done
      | |- sends_nothing (emit _) => done
      end ].

Section QuietMethods.
Context `{Externals}.

Lemma _set_ipv4_addresses_from_cache_quiet (zc : Zeroconf) (now : Z) :
  sends_nothing (_set_ipv4_addresses_from_cache zc now).
Proof.
  unfold _set_ipv4_addresses_from_cache, _get_ip_addresses_from_cache_lifo,
    _get_address_records_from_cache_by_type. quiet.
Qed.

Lemma _set_ipv6_addresses_from_cache_quiet (zc : Zeroconf) (now : Z) :
  sends_nothing (_set_ipv6_addresses_from_cache zc now).
Proof.
  unfold _set_ipv6_addresses_from_cache, _get_ip_addresses_from_cache_lifo,
    _get_address_records_from_cache_by_type. quiet.
Qed.

#[local] Hint Resolve _set_ipv4_addresses_from_cache_quiet
  _set_ipv6_addresses_from_cache_quiet : quiet.

Lemma _process_record_threadsafe_quiet (zc : Zeroconf) (record : Dns.DNSRecord) (now : Z) :
  sends_nothing (_process_record_threadsafe zc record now).
Proof.
  unfold _process_record_threadsafe, process_keyed_record, process_ipv4_address,
    process_ipv6_address, _set_text, set_name.
  quiet.
Qed.

#[local] Hint Resolve _process_record_threadsafe_quiet : quiet.

Lemma async_update_records_quiet (zc : Zeroconf) (now : Z) (records : list RecordUpdate) :
  sends_nothing (async_update_records zc now records).
Proof.
  unfold async_update_records. apply sends_nothing_bind; [done|intros futures].
  apply sends_nothing_bind.
  - generalize false. induction records as [|r records IH]; intros updated; [done|].
    apply sends_nothing_bind; [apply _process_record_threadsafe_quiet|].
    intros ?. apply IH.
  - intros updated. unfold _resolve_all_futures_to_none. quiet.
Qed.

#[local] Hint Resolve async_update_records_quiet : quiet.

Lemma async_wait_quiet (zc : Zeroconf) (w : wakeup) (timeout : Z) :
  sends_nothing (async_wait zc w timeout).
Proof. unfold async_wait, wait_for_future_set_or_timeout. cbv zeta. quiet. Qed.

Lemma load_from_cache_quiet (zc : Zeroconf) (now : option Z) (current_time_millis : Z) :
  sends_nothing (load_from_cache zc now current_time_millis).
Proof.
  unfold load_from_cache, _get_address_records_from_cache_by_type, _is_complete.
  quiet.
Qed.

Lemma add_question_or_one_cache_multicast
    (out : Dns.DNSOutgoing) (cache_ : Dns.DNSCache) (now : Z) (name : string)
    (type_ class_ : Z) :
  Forall (fun q => Dns.unicast q = false) (Dns.questions out) ->
  Forall (fun q => Dns.unicast q = false)
    (Dns.questions (Dns.add_question_or_one_cache out cache_ now name type_ class_)).
Proof.
  intros Hout. unfold Dns.add_question_or_one_cache.
  destruct (Dns.get_by_details cache_ name type_ class_); [done|].
  cbn. apply Forall_app. split; [done|]. by repeat constructor.
Qed.

Lemma add_question_or_all_cache_multicast
    (out : Dns.DNSOutgoing) (cache_ : Dns.DNSCache) (now : Z) (name : string)
    (type_ class_ : Z) :
  Forall (fun q => Dns.unicast q = false) (Dns.questions out) ->
  Forall (fun q => Dns.unicast q = false)
    (Dns.questions (Dns.add_question_or_all_cache out cache_ now name type_ class_)).
Proof.
  intros Hout. unfold Dns.add_question_or_all_cache.
  destruct (Dns.get_all_by_details cache_ name type_ class_); [|done].
  cbn. apply Forall_app. split; [done|]. by repeat constructor.
Qed.

(** A query generated for QM carries multicast questions only. *)
Lemma generate_request_query_QM
    (zc : Zeroconf) (now : Z) (s s1 : ServiceInfo) (out : Dns.DNSOutgoing)
    (ev : list event) :
  generate_request_query zc now (Some Dns.QM) s = (Return out, s1, ev) ->
  Forall (fun q => Dns.unicast q = false) (Dns.questions out).
Proof.
  unfold generate_request_query. mstep. cbn. intros [= <- _ _].
  repeat first [ apply add_question_or_all_cache_multicast
               | apply add_question_or_one_cache_multicast ].
  constructor.
Qed.

Lemma generate_request_query_quiet
    (zc : Zeroconf) (now : Z) (question_type : option Dns.DNSQuestionType) :
  sends_nothing (generate_request_query zc now question_type).
Proof. unfold generate_request_query. quiet. Qed.

(** Once the first query of an attempt is out, every query that the loop
    sends asks for multicast replies, whatever [question_type] the
    caller passed and whatever happens on the network. *)
Lemma request_loop_retransmissions_multicast (schedule : list wakeup) :
  forall (zc : Zeroconf) (question_type : option Dns.DNSQuestionType)
         (addr : option string) (port_ delay next_ last now : Z),
    sends_multicast_only
      (request_loop schedule zc question_type addr port_ false delay next_ last now).
Proof.
  induction schedule as [|w schedule IH]; intros zc question_type addr port_ delay next_ last now.
  - cbn [request_loop].
    apply (sends_multicast_only_bind _ _ (fun _ => True)); [|done|intros complete _].
    { by apply sends_nothing_multicast_only. }
    destruct complete; [by apply sends_nothing_multicast_only|].
    destruct (decide (last <= now)); [by apply sends_nothing_multicast_only|].
    destruct (decide (next_ <= now)); [|by apply sends_nothing_multicast_only].
    apply (sends_multicast_only_bind _ _
             (fun out => Forall (fun q => Dns.unicast q = false) (Dns.questions out))).
    + apply sends_nothing_multicast_only, generate_request_query_quiet.
    + intros s out s1 ev. apply generate_request_query_QM.
    + intros out Hout. destruct (negb (truthy (Dns.questions out))).
      * apply sends_nothing_multicast_only, sends_nothing_bind; [|done].
        apply load_from_cache_quiet.
      * intros s. unfold multicast_only. cbn. constructor; [|constructor].
        by apply Forall_map.
  - cbn [request_loop].
    apply (sends_multicast_only_bind _ _ (fun _ => True)); [|done|intros complete _].
    { by apply sends_nothing_multicast_only. }
    destruct complete; [by apply sends_nothing_multicast_only|].
    destruct (decide (last <= now)); [by apply sends_nothing_multicast_only|].
    destruct (decide (next_ <= now)).
    + apply (sends_multicast_only_bind _ _
               (fun out => Forall (fun q => Dns.unicast q = false) (Dns.questions out))).
      * apply sends_nothing_multicast_only, generate_request_query_quiet.
      * intros s out s1 ev. apply generate_request_query_QM.
      * intros out Hout. destruct (negb (truthy (Dns.questions out))).
        -- apply sends_nothing_multicast_only, sends_nothing_bind; [|done].
           apply load_from_cache_quiet.
        -- apply (sends_multicast_only_bind _ _ (fun _ => True)); [|done|intros _ _].
           { intros s. unfold multicast_only. cbn. constructor; [|constructor].
             by apply Forall_map. }
           apply (sends_multicast_only_bind _ _ (fun _ => True)); [|done|intros _ _].
           { apply sends_nothing_multicast_only, async_wait_quiet. }
           apply IH.
    + apply (sends_multicast_only_bind _ _ (fun _ => True)); [|done|intros _ _].
      { apply sends_nothing_multicast_only, async_wait_quiet. }
      apply IH.
Qed.

End QuietMethods.

(** *** The first query and the retransmissions of an attempt *)

Section SentQueries.
Context {A B : Type}.

Lemma flags_bind_quiet (m : M A) (k : A -> M B) (P : list (list bool) -> Prop)
    (s : ServiceInfo) :
  sends_nothing m ->
  P [] ->
  (forall a s1 ev, m s = (Return a, s1, ev) ->
     P (sent_unicast_flags (events_of (k a s1)))) ->
  P (sent_unicast_flags (events_of (bind m k s))).
Proof.
  intros Hm Hnil Hk. unfold bind. specialize (Hm s).
  destruct (m s) as [[[a|e] s1] ev1]; unfold events_of in *; cbn [fst snd] in *.
  - specialize (Hk a s1 ev1 eq_refl). destruct (k a s1) as [[r s2] ev2].
    cbn [fst snd] in *. by rewrite sent_unicast_flags_app, Hm.
  - by rewrite Hm.
Qed.

Lemma flags_bind_send (out : Dns.DNSOutgoing) (addr : option string) (port_ : Z)
    (k : unit -> M B) (s : ServiceInfo) :
  sent_unicast_flags (events_of (bind (emit (AsyncSend out addr port_)) k s)) =
    map Dns.unicast (Dns.questions out) :: sent_unicast_flags (events_of (k tt s)).
Proof. by rewrite bind_emit. Qed.

Lemma flags_bind_add_listener (k : unit -> M B) (s : ServiceInfo) :
  sent_unicast_flags (events_of (bind (emit AsyncAddListener) k s)) =
    sent_unicast_flags (events_of (k tt s)).
Proof. by rewrite bind_emit. Qed.

End SentQueries.

Lemma flags_try_finally {A} (body : M (option A)) (s : ServiceInfo) :
  sent_unicast_flags (events_of (try_finally body (emit AsyncRemoveListener) s)) =
    sent_unicast_flags (events_of (body s)).
Proof.
  unfold try_finally.
  destruct (body s) as [[[[r|]|e] s1] ev1]; unfold events_of; cbn [fst snd emit];
    rewrite ?sent_unicast_flags_app; cbn; by rewrite ?app_nil_r.
Qed.

Section FirstQuery.
Context `{Externals}.

(** The questions of a generated query ask for unicast replies exactly
    when the query was asked for with QU. *)
Lemma generate_request_query_unicast
    (zc : Zeroconf) (now : Z) (question_type : option Dns.DNSQuestionType)
    (s s1 : ServiceInfo) (out : Dns.DNSOutgoing) (ev : list event) :
  generate_request_query zc now question_type s = (Return out, s1, ev) ->
  Forall (fun q => Dns.unicast q = bool_decide (question_type = Some Dns.QU))
    (Dns.questions out).
Proof.
  unfold generate_request_query. mstep. cbv zeta.
  destruct (decide (question_type = Some Dns.QU)) as [Hqu|Hqm]; mstep;
    unfold ret; intros [= <- _ _].
  - rewrite bool_decide_eq_true_2 by done. cbn [Dns.questions].
    by apply Forall_map, Forall_true.
  - rewrite bool_decide_eq_false_2 by done.
    repeat first [ apply add_question_or_all_cache_multicast
                 | apply add_question_or_one_cache_multicast ].
    constructor.
Qed.

Lemma request_loop_first_query (schedule : list wakeup) :
  forall (zc : Zeroconf) (question_type : option Dns.DNSQuestionType)
         (addr : option string) (port_ delay next_ last now : Z) (s : ServiceInfo),
    first_query_then_multicast question_type
      (sent_unicast_flags
         (events_of (request_loop schedule zc question_type addr port_ true
                       delay next_ last now s))).
Proof.
  assert (Hfirst : forall (zc : Zeroconf) (question_type : option Dns.DNSQuestionType)
            (now : Z) (s s1 : ServiceInfo) (out : Dns.DNSOutgoing) (ev : list event),
            generate_request_query zc now (request_question_type question_type true) s
              = (Return out, s1, ev) ->
            Forall (fun unicast_ =>
                      unicast_ = bool_decide (default Dns.QU question_type = Dns.QU))
              (map Dns.unicast (Dns.questions out))).
  { intros zc question_type now s s1 out ev Hgen.
    apply generate_request_query_unicast in Hgen. apply Forall_map.
    eapply Forall_impl; [exact Hgen|]. intros q ->.
    rewrite request_question_type_first. apply bool_decide_ext.
    split; [by intros [= ->]|by intros ->]. }
  induction schedule as [|w schedule IH];
    intros zc question_type addr port_ delay next_ last now s; cbn [request_loop].
  - apply flags_bind_quiet; [done|done|]. intros complete s1 ev _.
    destruct complete; [done|].
    destruct (decide (last <= now)); [done|].
    destruct (decide (next_ <= now)); [|done].
    apply flags_bind_quiet; [apply generate_request_query_quiet|done|].
    intros out s2 ev2 Hgen.
    destruct (negb (truthy (Dns.questions out))).
    + apply flags_bind_quiet; [apply load_from_cache_quiet|done|done].
    + rewrite flags_bind_send. split; [by eapply Hfirst|constructor].
  - apply flags_bind_quiet; [done|done|]. intros complete s1 ev _.
    destruct complete; [done|].
    destruct (decide (last <= now)); [done|].
    destruct (decide (next_ <= now)).
    + apply flags_bind_quiet; [apply generate_request_query_quiet|done|].
      intros out s2 ev2 Hgen.
      destruct (negb (truthy (Dns.questions out))).
      * apply flags_bind_quiet; [apply load_from_cache_quiet|done|done].
      * rewrite flags_bind_send. split; [by eapply Hfirst|].
        apply (sends_multicast_only_bind _ _ (fun _ => True)); [|done|intros _ _].
        { apply sends_nothing_multicast_only, async_wait_quiet. }
        apply request_loop_retransmissions_multicast.
    + apply flags_bind_quiet; [apply async_wait_quiet|done|].
      intros _ s2 ev2 _. apply IH.
Qed.

(** C2, as the code has it: among the queries that [async_request]
    sends, on any network schedule, the first carries the caller's
    question type when one was passed and QU when none was; every
    retransmission carries QM, whatever the caller passed. So a forced
    QM holds throughout, and a forced QU holds for the first query
    only, exactly as with no question type at all. *)
Theorem C2_first_query_typed_then_multicast
    (schedule : list wakeup) (zc : Zeroconf) (timeout : Z)
    (question_type : option Dns.DNSQuestionType) (addr : option string)
    (port_ now : Z) (s : ServiceInfo) :
  first_query_then_multicast question_type
    (sent_unicast_flags
       (events_of (async_request schedule zc timeout question_type addr port_ now s))).
Proof.
  unfold async_request.
  apply flags_bind_quiet; [apply load_from_cache_quiet|done|].
  intros loaded s1 ev _. destruct loaded; [done|].
  rewrite flags_try_finally, flags_bind_add_listener.
  apply request_loop_first_query.
Qed.

End FirstQuery.

(** C2 counterexample: the sample resolver, an empty cache, no answer,
    3000 ms of timeout, clock readings 1000, 1250 and 1700, and
    [question_type] forced to QU. Three queries of four questions go
    out; the first asks for unicast replies, the two retransmissions
    ask for multicast replies: the forced type is not used throughout. *)
Lemma C2_forced_QU_dropped_on_retransmission :
  let flags :=
    sent_unicast_flags
      (events_of (async_request silent_network zc_empty 3000 (Some Dns.QU) None
                    _MDNS_PORT 1000 printer)) in
  flags = [[true; true; true; true]; [false; false; false; false];
           [false; false; false; false]] /\
  ~ Forall (Forall (fun unicast_ => unicast_ = true)) flags.
Proof.
  split; [vm_compute; reflexivity|].
  vm_compute. intros Hall.
  inversion Hall as [|? ? _ Hrest]. inversion Hrest as [|? ? Hsecond _].
  inversion Hsecond as [|? ? Hbit _]. discriminate.
Qed.

(** * Further properties of the code *)

(** ** How contracts compose *)

Section Contracts.
Context {A B : Type}.

Lemma never_raises_bind (m : M A) (k : A -> M B) :
  never_raises m -> (forall a, never_raises (k a)) -> never_raises (bind m k).
Proof.
  intros Hm Hk s. destruct (Hm s) as [a Ha]. unfold bind, result_of in *.
  destruct (m s) as [[r s1] ev1]. cbn [fst] in Ha. subst r.
  destruct (Hk a s1) as [b0 Hb]. unfold result_of in Hb.
  destruct (k a s1) as [[r s2] ev2]. cbn [fst] in *. by exists b0.
Qed.

Lemma keeps_bind (I : ServiceInfo -> Prop) (m : M A) (k : A -> M B) :
  keeps I m -> (forall a, keeps I (k a)) -> keeps I (bind m k).
Proof.
  intros Hm Hk s Hs. specialize (Hm s Hs). unfold bind, object_of in *.
  destruct (m s) as [[[a|e] s1] ev1]; cbn [fst snd] in *; [|done].
  specialize (Hk a s1 Hm). unfold object_of in Hk.
  by destruct (k a s1) as [[r s2] ev2].
Qed.

Lemma emits_only_bind (P : event -> Prop) (m : M A) (k : A -> M B) :
  emits_only P m -> (forall a, emits_only P (k a)) -> emits_only P (bind m k).
Proof.
  intros Hm Hk s. specialize (Hm s). unfold bind, events_of in *.
  destruct (m s) as [[[a|e] s1] ev1]; cbn [fst snd] in *; [|done].
  specialize (Hk a s1). unfold events_of in Hk.
  destruct (k a s1) as [[r s2] ev2]. cbn [snd] in *. by apply Forall_app.
Qed.

Lemma ensures_bind (Q : B -> ServiceInfo -> Prop) (m : M A) (k : A -> M B) :
  (forall a, ensures Q (k a)) -> ensures Q (bind m k).
Proof.
  intros Hk s b0 s2 ev. unfold bind.
  destruct (m s) as [[[a|e] s1] ev1]; [|discriminate].
  destruct (k a s1) as [[r s2'] ev2] eqn:Hrun. intros [= -> -> _].
  by eapply Hk.
Qed.

End Contracts.

Lemma never_raises_for_each {A} (l : list A) (body : A -> M unit) :
  (forall a, never_raises (body a)) -> never_raises (for_each l body).
Proof.
  intros Hbody. induction l as [|a l IH]; [by exists tt|].
  cbn [for_each]. by apply never_raises_bind.
Qed.

Lemma keeps_for_each {A} (I : ServiceInfo -> Prop) (l : list A) (body : A -> M unit) :
  (forall a, keeps I (body a)) -> keeps I (for_each l body).
Proof.
  intros Hbody. induction l as [|a l IH]; [by intros ? ?|].
  cbn [for_each]. by apply keeps_bind.
Qed.

Lemma emits_only_for_each {A} (P : event -> Prop) (l : list A) (body : A -> M unit) :
  (forall a, emits_only P (body a)) -> emits_only P (for_each l body).
Proof.
  intros Hbody. induction l as [|a l IH]; [intros ?; by constructor|].
  cbn [for_each]. by apply emits_only_bind.
Qed.

Create HintDb contracts.

Ltac contract_step :=
  match goal with
  | |- never_raises (bind _ _) => apply never_raises_bind; [|intros ?]
  | |- never_raises (for_each _ _) => apply never_raises_for_each; intros ?
  | |- never_raises (ret _) => intros ?; eexists; reflexivity
  | |- never_raises (read _) => intros ?; eexists; reflexivity
  | |- never_raises (modify _) => intros ?; eexists; reflexivity
  | |- never_raises (emit _) => intros ?; eexists; reflexivity
  | |- never_raises (lift (Return _)) => intros ?; eexists; reflexivity
  | |- never_raises (when ?c _) => destruct c; unfold when
  | |- keeps _ (bind _ _) => apply keeps_bind; [|intros ?]
  | |- keeps _ (for_each _ _) => apply keeps_for_each; intros ?
  | |- keeps _ (ret _) => by intros ? ?
  | |- keeps _ (read _) => by intros ? ?
  | |- keeps _ (lift _) => by intros ? ?
  | |- keeps _ (raise _) => by intros ? ?
  | |- keeps _ (emit _) => by intros ? ?
  | |- keeps _ (modify _) => let HI := fresh in intros ? HI; exact HI
  | |- keeps _ (when ?c _) => destruct c; unfold when
  | |- emits_only _ (bind _ _) => apply emits_only_bind; [|intros ?]
  | |- emits_only _ (for_each _ _) => apply emits_only_for_each; intros ?
  | |- emits_only _ (ret _) => intros ?; by constructor
  | |- emits_only _ (read _) => intros ?; by constructor
  | |- emits_only _ (modify _) => intros ?; by constructor
  | |- emits_only _ (lift _) => intros ?; by constructor
  | |- emits_only _ (raise _) => intros ?; by constructor
  | |- emits_only _ (emit _) => intros ?; by repeat constructor
  | |- emits_only _ (when ?c _) => destruct c; unfold when
  | |- ?contract (if ?c then _ else _) => destruct c
  | |- ?contract (match ?x with _ => _ end) => destruct x
  | |- ?contract _ (if ?c then _ else _) => destruct c
  | |- ?contract _ (match ?x with _ => _ end) => destruct x
  | |- forall _, _ => intros ?
  end.

Ltac contract := repeat first [ solve [trivial with contracts] | contract_step ].

(** ** The record reconciler on any record *)

Section Reconciler.
Context `{Externals}.

Lemma _set_ipv4_addresses_from_cache_never_raises (zc : Zeroconf) (now : Z) :
  never_raises (_set_ipv4_addresses_from_cache zc now).
Proof.
  unfold _set_ipv4_addresses_from_cache, _get_ip_addresses_from_cache_lifo,
    _get_address_records_from_cache_by_type. contract.
Qed.

Lemma _set_ipv6_addresses_from_cache_never_raises (zc : Zeroconf) (now : Z) :
  never_raises (_set_ipv6_addresses_from_cache zc now).
Proof.
  unfold _set_ipv6_addresses_from_cache, _get_ip_addresses_from_cache_lifo,
    _get_address_records_from_cache_by_type. contract.
Qed.

#[local] Hint Resolve _set_ipv4_addresses_from_cache_never_raises
  _set_ipv6_addresses_from_cache_never_raises : contracts.

Lemma process_keyed_record_never_raises (zc : Zeroconf) (record : Dns.DNSRecord) (now : Z) :
  never_raises (process_keyed_record zc record now).
Proof. unfold process_keyed_record, _set_text, set_name. contract. Qed.

Lemma _process_record_threadsafe_never_raises
    (zc : Zeroconf) (record : Dns.DNSRecord) (now : Z) :
  never_raises (_process_record_threadsafe zc record now).
Proof.
  pose proof (process_keyed_record_never_raises zc record now) as Hkeyed.
  intros s. unfold _process_record_threadsafe.
  destruct (is_expired record now); [by eexists|].
  cbv zeta. rewrite bind_read.
  destruct record as [a| | | |]; try apply Hkeyed.
  destruct (decide (Some (Dns.key (Dns.hd (Dns.Address a))) = server_key s)) as [Hkey|_];
    [|apply Hkeyed].
  symmetry in Hkey.
  destruct (_cached_ip_addresses (Dns.address a)) as [ip|e].
  - destruct (is_IPv4Address ip).
    + rewrite (process_ipv4_address_run _ _ _ _ _ Hkey). by eexists.
    + rewrite (process_ipv6_address_run _ _ _ _ _ Hkey). by eexists.
  - rewrite bind_emit. by eexists.
Qed.

Lemma _process_record_threadsafe_keeps
    (I : ServiceInfo -> Prop) (zc : Zeroconf) (record : Dns.DNSRecord) (now : Z) :
  (forall l s, I s -> I (set__ipv4_addresses l s)) ->
  (forall l s, I s -> I (set__ipv6_addresses l s)) ->
  (forall t s, I s -> I (set__properties None (set_text (Some t) s))) ->
  (forall h priority_ weight_ port_ server_ server_key_ s,
     record = Dns.DNSService h priority_ weight_ port_ server_ server_key_ ->
     I s ->
     I (set_priority priority_ (set_weight weight_ (set_port (Some port_)
          (set_server_key (Some server_key_) (set_server (Some server_)
             (set_key (str_lower (Dns.name h)) (set__name (Dns.name h) s)))))))) ->
  keeps I (_process_record_threadsafe zc record now).
Proof.
  intros H4 H6 Htext Hsrv.
  assert (Hc4 : keeps I (_set_ipv4_addresses_from_cache zc now)).
  { unfold _set_ipv4_addresses_from_cache, _get_ip_addresses_from_cache_lifo,
      _get_address_records_from_cache_by_type.
    apply keeps_bind; [contract|]. intros l s Hs. by apply H4. }
  assert (Hc6 : keeps I (_set_ipv6_addresses_from_cache zc now)).
  { unfold _set_ipv6_addresses_from_cache, _get_ip_addresses_from_cache_lifo,
      _get_address_records_from_cache_by_type.
    apply keeps_bind; [contract|]. intros l s Hs. by apply H6. }
  assert (Hm4 : forall l, keeps I (modify (set__ipv4_addresses l)))
    by (intros l s Hs; by apply H4).
  assert (Hm6 : forall l, keeps I (modify (set__ipv6_addresses l)))
    by (intros l s Hs; by apply H6).
  assert (Hkeyed : keeps I (process_keyed_record zc record now)).
  { unfold process_keyed_record. apply keeps_bind; [contract|]. intros self_key.
    destruct (decide _); [contract|].
    destruct record as [a|h alias|h text_|h priority_ weight_ port_ server_ server_key_|h nn rd];
      try solve [contract].
    - destruct (decide _); [|contract].
      apply keeps_bind; [|contract].
      intros s Hs. rewrite _set_text_run. cbn [object_of fst snd].
      destruct (decide _); [done|by apply Htext].
    - destruct (decide _); [|contract].
      apply keeps_bind; [contract|]. intros old_server_key s Hs.
      unfold set_name. rewrite bind_assoc. rewrite !bind_modify, bind_read.
      assert (Hrest : forall c,
                keeps I (when c (_set_ipv4_addresses_from_cache zc now ;;;
                                 _set_ipv6_addresses_from_cache zc now) ;;; ret true)).
      { intros c. apply keeps_bind; [|contract].
        destruct c; unfold when; [|contract]. by apply keeps_bind. }
      apply Hrest. by apply Hsrv. }
  unfold _process_record_threadsafe, process_ipv4_address, process_ipv6_address.
  destruct (is_expired record now); [contract|]. cbv zeta.
  apply keeps_bind; [contract|]. intros self_server_key.
  destruct record as [a| | | |]; try apply Hkeyed.
  destruct (decide _); [|apply Hkeyed].
  destruct (_cached_ip_addresses (Dns.address a)) as [ip|err]; [|contract].
  destruct (is_IPv4Address ip).
  - apply keeps_bind; [contract|]. intros nonempty.
    apply keeps_bind; [destruct nonempty; unfold when; [done|contract]|]. intros _.
    apply keeps_bind; [contract|]. intros l.
    destruct (negb _); [apply keeps_bind; [done|contract]|].
    apply keeps_bind; [contract|]. intros first.
    apply keeps_bind; [|contract].
    destruct (decide _); [|contract]. apply keeps_bind; [contract|]. by intros ?.
  - apply keeps_bind; [contract|]. intros nonempty.
    apply keeps_bind; [destruct (negb nonempty); unfold when; [done|contract]|]. intros _.
    apply keeps_bind; [contract|]. intros l.
    destruct (negb _); [apply keeps_bind; [done|contract]|].
    apply keeps_bind; [contract|]. intros first.
    apply keeps_bind; [|contract].
    destruct (decide _); [|contract]. apply keeps_bind; [contract|]. by intros ?.
Qed.

Lemma _process_record_threadsafe_events
    (zc : Zeroconf) (record : Dns.DNSRecord) (now : Z) :
  emits_only is_cache_read_or_log (_process_record_threadsafe zc record now).
Proof.
  unfold _process_record_threadsafe, process_keyed_record, process_ipv4_address,
    process_ipv6_address, _set_text, set_name, _set_ipv4_addresses_from_cache,
    _set_ipv6_addresses_from_cache, _get_ip_addresses_from_cache_lifo,
    _get_address_records_from_cache_by_type.
  contract.
Qed.

(** X1: applying a record never raises, whatever the record and the
    object. It leaves the type, the two TTLs, the interface index and
    the waiter registry as they were, and all it does outside the
    object is read the cache and write to the log. *)
Theorem process_record_never_raises
    (zc : Zeroconf) (record : Dns.DNSRecord) (now : Z) (s : ServiceInfo) :
  let r := _process_record_threadsafe zc record now s in
  (exists changed : bool, result_of r = Return changed) /\
  configuration (object_of r) = configuration s /\
  _new_records_futures (object_of r) = _new_records_futures s /\
  Forall is_cache_read_or_log (events_of r).
Proof.
  repeat split.
  - apply _process_record_threadsafe_never_raises.
  - by apply (_process_record_threadsafe_keeps (fun s0 => configuration s0 = configuration s)).
  - by apply (_process_record_threadsafe_keeps
                (fun s0 => _new_records_futures s0 = _new_records_futures s)).
  - apply _process_record_threadsafe_events.
Qed.

(** X2: a record that has expired, a record whose key is neither the
    service key nor the server key, and a pointer or NSEC record are
    ignored: the call returns [False], the object is untouched and no
    collaborator is called. *)
Theorem ignored_record_changes_nothing
    (zc : Zeroconf) (record : Dns.DNSRecord) (now : Z) (s : ServiceInfo) :
  is_expired record now = true \/
  (Dns.key (Dns.hd record) <> key s /\ Some (Dns.key (Dns.hd record)) <> server_key s) \/
  (exists h alias, record = Dns.DNSPointer h alias) \/
  (exists h next_name rdtypes, record = Dns.DNSNsec h next_name rdtypes) ->
  _process_record_threadsafe zc record now s = (Return false, s, []).
Proof.
  intros Hcase. unfold _process_record_threadsafe.
  destruct (is_expired record now) eqn:Hexp; [done|].
  cbv zeta. rewrite bind_read.
  assert (Hkeyed : Dns.key (Dns.hd record) <> key s \/
                   (exists h alias, record = Dns.DNSPointer h alias) \/
                   (exists h next_name rdtypes, record = Dns.DNSNsec h next_name rdtypes) ->
                   process_keyed_record zc record now s = (Return false, s, [])).
  { intros Hk. unfold process_keyed_record. rewrite bind_read.
    destruct (decide (Dns.key (Dns.hd record) <> key s)) as [_|Heq]; [done|].
    destruct Hk as [Hne | [(h & alias & ->) | (h & nn & rd & ->)]]; done. }
  destruct Hcase as [Hexp' | [[Hk Hsk] | Hkind]]; [congruence| |].
  - destruct record as [a| | | |]; try (apply Hkeyed; by left).
    rewrite decide_False by done. apply Hkeyed. by left.
  - destruct Hkind as [(h & alias & ->) | (h & nn & rd & ->)]; apply Hkeyed.
    + right. left. by exists h, alias.
    + right. right. by exists h, nn, rd.
Qed.

(** X3: a live address record for the host whose address is neither 4
    nor 16 bytes long is logged and dropped: one warning, [False], the
    object untouched, no exception and no cache read. *)
Theorem malformed_address_is_logged
    (zc : Zeroconf) (a : Dns.DNSAddress) (now : Z) (s : ServiceInfo) :
  is_expired (Dns.Address a) now = false ->
  Some (Dns.key (Dns.address_hd a)) = server_key s ->
  length (Dns.address a) <> 4%nat ->
  length (Dns.address a) <> 16%nat ->
  _process_record_threadsafe zc (Dns.Address a) now s =
    (Return false, s, [LogWarning (Dns.Address a)]).
Proof.
  intros Hlive Hkey H4 H16. unfold _process_record_threadsafe.
  rewrite Hlive. cbv zeta. rewrite bind_read. cbn [Dns.hd].
  destruct (decide (Some (Dns.key (Dns.address_hd a)) = server_key s)) as [_|Hne];
    [|by destruct Hne].
  unfold _cached_ip_addresses, ip_address.
  rewrite decide_False by done. rewrite decide_False by done.
  by rewrite bind_emit.
Qed.

(** X4: [key] and [server_key] stay the lowercased [name] and [server]:
    applying a record whose own keys are in sync keeps them in sync, and
    so does [set_server_if_missing]. *)
Theorem keys_stay_in_sync
    (zc : Zeroconf) (record : Dns.DNSRecord) (now : Z) (s : ServiceInfo) :
  keys_in_sync s ->
  (record_keys_in_sync record ->
   keys_in_sync (object_of (_process_record_threadsafe zc record now s))) /\
  keys_in_sync (object_of (set_server_if_missing s)).
Proof.
  intros Hs. split.
  - intros [_ Hrecord].
    apply (_process_record_threadsafe_keeps keys_in_sync); try done.
    intros h priority_ weight_ port_ server_ server_key_ s0 -> _.
    split; [done|]. cbn. by rewrite Hrecord.
  - unfold set_server_if_missing. rewrite bind_read.
    destruct (server s) eqn:Hsrv; [done|].
    rewrite bind_read, bind_modify, bind_read. cbn.
    destruct Hs as [Hkey _]. split; [done|]. cbn. by rewrite Hkey.
Qed.

End Reconciler.

(** X2 witness: a record that expired at 1000 ms, applied at 5000 ms. *)
Lemma ignored_record_changes_nothing_witness :
  _process_record_threadsafe zc_host_a (Dns.Address stale_a_record) 5000 printer =
    (Return false, printer, []).
Proof.
  exact (ignored_record_changes_nothing zc_host_a (Dns.Address stale_a_record) 5000
           printer (or_introl eq_refl)).
Defined.

(** X3 witness: an address of three bytes for the sample host. *)
Lemma malformed_address_is_logged_witness :
  _process_record_threadsafe zc_host_a (Dns.Address (a_record (b "abc"))) 5 printer =
    (Return false, printer, [LogWarning (Dns.Address (a_record (b "abc")))]).
Proof.
  apply malformed_address_is_logged; [reflexivity | reflexivity | |];
    vm_compute; discriminate.
Defined.

(** X4 witness: the sample resolver learns its new host. *)
Lemma keys_stay_in_sync_witness :
  keys_in_sync (object_of (_process_record_threadsafe zc_host_a host_b_service 5 printer)).
Proof.
  assert (Hs : keys_in_sync printer) by (split; reflexivity).
  apply (proj1 (keys_stay_in_sync zc_host_a host_b_service 5 printer Hs)).
  split; reflexivity.
Defined.

(** ** Replacing and reading the addresses *)

Lemma set_addresses_loop (value : list bytes) :
  forall s0 : ServiceInfo,
    Forall (fun address => length address = 4%nat \/ length address = 16%nat) value ->
    for_each value (fun address =>
      match _cached_ip_addresses address with
      | Raise _ => raise TypeError
      | Return addr =>
          if decide (version addr = 4) then
            l <- read _ipv4_addresses ;; modify (set__ipv4_addresses (l ++ [addr]))
          else
            l <- read _ipv6_addresses ;; modify (set__ipv6_addresses (l ++ [addr]))
      end) s0 =
    (Return tt,
     set__ipv6_addresses (_ipv6_addresses s0 ++ map IPv6Address (ipv6_of value))
       (set__ipv4_addresses (_ipv4_addresses s0 ++ map IPv4Address (ipv4_of value)) s0),
     []).
Proof.
  unfold ipv4_of, ipv6_of.
  induction value as [|address value IH]; intros s0 Hall.
  - cbn. rewrite !app_nil_r. by destruct s0.
  - apply Forall_cons in Hall as [Hlen Hall]. cbn [for_each].
    unfold _cached_ip_addresses, ip_address at 1.
    destruct Hlen as [H4|H16].
    + destruct (decide (length address = 4%nat)) as [_|Hne]; [|done].
      cbn [version]. destruct (decide (4 = 4)) as [_|Hne]; [|done].
      rewrite bind_assoc, bind_read, bind_modify. rewrite IH by done.
      rewrite (filter_cons_True (fun a => length a = 4%nat)) by done.
      rewrite (filter_cons_False (fun a => length a = 16%nat))
        by (rewrite H4; discriminate).
      destruct s0. cbn. by rewrite <- !app_assoc.
    + destruct (decide (length address = 4%nat)) as [H4|_];
        [rewrite H16 in H4; discriminate|].
      destruct (decide (length address = 16%nat)) as [_|Hne]; [|done].
      cbn [version]. destruct (decide (6 = 4)) as [Heq|_]; [discriminate|].
      rewrite bind_assoc, bind_read, bind_modify. rewrite IH by done.
      rewrite (filter_cons_False (fun a => length a = 4%nat))
        by (rewrite H16; discriminate).
      rewrite (filter_cons_True (fun a => length a = 16%nat)) by done.
      destruct s0. cbn. by rewrite <- !app_assoc.
Qed.

Lemma set_addresses_loop_fails (value : list bytes) :
  forall s0 : ServiceInfo,
    Exists (fun address => length address <> 4%nat /\ length address <> 16%nat) value ->
    result_of
      (for_each value (fun address =>
         match _cached_ip_addresses address with
         | Raise _ => raise TypeError
         | Return addr =>
             if decide (version addr = 4) then
               l <- read _ipv4_addresses ;; modify (set__ipv4_addresses (l ++ [addr]))
             else
               l <- read _ipv6_addresses ;; modify (set__ipv6_addresses (l ++ [addr]))
         end) s0) = Raise TypeError.
Proof.
  induction value as [|address value IH]; intros s0 Hbad.
  - by apply Exists_nil in Hbad.
  - cbn [for_each]. unfold _cached_ip_addresses, ip_address at 1.
    destruct (decide (length address = 4%nat)) as [H4|H4].
    + apply Exists_cons in Hbad as [[Hne _]|Hbad]; [done|].
      cbn [version]. destruct (decide (4 = 4)) as [_|Hne]; [|done].
      rewrite bind_assoc, bind_read, bind_modify. by apply IH.
    + destruct (decide (length address = 16%nat)) as [H16|H16].
      * apply Exists_cons in Hbad as [[_ Hne]|Hbad]; [done|].
        cbn [version]. destruct (decide (6 = 4)) as [Heq|_]; [discriminate|].
        rewrite bind_assoc, bind_read, bind_modify. by apply IH.
      * by rewrite bind_raise.
Qed.

Section Addresses.
Context `{Externals}.

(** X5: assigning [addresses] replaces both ledgers. When every
    address has 4 or 16 bytes the assignment succeeds: the IPv4 ledger
    holds the 4-byte addresses and the IPv6 ledger the 16-byte ones,
    each in the order given, [addresses] reads back the 4-byte ones and
    [addresses_by_version(All)] the 4-byte ones followed by the 16-byte
    ones. When some address has another length the assignment raises
    [TypeError]. *)
Theorem set_addresses_partitions (value : list bytes) (s : ServiceInfo) :
  (Forall (fun address => length address = 4%nat \/ length address = 16%nat) value ->
   let s' := set__ipv6_addresses (map IPv6Address (ipv6_of value))
               (set__ipv4_addresses (map IPv4Address (ipv4_of value)) s) in
   set_addresses value s = (Return tt, s', []) /\
   addresses s' = (Return (ipv4_of value), s', []) /\
   addresses_by_version All s' = (Return (ipv4_of value ++ ipv6_of value), s', [])) /\
  (Exists (fun address => length address <> 4%nat /\ length address <> 16%nat) value ->
   result_of (set_addresses value s) = Raise TypeError).
Proof.
  split.
  - intros Hall s'. split; [|split].
    + unfold set_addresses. rewrite !bind_modify.
      rewrite set_addresses_loop by done. subst s'. by destruct s.
    + unfold addresses, addresses_by_version. rewrite bind_read. subst s'. cbn.
      rewrite map_map. cbn. by rewrite map_id.
    + unfold addresses_by_version. rewrite !bind_read. subst s'. cbn.
      rewrite !map_map. cbn. by rewrite !map_id.
  - intros Hbad. unfold set_addresses. rewrite !bind_modify.
    by apply set_addresses_loop_fails.
Qed.

(** X6: a reload reads the cache once, for the server key, and yields
    the addresses of the cached records that have not expired and are
    well formed, the last cached first; expired and malformed records
    are skipped without an error. Without a server key nothing is read
    and the result is empty. *)
Theorem reload_keeps_live_addresses
    (zc : Zeroconf) (now type_ : Z) (s : ServiceInfo) :
  (forall host_key : string,
     server_key s = Some host_key ->
     let records := Dns.get_all_by_details (cache zc) host_key type_ _CLASS_IN in
     _get_ip_addresses_from_cache_lifo zc now type_ s =
       (Return (rev (omap (live_address now) records)), s,
        [CacheGetAllByDetails host_key type_ _CLASS_IN]) /\
     (forall ip : ip_addr,
        ip ∈ rev (omap (live_address now) records) <->
        exists record, record ∈ records /\
          is_expired (Dns.Address record) now = false /\
          _cached_ip_addresses (Dns.address record) = Return ip)) /\
  (server_key s = None ->
   _get_ip_addresses_from_cache_lifo zc now type_ s = (Return [], s, [])).
Proof.
  split.
  - intros host_key Hkey records. split.
    + by rewrite (_get_ip_addresses_from_cache_lifo_run _ _ _ _ _ Hkey).
    + intros ip. rewrite list_elem_of_In, <- in_rev, <- list_elem_of_In.
      rewrite list_elem_of_omap. unfold live_address.
      split; intros (record & Hin & Hlive); exists record; (split; [done|]).
      * destruct (is_expired (Dns.Address record) now); [done|].
        destruct (_cached_ip_addresses (Dns.address record)); [|done].
        split; [done|]. congruence.
      * destruct Hlive as [-> ->]. done.
  - intros Hkey. unfold _get_ip_addresses_from_cache_lifo,
      _get_address_records_from_cache_by_type.
    rewrite bind_assoc, bind_read, Hkey. by rewrite !bind_ret.
Qed.

End Addresses.

(** X5 witness: one IPv6 and two IPv4 addresses assigned at once. *)
Lemma set_addresses_partitions_witness :
  result_of (addresses (object_of (set_addresses [packed ip1; packed ip6; packed ip2] printer)))
    = Return [packed ip1; packed ip2].
Proof.
  destruct (proj1 (set_addresses_partitions [packed ip1; packed ip6; packed ip2] printer))
    as (Hset & Hget & _).
  - constructor; [left; reflexivity|].
    constructor; [right; reflexivity|].
    constructor; [left; reflexivity|constructor].
  - rewrite Hset. cbn [object_of fst snd]. rewrite Hget. reflexivity.
Defined.

(** X6 witness: of a stale and a fresh cached record, the reload keeps
    the fresh one. *)
Lemma reload_keeps_live_addresses_witness :
  _get_ip_addresses_from_cache_lifo zc_mixed 5000 _TYPE_A printer =
    (Return [ip2], printer, [CacheGetAllByDetails "host-a.local." _TYPE_A _CLASS_IN]).
Proof.
  exact (proj1 (proj1 (reload_keeps_live_addresses zc_mixed 5000 _TYPE_A printer)
                  "host-a.local."%string eq_refl)).
Defined.

(** ** The answer set *)

Section SetAsList.
Context `{EqDecision A}.
Implicit Types (x y : A) (l : list A).

Lemma set_add_elem_of x y l : y ∈ set_add x l <-> y ∈ l \/ y = x.
Proof.
  unfold set_add. destruct (contains x l) eqn:Hc.
  - apply contains_true in Hc. split; [by left|]. by intros [?| ->].
  - rewrite elem_of_app, list_elem_of_singleton. done.
Qed.

Lemma set_add_NoDup x l : NoDup l -> NoDup (set_add x l).
Proof.
  intros Hnd. unfold set_add. destruct (contains x l) eqn:Hc; [done|].
  apply contains_false in Hc. apply NoDup_app. split; [done|]. split.
  - intros y Hy Hx. apply list_elem_of_singleton in Hx. by subst.
  - apply NoDup_singleton.
Qed.

End SetAsList.

Lemma records_fold (records : list Dns.DNSRecord) :
  forall (missing : list Z) (seen : list Dns.DNSRecord),
    NoDup seen ->
    let result :=
      (foldl (fun '(missing_types, records) dns_address =>
                (discard (Dns.type (Dns.hd dns_address)) missing_types,
                 set_add dns_address records))
         (missing, seen) records).2 in
    NoDup result /\ forall r, r ∈ result <-> r ∈ seen \/ r ∈ records.
Proof.
  induction records as [|record records IH]; intros missing seen Hnd; cbn [foldl].
  - split; [done|]. intros r. split; [by left|]. intros [?|Hin]; [done|].
    by apply elem_of_nil in Hin.
  - destruct (IH (discard (Dns.type (Dns.hd record)) missing) (set_add record seen)
                (set_add_NoDup _ _ Hnd)) as [Hnd' Hin'].
    split; [done|]. intros r. rewrite Hin', set_add_elem_of, elem_of_cons. tauto.
Qed.

Section AnswerSet.
Context `{Externals}.

(** X7: when [get_address_and_nsec_records] returns, its set holds
    every record that [dns_addresses] emits for all versions and, when
    some address kind has no address, one NSEC record named after the
    instance that lists exactly the kinds without an address; it holds
    nothing else and no record twice. *)
Theorem answer_set_is_addresses_and_nsec
    (s : ServiceInfo) (override_ttl created : option Z) (records : list Dns.DNSRecord) :
  result_of (get_address_and_nsec_records override_ttl created s) = Return records ->
  exists address_records : list Dns.DNSRecord,
    dns_addresses override_ttl All created s = (Return address_records, s, []) /\
    NoDup records /\
    forall r : Dns.DNSRecord,
      r ∈ records <->
      r ∈ address_records \/
      (absent_kinds s <> [] /\
       r = Dns.DNSNsec
             (new_header (_name s) _TYPE_NSEC _CLASS_IN_UNIQUE
                (ttl_or override_ttl (host_ttl s)) created)
             (_name s) (absent_kinds s)).
Proof.
  unfold get_address_and_nsec_records.
  destruct (dns_addresses_run override_ttl created s) as (address_records & Hrun & Htypes).
  rewrite (bind_run_pure _ _ _ _ _ Hrun).
  pose proof (missing_types_fold address_records _ADDRESS_RECORD_TYPES [] []) as Hmissing.
  destruct (records_fold address_records _ADDRESS_RECORD_TYPES [] (NoDup_nil_2))
    as [Hnd Hin].
  destruct (foldl _ _ address_records) as [missing seen]. cbn [fst snd] in *.
  rewrite Htypes in Hmissing. fold (absent_kinds s) in Hmissing. subst missing.
  intros Hres. exists address_records. split; [done|].
  destruct (absent_kinds s) as [|kind kinds] eqn:Habs; cbn [truthy] in Hres.
  - injection Hres as <-. split; [done|]. intros r. rewrite Hin.
    split; [intros [Hnil|?]; [by apply elem_of_nil in Hnil|by left]|].
    intros [?|[Hne _]]; [by right|done].
  - rewrite bind_read in Hres. destruct (server s); [|discriminate].
    unfold dns_nsec in Hres. mstep_in Hres.
    unfold ret, result_of in Hres. cbn [fst] in Hres.
    injection Hres as <-. split; [by apply set_add_NoDup|].
    intros r. rewrite set_add_elem_of, Hin.
    split.
    + intros [[Hnil|?]| ->]; [by apply elem_of_nil in Hnil|by left|by right].
    + intros [?|[_ ->]]; [left; by right|by right].
Qed.

(** X8: [set_server_if_missing] never fails and leaves an object with a
    server: the one it had, or else the instance name with the service
    key as server key. A second call changes nothing, and after it the
    answer set can always be built. *)
Theorem set_server_if_missing_makes_answers_safe
    (s : ServiceInfo) (override_ttl created : option Z) :
  let s' := object_of (set_server_if_missing s) in
  set_server_if_missing s = (Return tt, s', []) /\
  server s' = Some (default (_name s) (server s)) /\
  server_key s' = match server s with Some _ => server_key s | None => Some (key s) end /\
  set_server_if_missing s' = (Return tt, s', []) /\
  exists records,
    get_address_and_nsec_records override_ttl created s' = (Return records, s', []).
Proof.
  intros s'.
  assert (Hrun : set_server_if_missing s = (Return tt, s', []) /\
                 server s' = Some (default (_name s) (server s)) /\
                 server_key s' =
                   match server s with Some _ => server_key s | None => Some (key s) end).
  { subst s'. unfold set_server_if_missing. rewrite bind_read.
    destruct (server s) eqn:Hsrv.
    - cbn. by rewrite Hsrv.
    - by rewrite bind_read, bind_modify, bind_read. }
  destruct Hrun as (Hrun & Hsrv & Hkey). repeat split; try done.
  - unfold set_server_if_missing. rewrite bind_read, Hsrv. done.
  - pose proof (get_address_and_nsec_records_run override_ttl created s') as Hget.
    rewrite Hsrv in Hget. by destruct (absent_kinds s').
Qed.

End AnswerSet.

(** X7 witness: the sample resolver with one IPv4 address answers with
    its A record and an NSEC record for AAAA. *)
Lemma answer_set_is_addresses_and_nsec_witness :
  exists address_records : list Dns.DNSRecord,
    dns_addresses None All None printer_resolved =
      (Return address_records, printer_resolved, []) /\
    length address_records = 1%nat.
Proof.
  destruct (answer_set_is_addresses_and_nsec printer_resolved None None _ eq_refl)
    as (address_records & Hrun & _).
  exists address_records. split; [exact Hrun|].
  assert (Heq : Return address_records =
                result_of (dns_addresses None All None printer_resolved))
    by (by rewrite Hrun).
  injection Heq as ->. reflexivity.
Defined.

(** ** The TXT codec at its edges *)

Lemma unpack_loop_wire_then (entries : list bytes) :
  forall (prefix rest : bytes) (pairs : list bytes),
    Forall (fun entry => (length entry <= 255)%nat) entries ->
    unpack_loop (prefix ++ wire entries ++ rest) (length prefix) pairs =
    unpack_loop ((prefix ++ wire entries) ++ rest) (length (prefix ++ wire entries))
      (pairs ++ entries).
Proof.
  induction entries as [|entry entries IH]; intros prefix rest pairs Hall; cbn [wire].
  - cbn [app]. by rewrite !app_nil_r.
  - apply Forall_cons in Hall as [Hle Hall].
    replace (prefix ++ (length_byte entry :: entry ++ wire entries) ++ rest)
      with (prefix ++ length_byte entry :: entry ++ (wire entries ++ rest))
      by (repeat (rewrite <- app_assoc || rewrite <- app_comm_cons); reflexivity).
    rewrite unpack_loop_entry by (by apply length_byte_to_nat).
    rewrite IH by done.
    replace ((prefix ++ length_byte entry :: entry) ++ wire entries)
      with (prefix ++ length_byte entry :: entry ++ wire entries)
      by (repeat (rewrite <- app_assoc || rewrite <- app_comm_cons); reflexivity).
    f_equal. by rewrite <- app_assoc.
Qed.

(** X9: a text whose last length byte announces more bytes than are
    left is not an error: the entries before it are read as usual and
    the bytes that are left form the last payload. *)
Theorem truncated_entry_is_read_short
    (entries : list bytes) (lb : byte) (tail_ : bytes) :
  Forall (fun entry => (length entry <= 255)%nat) entries ->
  (length tail_ <= Byte.to_nat lb)%nat ->
  unpack_loop (wire entries ++ lb :: tail_) 0 [] = entries ++ [tail_].
Proof.
  intros Hall Hshort.
  pose proof (unpack_loop_wire_then entries [] (lb :: tail_) [] Hall) as Hread.
  cbn [app length] in Hread. rewrite Hread.
  rewrite unpack_loop_step.
  rewrite decide_True by (rewrite length_app; cbn [length]; lia).
  cbv zeta.
  assert (Hnth : nth (length (wire entries)) (wire entries ++ lb :: tail_) "000"%byte = lb).
  { rewrite app_nth2 by lia. by rewrite Nat.sub_diag. }
  rewrite Hnth.
  assert (Hslice : slice (wire entries ++ lb :: tail_) (length (wire entries) + 1)
                     (length (wire entries) + 1 + Byte.to_nat lb) = tail_).
  { unfold slice.
    replace (wire entries ++ lb :: tail_) with ((wire entries ++ [lb]) ++ tail_)
      by (by rewrite <- app_assoc).
    rewrite drop_app_length'; [|rewrite length_app; cbn [length]; lia].
    apply take_ge. lia. }
  rewrite Hslice. apply unpack_loop_end.
  rewrite length_app. cbn [length]. lia.
Qed.

(** X9 witness: [a=1] followed by a length byte of 9 and two bytes. *)
Lemma truncated_entry_is_read_short_witness :
  unpack_loop (wire [b "a=1"] ++ "009"%byte :: b "xy") 0 [] = [b "a=1"; b "xy"].
Proof.
  apply (truncated_entry_is_read_short [b "a=1"] "009"%byte (b "xy")).
  - constructor; [vm_compute; lia|constructor].
  - vm_compute. lia.
Defined.

Lemma bytes_of_len_oversize (n : nat) : (255 < n)%nat -> bytes_of_len n = Raise ValueError.
Proof.
  intros Hbig. unfold bytes_of_len.
  pose proof (Byte.to_of_nat_option_map n) as Hmap.
  destruct (Byte.of_nat n); [|done]. simpl in Hmap.
  destruct (Nat.leb_spec n 255); [lia|discriminate].
Qed.

Lemma join_items_oversize (items : list bytes) :
  forall result : bytes,
    Exists (fun item => (255 < length item)%nat) items ->
    join_items items result = Raise ValueError.
Proof.
  induction items as [|item items IH]; intros result Hbig.
  - by apply Exists_nil in Hbig.
  - cbn [join_items]. destruct (decide (255 < length item)%nat) as [Hitem|Hitem].
    + by rewrite bytes_of_len_oversize.
    + apply Exists_cons in Hbig as [?|Hbig]; [done|].
      rewrite bytes_of_len_length_byte by lia. by apply IH.
Qed.

(** X10: a mapping with an entry of more than 255 encoded bytes makes
    [_set_properties] raise [ValueError]. The text is left as it was,
    but the properties cache already holds the new mapping. *)
Theorem oversize_entry_raises (m : properties_dict) (s : ServiceInfo) :
  Exists (fun kv => (255 < length (property_record kv))%nat) m ->
  _set_properties m s = (Raise ValueError, set__properties (Some m) s, []) /\
  text (object_of (_set_properties m s)) = text s /\
  _properties (object_of (_set_properties m s)) = Some m.
Proof.
  intros Hbig.
  assert (Hrun : _set_properties m s = (Raise ValueError, set__properties (Some m) s, [])).
  { rewrite _set_properties_run. rewrite join_items_oversize; [done|].
    by apply Exists_fmap. }
  by rewrite Hrun.
Qed.

(** X10 witness: a key of 256 bytes. *)
Lemma oversize_entry_raises_witness :
  result_of (_set_properties oversize_properties printer) = Raise ValueError.
Proof.
  rewrite (proj1 (oversize_entry_raises oversize_properties printer
                    ltac:(constructor; vm_compute; lia))).
  reflexivity.
Defined.

Lemma property_item_record_any (kv : pyval * option pyval) :
  EQUALS ∉ as_bytes kv.1 -> property_item (property_record kv) = decoded_entry kv.
Proof.
  destruct kv as [k v]. cbn [fst]. intros Hout.
  unfold property_item, property_record, decoded_entry. cbn [fst snd].
  fold (as_bytes k). destruct v as [v|].
  - fold (as_bytes v). cbn [app]. by rewrite partition_first_separator.
  - by rewrite partition_no_separator.
Qed.

(** X11: the round trip of any mapping whose keys are distinct as
    bytes and free of [=] and whose entries fit in 255 bytes: the text
    written by [_set_properties] decodes to the entries of the mapping
    in reverse order, with text keys and values as their UTF-8 bytes
    and empty values as [None]. *)
Theorem round_trip_normalises (m : properties_dict) (s : ServiceInfo) :
  NoDup (map (fun kv => as_bytes kv.1) m) ->
  Forall (fun kv => (EQUALS ∉ as_bytes kv.1) /\ (length (property_record kv) <= 255)%nat) m ->
  exists text_ : bytes,
    _set_properties m s =
      (Return tt, set_text (Some text_) (set__properties (Some m) s), []) /\
    forall s1 : ServiceInfo,
      text s1 = Some text_ ->
      _unpack_text_into_properties s1 =
        (Return tt, set__properties (Some (rev (map decoded_entry m))) s1, []).
Proof.
  intros Hnd Hwf.
  assert (Hlen : Forall (fun item => (length item <= 255)%nat) (map property_record m)).
  { apply Forall_map. eapply Forall_impl; [exact Hwf|]. by intros kv [_ Hle]. }
  assert (Hback : map property_item (map property_record m) = map decoded_entry m).
  { rewrite map_map. apply map_ext_Forall. eapply Forall_impl; [exact Hwf|].
    intros kv [Hkv _]. by apply property_item_record_any. }
  exists (wire (map property_record m)). split.
  - rewrite _set_properties_run. by rewrite join_items_wire.
  - intros s1 Ht. rewrite (_unpack_text_into_properties_run _ _ Ht).
    pose proof (unpack_loop_wire _ [] [] Hlen) as Hread. cbn [app length] in Hread.
    rewrite Hread, Hback. rewrite dict_of_items_NoDup; [done|].
    rewrite map_rev, <- Permutation_rev, map_map. cbn [decoded_entry fst].
    clear -Hnd. induction m as [|kv m IH]; [constructor|].
    cbn [map] in *. apply NoDup_cons in Hnd as [Hout Hnd].
    apply NoDup_cons. split; [|by apply IH].
    intros Hin. apply Hout. clear -Hin.
    induction m as [|kv' m IH]; [by apply elem_of_nil in Hin|].
    cbn [map] in *. apply elem_of_cons in Hin as [[= ->]|Hin]; [by left|].
    right. by apply IH.
Qed.

(** X11 witness: [{"path": "/", b"empty": b""}]. *)
Lemma round_trip_normalises_witness :
  exists text_ : bytes,
    text (object_of (_set_properties mixed_properties printer)) = Some text_ /\
    _properties (object_of (_unpack_text_into_properties
                              (object_of (_set_properties mixed_properties printer))))
      = Some [(PyBytes (b "empty"), None); (PyBytes (b "path"), Some (PyBytes (b "/")))].
Proof.
  assert (Hnd : NoDup (map (fun kv => as_bytes kv.1) mixed_properties)).
  { apply (bool_decide_unpack _). vm_compute. exact I. }
  assert (Hwf : Forall (fun kv => (EQUALS ∉ as_bytes kv.1) /\
                          (length (property_record kv) <= 255)%nat) mixed_properties).
  { constructor; [|constructor; [|constructor]];
      (split; [apply (bool_decide_unpack _); vm_compute; exact I|vm_compute; lia]). }
  destruct (round_trip_normalises mixed_properties printer Hnd Hwf)
    as (text_ & Hset & Hunpack).
  exists text_. rewrite Hset. cbn [object_of fst snd].
  rewrite (Hunpack (set_text (Some text_) (set__properties (Some mixed_properties) printer))
             eq_refl).
  split; reflexivity.
Defined.

(** ** The properties cache *)

Lemma properties_cached (s : ServiceInfo) (d : properties_dict) :
  _properties s = Some d -> properties s = (Return (Some d), s, []).
Proof. intros Hd. unfold properties. mstep. rewrite Hd. mstep. unfold read. by rewrite Hd. Qed.

(** X12: [properties] is memoised and returns the constructor's own
    dictionary. A second read returns what the first returned and
    changes nothing; after [_set_properties] has succeeded the read
    returns the very mapping that was passed in, text keys and all,
    not the decoding of the text. *)
Theorem properties_is_memoised (s : ServiceInfo) :
  properties (object_of (properties s)) =
    (result_of (properties s), object_of (properties s), []) /\
  forall (m : properties_dict) (s0 : ServiceInfo),
    _set_properties m s0 = (Return tt, s, []) ->
    properties s = (Return (Some m), s, []).
Proof.
  split.
  - destruct (_properties s) as [d|] eqn:Hd.
    + rewrite (properties_cached _ _ Hd). cbn [result_of object_of fst snd].
      by apply properties_cached.
    + assert (Hrun : exists d, properties s = (Return (Some d), set__properties (Some d) s, [])).
      { unfold properties, _unpack_text_into_properties. mstep. rewrite Hd. mstep.
        destruct (text s) as [[|c t]|]; mstep; unfold read; eauto. }
      destruct Hrun as [d ->]. cbn [result_of object_of fst snd].
      by apply properties_cached.
  - intros m s0 Hset. rewrite _set_properties_run in Hset.
    destruct (join_items (map property_record m) []); [|discriminate].
    injection Hset as <-. by apply properties_cached.
Qed.

(** X12 witness: the mapping with a text key comes back as it was. *)
Lemma properties_is_memoised_witness :
  result_of (properties (object_of (_set_properties mixed_properties printer))) =
    Return (Some mixed_properties).
Proof.
  rewrite (proj2 (properties_is_memoised
                    (object_of (_set_properties mixed_properties printer)))
             mixed_properties printer eq_refl).
  reflexivity.
Defined.

Section TextCache.
Context `{Externals}.

Lemma text_record_run
    (zc : Zeroconf) (s : ServiceInfo) (h : Dns.header) (text_ : bytes) (now : Z) :
  is_expired (Dns.DNSText h text_) now = false ->
  Dns.key h = key s ->
  Dns.type h = _TYPE_TXT ->
  Some text_ <> text s ->
  _process_record_threadsafe zc (Dns.DNSText h text_) now s =
    (Return true, set__properties None (set_text (Some text_) s), []).
Proof.
  intros Hlive Hkey Htype Hnew.
  unfold _process_record_threadsafe. rewrite Hlive. mstep.
  unfold process_keyed_record. mstep. cbn [Dns.hd].
  destruct (decide (Dns.key h <> key s)) as [Hne|_]; [by destruct Hne|].
  destruct (decide (Dns.type h = _TYPE_TXT)) as [_|Hne]; [|by destruct Hne].
  rewrite (bind_run_pure _ _ _ _ _ (_set_text_run text_ s)).
  by destruct (decide (Some text_ = text s)).
Qed.

(** X13: a live TXT record with other bytes than the stored text
    invalidates the properties cache: the next read of [properties]
    returns the decoding of the record's bytes, whatever mapping was
    cached before, and caches it. *)
Theorem changed_text_is_decoded_afresh
    (zc : Zeroconf) (s : ServiceInfo) (h : Dns.header) (text_ : bytes) (now : Z) :
  is_expired (Dns.DNSText h text_) now = false ->
  Dns.key h = key s ->
  Dns.type h = _TYPE_TXT ->
  Some text_ <> text s ->
  let s' := object_of (_process_record_threadsafe zc (Dns.DNSText h text_) now s) in
  text s' = Some text_ /\
  properties s' =
    (Return (Some (decoded text_)), set__properties (Some (decoded text_)) s', []).
Proof.
  intros Hlive Hkey Htype Hnew s'. subst s'.
  rewrite (text_record_run _ _ _ _ _ Hlive Hkey Htype Hnew). cbn [object_of fst snd].
  split; [done|]. by apply properties_run.
Qed.

End TextCache.

(** X13 witness: the constructor's mapping is replaced by the decoding
    of the TXT record that arrives. *)
Lemma changed_text_is_decoded_afresh_witness :
  result_of (properties
               (object_of (_process_record_threadsafe zc_empty (printer_text (b (String "003" "a=1")))
                             5 (object_of (_set_properties mixed_properties printer)))))
    = Return (Some [(PyBytes (b "a"), Some (PyBytes (b "1")))]).
Proof.
  destruct (@changed_text_is_decoded_afresh reference_externals zc_empty
              (object_of (_set_properties mixed_properties printer))
              (printer_header _TYPE_TXT) (b (String "003" "a=1")) 5
              eq_refl eq_refl eq_refl) as [_ Hread].
  - vm_compute. discriminate.
  - unfold printer_text. rewrite Hread. reflexivity.
Defined.

(** ** Cache loads and update batches *)

Section Loading.
Context `{Externals}.

#[local] Hint Resolve _process_record_threadsafe_never_raises
  _process_record_threadsafe_events : contracts.

Lemma _process_record_threadsafe_untouched
    (zc : Zeroconf) (record : Dns.DNSRecord) (now : Z)
    (c : string * Z * Z * option Z) (f : list nat) :
  keeps (fun s => configuration s = c /\ _new_records_futures s = f)
    (_process_record_threadsafe zc record now).
Proof.
  apply _process_record_threadsafe_keeps.
  - by intros ? ? [? ?].
  - by intros ? ? [? ?].
  - by intros ? ? [? ?].
  - by intros ? ? ? ? ? ? ? _ [? ?].
Qed.

#[local] Hint Resolve _process_record_threadsafe_untouched : contracts.

Lemma load_from_cache_never_raises (zc : Zeroconf) (now : option Z) (ctm : Z) :
  never_raises (load_from_cache zc now ctm).
Proof.
  unfold load_from_cache, _get_address_records_from_cache_by_type, _is_complete.
  cbv zeta. contract.
Qed.

Lemma load_from_cache_untouched (zc : Zeroconf) (now : option Z) (ctm : Z)
    (c : string * Z * Z * option Z) (f : list nat) :
  keeps (fun s => configuration s = c /\ _new_records_futures s = f)
    (load_from_cache zc now ctm).
Proof.
  unfold load_from_cache, _get_address_records_from_cache_by_type, _is_complete.
  cbv zeta. contract.
Qed.

Lemma load_from_cache_events (zc : Zeroconf) (now : option Z) (ctm : Z) :
  emits_only is_cache_read_or_log (load_from_cache zc now ctm).
Proof.
  unfold load_from_cache, _get_address_records_from_cache_by_type, _is_complete.
  cbv zeta. contract.
Qed.

Lemma load_from_cache_ensures (zc : Zeroconf) (now : option Z) (ctm : Z) :
  ensures (fun complete s => _is_complete s = (Return complete, s, []))
    (load_from_cache zc now ctm).
Proof.
  unfold load_from_cache. cbv zeta.
  repeat match goal with
         | |- ensures _ (bind _ _) => apply ensures_bind; intros ?
         end.
  intros s0 complete s1 ev. unfold _is_complete, read. by intros [= <- <- _].
Qed.

(** X14: a cache load never raises, and its value is the completeness
    of the object it leaves. It leaves the type, the two TTLs, the
    interface index and the waiter registry as they were, and all it
    does outside the object is read the cache and write to the log. *)
Theorem load_from_cache_reports_completeness
    (zc : Zeroconf) (now : option Z) (current_time_millis : Z) (s : ServiceInfo) :
  let r := load_from_cache zc now current_time_millis s in
  (exists complete : bool,
     result_of r = Return complete /\
     _is_complete (object_of r) = (Return complete, object_of r, [])) /\
  configuration (object_of r) = configuration s /\
  _new_records_futures (object_of r) = _new_records_futures s /\
  Forall is_cache_read_or_log (events_of r).
Proof.
  intros r. split; [|split; [|split]].
  - destruct (load_from_cache_never_raises zc now current_time_millis s) as [complete Hr].
    exists complete. split; [done|].
    apply (load_from_cache_ensures zc now current_time_millis s complete _ (events_of r)).
    fold r. rewrite <- Hr. by rewrite run_eta.
  - by apply (load_from_cache_untouched zc now current_time_millis
                (configuration s) (_new_records_futures s) s).
  - by apply (load_from_cache_untouched zc now current_time_millis
                (configuration s) (_new_records_futures s) s).
  - apply load_from_cache_events.
Qed.

(** X15: an update batch never raises and notifies the waiters at most
    once, after every record of the batch has been applied, with the
    registry as it stood when the batch arrived; with no waiter
    registered it notifies nobody. Before that it only reads the cache
    and writes to the log; the type, the TTLs and the interface index
    stay as they were. *)
Theorem update_batch_notifies_at_most_once
    (zc : Zeroconf) (now : Z) (records : list RecordUpdate) (s : ServiceInfo) :
  let r := async_update_records zc now records s in
  result_of r = Return tt /\
  configuration (object_of r) = configuration s /\
  exists reads : list event,
    Forall is_cache_read_or_log reads /\
    (events_of r = reads \/
     _new_records_futures s <> [] /\
     events_of r = reads ++ [ResolveAllFuturesToNone (_new_records_futures s)]).
Proof.
  intros r. subst r. unfold async_update_records. rewrite bind_read.
  match goal with |- context [bind (?f records false) _] => set (loop := f) end.
  assert (Hnr : forall records updated, never_raises (loop records updated)).
  { intros l. induction l as [|record_update l IH]; intros updated; [intros self; by exists updated|].
    apply never_raises_bind; [trivial with contracts|]. intros changed. apply IH. }
  assert (Hkeep : forall records updated,
            keeps (fun s0 => configuration s0 = configuration s /\
                             _new_records_futures s0 = _new_records_futures s)
              (loop records updated)).
  { intros l. induction l as [|record_update l IH]; intros updated; [by intros ? ?|].
    apply keeps_bind; [trivial with contracts|]. intros changed. apply IH. }
  assert (Hev : forall records updated,
            emits_only is_cache_read_or_log (loop records updated)).
  { intros l. induction l as [|record_update l IH]; intros updated; [intros self; by constructor|].
    apply emits_only_bind; [trivial with contracts|]. intros changed. apply IH. }
  destruct (Hnr records false s) as [updated Hupdated].
  specialize (Hkeep records false s (conj eq_refl eq_refl)) as [Hconf Hfut].
  specialize (Hev records false s).
  destruct (loop records false s) as [[res s1] reads] eqn:Hloop.
  unfold result_of, object_of, events_of in Hupdated, Hconf, Hfut, Hev.
  cbn [fst snd] in Hupdated, Hconf, Hfut, Hev. subst res.
  rewrite (bind_run _ _ _ _ _ _ Hloop). cbn [result_of object_of events_of fst snd].
  destruct updated; cbn [andb]; [|by (repeat split; [|exists reads; split; [|left; rewrite app_nil_r]])].
  destruct (_new_records_futures s) as [|future futures] eqn:Hs; cbn [truthy negb when].
  - repeat split; [done|]. exists reads. split; [done|]. left. by rewrite app_nil_r.
  - unfold when, _resolve_all_futures_to_none. rewrite bind_read, bind_emit, Hfut.
    cbn [result_of object_of events_of fst snd modify].
    repeat split; [done|]. exists reads. split; [done|]. by right.
Qed.

End Loading.

(** ** The resolution driver and its listener *)

Lemma emits_only_weaken {A} (P Q : event -> Prop) (m : M A) :
  (forall e, P e -> Q e) -> emits_only P m -> emits_only Q m.
Proof. intros HPQ Hm s. by apply (Forall_impl P). Qed.

Lemma cache_read_or_log_is_no_listener_event (e : event) :
  is_cache_read_or_log e -> is_listener_event e = false.
Proof. by destruct e. Qed.

Lemma raises_only_bind {A B} (P : exn -> Prop) (m : M A) (k : A -> M B) :
  raises_only P m -> (forall a, raises_only P (k a)) -> raises_only P (bind m k).
Proof.
  intros Hm Hk s e. specialize (Hm s). unfold bind, result_of in *.
  destruct (m s) as [[[a|e'] s1] ev1]; cbn [fst] in *.
  - specialize (Hk a s1 e). unfold result_of in Hk.
    by destruct (k a s1) as [[r s2] ev2].
  - intros [= <-]. by apply Hm.
Qed.

Lemma never_raises_raises_only {A} (P : exn -> Prop) (m : M A) :
  never_raises m -> raises_only P m.
Proof. intros Hm s e He. destruct (Hm s) as [a Ha]. congruence. Qed.

Section Driver.
Context `{Externals}.

Lemma load_from_cache_no_listener (zc : Zeroconf) (now : option Z) (ctm : Z) :
  emits_only (fun e => is_listener_event e = false) (load_from_cache zc now ctm).
Proof.
  apply (emits_only_weaken is_cache_read_or_log);
    [apply cache_read_or_log_is_no_listener_event|apply load_from_cache_events].
Qed.

Lemma _process_record_threadsafe_no_listener
    (zc : Zeroconf) (record : Dns.DNSRecord) (now : Z) :
  emits_only (fun e => is_listener_event e = false)
    (_process_record_threadsafe zc record now).
Proof.
  apply (emits_only_weaken is_cache_read_or_log);
    [apply cache_read_or_log_is_no_listener_event|apply _process_record_threadsafe_events].
Qed.

#[local] Hint Resolve load_from_cache_never_raises load_from_cache_no_listener
  _process_record_threadsafe_never_raises _process_record_threadsafe_no_listener
  : contracts.

Lemma async_update_records_never_raises
    (zc : Zeroconf) (now : Z) (records : list RecordUpdate) :
  never_raises (async_update_records zc now records).
Proof.
  unfold async_update_records. apply never_raises_bind; [contract|intros futures].
  apply never_raises_bind.
  - generalize false. induction records as [|r records IH]; intros updated;
      [intros self; by exists updated|].
    apply never_raises_bind; [trivial with contracts|]. intros ?. apply IH.
  - intros updated. unfold _resolve_all_futures_to_none. contract.
Qed.

Lemma async_update_records_no_listener
    (zc : Zeroconf) (now : Z) (records : list RecordUpdate) :
  emits_only (fun e => is_listener_event e = false) (async_update_records zc now records).
Proof.
  unfold async_update_records. apply emits_only_bind; [contract|intros futures].
  apply emits_only_bind.
  - match goal with
    | |- emits_only ?P (?loop records false) =>
        cut (forall updated, emits_only P (loop records updated)); [by intros Hloop|]
    end.
    induction records as [|r records IH]; intros updated;
      [intros self; by constructor|].
    apply emits_only_bind; [trivial with contracts|]. intros ?. apply IH.
  - intros updated. unfold _resolve_all_futures_to_none. contract.
Qed.

#[local] Hint Resolve async_update_records_never_raises async_update_records_no_listener
  : contracts.

Lemma async_wait_raises_only (zc : Zeroconf) (w : wakeup) (timeout : Z) :
  raises_only (fun e => e = AssertionError) (async_wait zc w timeout).
Proof.
  unfold async_wait. cbv zeta. destruct (running_loop w).
  - apply never_raises_raises_only. unfold wait_for_future_set_or_timeout. contract.
  - intros self e. by intros [= <-].
Qed.

Lemma async_wait_no_listener (zc : Zeroconf) (w : wakeup) (timeout : Z) :
  emits_only (fun e => is_listener_event e = false) (async_wait zc w timeout).
Proof. unfold async_wait, wait_for_future_set_or_timeout. cbv zeta. contract. Qed.

#[local] Hint Resolve async_wait_raises_only async_wait_no_listener : contracts.

Ltac raises_only_step :=
  match goal with
  | |- raises_only _ (bind _ _) => apply raises_only_bind; [|intros ?]
  | |- raises_only _ (if ?c then _ else _) => destruct c
  | |- raises_only _ (match ?x with _ => _ end) => destruct x
  | |- raises_only _ _ => apply never_raises_raises_only; solve [contract]
  end.

(** The loop of [async_request] raises nothing but the assertion of
    [async_wait]. *)
Lemma request_loop_raises_only (schedule : list wakeup) :
  forall zc question_type addr port_ first_request delay next_ last now,
    raises_only (fun e => e = AssertionError)
      (request_loop schedule zc question_type addr port_
         first_request delay next_ last now).
Proof.
  induction schedule as [|w schedule IH]; intros; cbn [request_loop];
    unfold _is_complete, generate_request_query; cbv zeta;
    repeat first [ solve [trivial with contracts] | raises_only_step ].
Qed.

Lemma request_loop_no_listener (schedule : list wakeup) :
  forall zc question_type addr port_ first_request delay next_ last now,
    emits_only (fun e => is_listener_event e = false)
      (request_loop schedule zc question_type addr port_
         first_request delay next_ last now).
Proof.
  induction schedule as [|w schedule IH]; intros; cbn [request_loop];
    unfold _is_complete, generate_request_query; cbv zeta; contract.
Qed.

Lemma listener_events_none (events : list event) :
  Forall (fun e => is_listener_event e = false) events -> listener_events events = [].
Proof.
  unfold listener_events. induction 1 as [|e events He _ IH]; [done|].
  cbn [List.filter]. by rewrite He.
Qed.


(** X17: with a timeout that is not positive [async_request] asks
    nothing of the network, however the wake-ups would fall: it loads
    from the cache and answers with the completeness the load found; if
    that is [False] it registers the listener and removes it at once. *)
Theorem no_time_means_no_query
    (schedule : list wakeup) (zc : Zeroconf) (timeout : Z)
    (question_type : option Dns.DNSQuestionType) (addr : option string) (port_ : Z)
    (now : Z) (s : ServiceInfo) :
  timeout <= 0 ->
  let loaded := load_from_cache zc (Some now) now s in
  exists complete : bool,
    result_of loaded = Return complete /\
    async_request schedule zc timeout question_type addr port_ now s =
      (Return (Some complete), object_of loaded,
       events_of loaded ++
         if complete then [] else [AsyncAddListener; AsyncRemoveListener]).
Proof.
  intros Htimeout loaded. subst loaded. unfold async_request.
  destruct (load_from_cache_never_raises zc (Some now) now s) as [complete Hcomplete].
  exists complete. split; [done|].
  pose proof (load_from_cache_ensures zc (Some now) now s complete
                (object_of (load_from_cache zc (Some now) now s))
                (events_of (load_from_cache zc (Some now) now s))) as Hsame.
  rewrite <- Hcomplete, run_eta in Hsame. specialize (Hsame eq_refl).
  destruct (load_from_cache zc (Some now) now s) as [[res s1] ev1] eqn:Hload.
  unfold result_of in Hcomplete. cbn [fst snd object_of events_of] in *. subst res.
  rewrite (bind_run _ _ _ _ _ _ Hload).
  destruct complete; [done|].
  cbv zeta. unfold try_finally. rewrite bind_emit.
  assert (Hloop : request_loop schedule zc question_type addr port_ true
                    _LISTENER_TIME now (now + timeout) now s1 =
                  (Return (Some false), s1, [])).
  { destruct schedule; cbn [request_loop];
      rewrite (bind_run_pure _ _ _ _ _ Hsame);
      by destruct (decide (now + timeout <= now)) as [_|Hlate]; [|lia]. }
  rewrite Hloop. reflexivity.
Qed.

End Driver.


(** X17 witness: no time at all for the sample resolver, whose cache is
    empty. *)
Lemma no_time_means_no_query_witness :
  async_request silent_network zc_empty 0 None None _MDNS_PORT 1000 printer =
    (Return (Some false), printer,
     [CacheGetByDetails "Printer._http._tcp.local." _TYPE_SRV _CLASS_IN;
      CacheGetByDetails "Printer._http._tcp.local." _TYPE_TXT _CLASS_IN;
      CacheGetAllByDetails "host-a.local." _TYPE_A _CLASS_IN;
      CacheGetAllByDetails "host-a.local." _TYPE_AAAA _CLASS_IN;
      AsyncAddListener; AsyncRemoveListener]).
Proof.
  destruct (@no_time_means_no_query reference_externals silent_network zc_empty 0
              None None _MDNS_PORT 1000 printer) as (complete & Hcomplete & Hrun).
  - lia.
  - rewrite Hrun. vm_compute in Hcomplete. injection Hcomplete as <-. reflexivity.
Defined.

(** ** Construction *)

Lemma bind_result_Raise {A B} (m : M A) (k : A -> M B) (s : ServiceInfo) (e : exn) :
  result_of (m s) = Raise e -> result_of (bind m k s) = Raise e.
Proof.
  unfold bind, result_of. destruct (m s) as [[[a|e'] s1] ev1]; cbn [fst]; [done|].
  by intros [= ->].
Qed.

Section Constructor.
Context `{Externals}.

Lemma set_addresses_run (value : list bytes) (s0 : ServiceInfo) :
  set_addresses value s0 =
    (Return tt,
     set__ipv6_addresses (map IPv6Address (ipv6_of value))
       (set__ipv4_addresses (map IPv4Address (ipv4_of value)) s0), []) \/
  result_of (set_addresses value s0) = Raise TypeError.
Proof.
  destruct (decide (Forall (fun address => length address = 4%nat \/
                                           length address = 16%nat) value)) as [Hall|Hbad].
  - left. unfold set_addresses. rewrite !bind_modify.
    rewrite set_addresses_loop by done. by destruct s0.
  - right. unfold set_addresses. rewrite !bind_modify.
    apply set_addresses_loop_fails. apply not_Forall_Exists in Hbad; [|apply _].
    eapply Exists_impl; [exact Hbad|]. intros address Hno. cbn in Hno. split; tauto.
Qed.

Lemma init_addresses_run
    (addresses : option (list bytes)) (parsed_addresses : option (list string))
    (s0 : ServiceInfo) :
  let m :=
    match addresses, parsed_addresses with
    | Some addresses, _ => set_addresses addresses
    | None, Some parsed_addresses =>
        encoded <-
          (fix encode_all (l : list string) : M (list bytes) :=
             match l with
             | [] => ret []
             | a :: l' =>
                 b <- lift (_encode_address a) ;;
                 bs <- encode_all l' ;;
                 ret (b :: bs)
             end) parsed_addresses ;;
        set_addresses encoded
    | None, None => ret tt
    end in
  (exists e, result_of (m s0) = Raise e) \/
  (exists l4 l6,
     m s0 = (Return tt, set__ipv6_addresses l6 (set__ipv4_addresses l4 s0), []) /\
     (addresses = None -> parsed_addresses = None ->
      l4 = _ipv4_addresses s0 /\ l6 = _ipv6_addresses s0) /\
     (forall value, addresses = Some value ->
      l4 = map IPv4Address (ipv4_of value) /\ l6 = map IPv6Address (ipv6_of value))).
Proof.
  intros m. subst m. destruct addresses as [value|].
  - destruct (set_addresses_run value s0) as [Hrun|Hfail]; [right|left; by eexists].
    eexists _, _. split; [exact Hrun|]. split; [done|]. by intros ? [= <-].
  - destruct parsed_addresses as [parsed|].
    + match goal with |- context [bind (?f parsed) _] => set (encode_all := f) end.
      assert (Hencode : forall l,
                (exists bs, encode_all l s0 = (Return bs, s0, [])) \/
                (exists e, result_of (encode_all l s0) = Raise e)).
      { induction l as [|a l IH]; [left; by eexists|].
        assert (Hstep : encode_all (a :: l) =
                        (b <- lift (_encode_address a) ;;
                         bs <- encode_all l ;;
                         ret (b :: bs))) by reflexivity.
        rewrite Hstep.
        destruct (_encode_address a) as [encoded|e]; [|right; by exists e].
        rewrite bind_lift_Return.
        destruct IH as [[bs Hbs]|[e He]].
        - left. exists (encoded :: bs). by rewrite (bind_run_pure _ _ _ _ _ Hbs).
        - right. exists e. by apply bind_result_Raise. }
      destruct (Hencode parsed) as [[bs Hbs]|[e He]].
      * rewrite (bind_run_pure _ _ _ _ _ Hbs).
        destruct (set_addresses_run bs s0) as [Hrun|Hfail]; [right|left; by eexists].
        eexists _, _. split; [exact Hrun|]. by split.
      * left. exists e. by apply bind_result_Raise.
    + right. exists (_ipv4_addresses s0), (_ipv6_addresses s0).
      split; [by destruct s0|]. by split.
Qed.

(** X18: the constructor validates its arguments before it builds
    anything. Both address forms at once raise [TypeError]; otherwise a
    name that the validator refuses raises the validator's exception, a
    type that does not end with the name's service type raises
    [BadTypeInNameException], and after that an address that has
    neither 4 nor 16 bytes raises [TypeError]. *)
Theorem constructor_rejects_bad_arguments
    (type_ name : string) (port_ : option Z) (weight_ priority_ : Z)
    (properties_ : bytes + properties_dict) (server_ : option string)
    (host_ttl_ other_ttl_ : Z) (addresses : option (list bytes))
    (parsed_addresses : option (list string)) (interface_index_ : option Z) :
  let built := new_ServiceInfo type_ name port_ weight_ priority_ properties_ server_
                 host_ttl_ other_ttl_ addresses parsed_addresses interface_index_ in
  (addresses <> None -> parsed_addresses <> None -> built = Raise TypeError) /\
  (addresses = None \/ parsed_addresses = None ->
   (forall e, service_type_name name false = Raise e -> built = Raise e) /\
   (forall suffix,
      service_type_name name false = Return suffix ->
      (endswith type_ suffix = false -> built = Raise BadTypeInNameException) /\
      (endswith type_ suffix = true ->
       forall value,
         addresses = Some value ->
         Exists (fun address => length address <> 4%nat /\ length address <> 16%nat) value ->
         built = Raise TypeError))).
Proof.
  intros built. subst built. unfold new_ServiceInfo, __init__. split.
  - intros Ha Hp. by rewrite !bool_decide_eq_true_2.
  - intros Hone.
    assert (Hboth : bool_decide (addresses <> None) &&
                    bool_decide (parsed_addresses <> None) = false).
    { destruct Hone as [-> | ->]; [done|]. by rewrite andb_false_r. }
    rewrite Hboth. split.
    + intros e ->. by rewrite bind_lift_Raise.
    + intros suffix ->. rewrite bind_lift_Return. split.
      * by intros ->.
      * intros -> value -> Hbad. cbn [negb]. mstep.
        match goal with
        | |- match bind ?m ?k ?s0 with _ => _ end = _ =>
            pose proof (bind_result_Raise m k s0 TypeError) as Hfail;
            destruct (bind m k s0) as [[[?|?] ?] ?]
        end.
        -- unfold set_addresses in Hfail. rewrite !bind_modify in Hfail.
           by specialize (Hfail (set_addresses_loop_fails _ _ Hbad)).
        -- unfold set_addresses in Hfail. rewrite !bind_modify in Hfail.
           specialize (Hfail (set_addresses_loop_fails _ _ Hbad)).
           unfold result_of in Hfail. cbn [fst] in Hfail. by injection Hfail as ->.
Qed.

(** X19: an object that the constructor returns is consistent. Its
    name, type, port, weight, priority, TTLs and interface index are the
    arguments; [key] and [server_key] are the lowercased name and
    server; an empty server is stored as [None]; the text is never
    [None]; no waiter is registered; the ledgers hold the 4-byte and the
    16-byte addresses given, or nothing when no address was given; a
    text leaves no decoded mapping, a mapping is kept as it was
    given. *)
Theorem constructed_object_is_consistent
    (type_ name : string) (port_ : option Z) (weight_ priority_ : Z)
    (properties_ : bytes + properties_dict) (server_ : option string)
    (host_ttl_ other_ttl_ : Z) (addresses : option (list bytes))
    (parsed_addresses : option (list string)) (interface_index_ : option Z)
    (self : ServiceInfo) :
  new_ServiceInfo type_ name port_ weight_ priority_ properties_ server_
    host_ttl_ other_ttl_ addresses parsed_addresses interface_index_ = Return self ->
  (_name self = name /\ port self = port_ /\ weight self = weight_ /\
   priority self = priority_ /\
   configuration self = (type_, host_ttl_, other_ttl_, interface_index_)) /\
  keys_in_sync self /\
  server self = (if truthy_str server_ then server_ else None) /\
  text self <> None /\
  _new_records_futures self = [] /\
  (addresses = None -> parsed_addresses = None ->
   _ipv4_addresses self = [] /\ _ipv6_addresses self = []) /\
  (forall value, addresses = Some value ->
   _ipv4_addresses self = map IPv4Address (ipv4_of value) /\
   _ipv6_addresses self = map IPv6Address (ipv6_of value)) /\
  match properties_ with
  | inl text_ => text self = Some text_ /\ _properties self = None
  | inr dict_ => _properties self = Some dict_
  end.
Proof.
  intros Hnew. unfold new_ServiceInfo, __init__ in Hnew.
  destruct (bool_decide (addresses <> None) && bool_decide (parsed_addresses <> None));
    [discriminate|].
  destruct (service_type_name name false) as [suffix|e]; [|discriminate].
  mstep_in Hnew.
  destruct (negb (endswith type_ suffix)); [discriminate|].
  mstep_in Hnew.
  match type of Hnew with
  | match bind _ ?k ?s0 with _ => _ end = _ =>
      pose proof (init_addresses_run addresses parsed_addresses s0) as Haddr;
      cbv zeta in Haddr;
      destruct Haddr as [[e He]|(l4 & l6 & Hrun & Hnone & Hsome)];
      [apply (bind_result_Raise _ k) in He|]
  end.
  { match type of He with
    | result_of ?t = _ => destruct t as [[[?|?] ?] ?]
    end; discriminate. }
  rewrite (bind_run_pure _ _ _ _ _ Hrun) in Hnew. clear Hrun.
  cbn [_ipv4_addresses _ipv6_addresses set__ipv4_addresses set__ipv6_addresses
       set_key set__name set_type set_text] in Hnone.
  mstep_in Hnew.
  assert (Hkeys : forall s1 : ServiceInfo,
            server s1 = (if truthy_str server_ then server_ else None) ->
            server_key s1 =
              (if truthy_str server_ then option_map str_lower server_ else None) ->
            server_key s1 = option_map str_lower (server s1)).
  { intros s1 -> ->. by destruct (truthy_str server_). }
  destruct properties_ as [text_|dict_].
  - rewrite (bind_run_pure _ _ _ _ _ (_set_text_run text_ _)) in Hnew.
    mstep_in Hnew. unfold modify in Hnew. injection Hnew as <-.
    destruct (decide _) as [Hsame|Hother]; [cbn in Hsame; injection Hsame as ->|]; cbn;
      (split; [done|]); (split; [split; [done|by apply Hkeys]|]);
      (split; [done|]); (split; [done|]); (split; [done|]);
      (split; [exact Hnone|]); (split; [exact Hsome|]); done.
  - unfold bind at 1 in Hnew. rewrite _set_properties_run in Hnew.
    destruct (join_items (map property_record dict_) []) as [t|e]; [|discriminate].
    mstep_in Hnew. unfold modify in Hnew. injection Hnew as <-. cbn.
    (split; [done|]); (split; [split; [done|by apply Hkeys]|]);
      (split; [done|]); (split; [done|]); (split; [done|]);
      (split; [exact Hnone|]); (split; [exact Hsome|]); done.
Qed.

End Constructor.

(** X18 witness: both address forms given, each empty. *)
Lemma constructor_rejects_bad_arguments_witness :
  new_ServiceInfo "_http._tcp.local." "Printer._http._tcp.local." (Some 631) 0 0
    (inl []) None _DNS_HOST_TTL _DNS_OTHER_TTL (Some []) (Some []) None = Raise TypeError.
Proof.
  apply (proj1 (@constructor_rejects_bad_arguments reference_externals
                  "_http._tcp.local." "Printer._http._tcp.local." (Some 631) 0 0
                  (inl []) None _DNS_HOST_TTL _DNS_OTHER_TTL (Some []) (Some []) None));
    discriminate.
Defined.

(** X19 witness: a printer built with a mapping, an empty server, one
    IPv4 and one IPv6 address. *)
Lemma constructed_object_is_consistent_witness :
  exists self : ServiceInfo,
    new_ServiceInfo "_http._tcp.local." "Printer._http._tcp.local." (Some 631) 0 0
      (inr mixed_properties) (Some EmptyString) _DNS_HOST_TTL _DNS_OTHER_TTL
      (Some [packed ip6; packed ip1]) None None = Return self /\
    keys_in_sync self /\ server self = None /\
    _ipv4_addresses self = [ip1] /\ _ipv6_addresses self = [ip6] /\
    _properties self = Some mixed_properties.
Proof.
  destruct (new_ServiceInfo "_http._tcp.local." "Printer._http._tcp.local." (Some 631) 0 0
              (inr mixed_properties) (Some EmptyString) _DNS_HOST_TTL _DNS_OTHER_TTL
              (Some [packed ip6; packed ip1]) None None) as [self|e] eqn:Hnew;
    [|vm_compute in Hnew; discriminate].
  exists self. split; [done|].
  destruct (@constructed_object_is_consistent reference_externals _ _ _ _ _ _ _ _ _ _ _ _
              self Hnew) as (_ & Hkeys & Hserver & _ & _ & _ & Hladdr & Hprops).
  destruct (Hladdr _ eq_refl) as [H4 H6].
  repeat split; try done; apply Hkeys.
Defined.

(** ** The text is never lost *)

Section TextInvariant.
Context `{Externals}.

Lemma _process_record_threadsafe_keeps_text
    (zc : Zeroconf) (record : Dns.DNSRecord) (now : Z) :
  keeps (fun s => text s <> None) (_process_record_threadsafe zc record now).
Proof. by apply _process_record_threadsafe_keeps. Qed.

#[local] Hint Resolve _process_record_threadsafe_keeps_text : contracts.

(** X20: no record, cache load or update batch ever takes the text
    away: on an object that has a text (as every constructed object
    has) they leave a text, so that the object is complete exactly when
    one of its ledgers holds an address. *)
Theorem text_is_never_lost
    (zc : Zeroconf) (record : Dns.DNSRecord) (records : list RecordUpdate)
    (now : Z) (s : ServiceInfo) :
  text s <> None ->
  text (object_of (_process_record_threadsafe zc record now s)) <> None /\
  text (object_of (load_from_cache zc (Some now) now s)) <> None /\
  text (object_of (async_update_records zc now records s)) <> None /\
  _is_complete s =
    (Return (truthy (_ipv4_addresses s) || truthy (_ipv6_addresses s)), s, []).
Proof.
  intros Htext. split; [|split; [|split]].
  - by apply _process_record_threadsafe_keeps_text.
  - revert s Htext. change (keeps (fun s => text s <> None) (load_from_cache zc (Some now) now)).
    unfold load_from_cache, _get_address_records_from_cache_by_type, _is_complete.
    cbv zeta. contract.
  - revert s Htext.
    change (keeps (fun s => text s <> None) (async_update_records zc now records)).
    unfold async_update_records. apply keeps_bind; [contract|intros futures].
    apply keeps_bind.
    + match goal with
      | |- keeps ?I (?loop records false) =>
          cut (forall updated, keeps I (loop records updated)); [by intros Hloop|]
      end.
      induction records as [|r records IH]; intros updated; [by intros ? ?|].
      apply keeps_bind; [trivial with contracts|]. intros ?. apply IH.
    + intros updated. unfold _resolve_all_futures_to_none. contract.
  - rewrite _is_complete_run. by rewrite bool_decide_eq_true_2.
Qed.

End TextInvariant.

(** X20 witness: the sample resolver and a TXT record for it. *)
Lemma text_is_never_lost_witness :
  text (object_of (_process_record_threadsafe zc_host_a (printer_text (b "a=1")) 5 printer))
    <> None /\
  result_of (_is_complete printer) = Return false.
Proof.
  destruct (@text_is_never_lost reference_externals zc_host_a (printer_text (b "a=1")) []
              5 printer) as (Hrecord & _ & _ & Hcomplete).
  - discriminate.
  - split; [exact Hrecord|]. by rewrite Hcomplete.
Defined.
